(** * file-sync (package fsync): the abortable task and the fetch manager

    A shallow embedding of [Abortable] (Run, Abort), of [Plan]/[BasicPlan]
    and of [Manager] (NewManager, Start, Open, Fetch, Abort, lockedFetch,
    needsFetch, computeNextFetchTime).

    Goroutines are program counters named after the source line they are
    about to execute; one step of one goroutine is one shared-memory access
    or one blocking operation, and a schedule chooses which goroutine moves
    next (sequentially consistent interleaving).  A goroutine whose next
    operation would block ([Lock] on a held mutex, a receive with nothing
    to receive) has no step. *)

From Stdlib Require Import ZArith NArith List Bool Lia.
From Stdlib Require Import Strings.String Strings.Byte.
From stdpp Require Import base option list.

Set Default Proof Using "Type".
Local Open Scope Z_scope.

(** ** Errors

    The three sentinel errors of the abortable, [io.EOF], and the errors of
    the collaborators ([os], [cloudfile]) with their text. *)

Inductive error : Type :=
| ErrAborted
| ErrNotRunning
| ErrAlreadyRunning
| EOF
| ErrNotExist
| ErrOther (msg : string).

Definition error_eqb (a b : error) : bool :=
  match a, b with
  | ErrAborted, ErrAborted => true
  | ErrNotRunning, ErrNotRunning => true
  | ErrAlreadyRunning, ErrAlreadyRunning => true
  | EOF, EOF => true
  | ErrNotExist, ErrNotExist => true
  | ErrOther m1, ErrOther m2 => String.eqb m1 m2
  | _, _ => false
  end.

(** [os.IsNotExist(err)], applied to the error (or nil) returned by a call. *)
Definition IsNotExist (err : option error) : bool :=
  match err with
  | Some ErrNotExist => true
  | _ => false
  end.

(** ** Bytes, counted in [N]

    [copyBlockSize] is 1024000, so block arithmetic is done with binary
    numbers: [takeN n l] and [dropN n l] are the first [n] elements of [l]
    and the rest, by recursion on the list. *)

Abbreviation bytes := (list byte).

Fixpoint takeN {A} (n : N) (l : list A) : list A :=
  match l with
  | [] => []
  | x :: l' => if N.eqb n 0 then [] else x :: takeN (N.pred n) l'
  end.

Fixpoint dropN {A} (n : N) (l : list A) : list A :=
  match l with
  | [] => []
  | x :: l' => if N.eqb n 0 then l else dropN (N.pred n) l'
  end.

Definition lenN {A} (l : list A) : N := N.of_nat (length l).

(** ** Time

    A [time.Time] is the number of nanoseconds since the zero time
    [time.Time{}]; a [time.Duration] is a number of nanoseconds.  [Add],
    [Sub] and [After] are the operations of package time on instants. *)

Definition Time := Z.
Definition Duration := Z.

Definition zeroTime : Time := 0.
Definition Add (t : Time) (d : Duration) : Time := t + d.
Definition Sub (t u : Time) : Duration := t - u.
Definition After (t u : Time) : bool := u <? t.

(** ** plan.go

    [Plan] is the interface, [BasicPlan] the struct that implements it. *)

Class Plan (P : Type) := {
  RemotePath : P -> string;
  LocalPath : P -> string;
  UpdateInterval : P -> Duration
}.

Record BasicPlan := {
  Remote : string;
  Local : string;
  UpdateEvery : Duration
}.

#[export] Instance BasicPlan_Plan : Plan BasicPlan := {|
  RemotePath b := Remote b;
  LocalPath b := Local b;
  UpdateInterval b := UpdateEvery b
|}.

(** ** The file system, open files and remote streams

    A path is absent, a regular file with its contents and modification
    time, or a path on which every call fails with an error that is not
    "does not exist". *)

Inductive FsEntry :=
| Absent
| Regular (data : bytes) (mtime : Time)
| Denied (msg : string).

Definition FileSystem := string -> FsEntry.

Definition fs_set (fs : FileSystem) (p : string) (e : FsEntry) : FileSystem :=
  fun q => if String.eqb q p then e else fs q.

(** An [*os.File]: the path it was opened on, its offset and whether it
    has been closed. *)
Record File := {
  f_path : string;
  f_offset : N;
  f_closed : bool
}.

(** The [io.ReadCloser] returned by [cloudfile.Open]: the bytes not yet
    read, how the stream ends once they are read ([None]: end of data,
    [Some e]: the read fails with [e]), and whether it has been closed. *)
Record Reader := {
  r_rest : bytes;
  r_ending : option error;
  r_closed : bool
}.

(** What the transport has for a remote identifier: an error on open, or
    the bytes of the stream and how it ends. *)
Definition Transport := string -> error + (bytes * option error).

(** Everything outside the manager: the clock read by [time.Now()], the
    file system, the transport, and the tables of open files and streams
    (an [*os.File] or a stream is its index in the table). *)
Record World := {
  clock : Time;
  fs : FileSystem;
  transport : Transport;
  files : list File;
  remotes : list Reader;
  opened : nat      (* how many times cloudfile.Open was called *)
}.

(** [os.Stat(path)]: the modification time, or the error. *)
Definition Stat (w : World) (p : string) : Time + error :=
  match fs w p with
  | Absent => inr ErrNotExist
  | Regular _ mtime => inl mtime
  | Denied msg => inr (ErrOther msg)
  end.

Definition err_of {A} (r : A + error) : option error :=
  match r with
  | inl _ => None
  | inr e => Some e
  end.

(** The contents of a file after writing [data] at offset [off]; a write
    beyond the end leaves a hole of zero bytes. *)
Definition write_at (old : bytes) (off : N) (data : bytes) : bytes :=
  takeN off old ++ repeat x00 (N.to_nat off - length old) ++ data
    ++ dropN (off + lenN data) old.

(** ** Goroutine pools

    A system is a shared state and a pool of goroutines.  [tstep] is one
    step of one goroutine: the new shared state, the goroutine's next
    program point and the goroutines it spawned; [None] when it is blocked
    or has returned.  [estep] is a move of the environment. *)

Section Pool.
Context {S T E : Type}.
Variable tstep : S -> T -> option (S * T * list T).
Variable estep : S -> E -> option S.

Record Sys := { shared : S; pool : list T }.

Inductive Event :=
| Go (i : nat)
| Env (e : E).

Definition step (s : Sys) (ev : Event) : option Sys :=
  match ev with
  | Go i =>
      match pool s !! i with
      | None => None
      | Some t =>
          match tstep (shared s) t with
          | None => None
          | Some (sh, t', new) =>
              Some {| shared := sh; pool := <[i:=t']> (pool s) ++ new |}
          end
      end
  | Env e =>
      match estep (shared s) e with
      | None => None
      | Some sh => Some {| shared := sh; pool := pool s |}
      end
  end.

(** A schedule is run to its end; it is refused when it asks a blocked
    or finished goroutine to move. *)
Fixpoint exec (s : Sys) (sched : list Event) : option Sys :=
  match sched with
  | [] => Some s
  | ev :: rest =>
      match step s ev with
      | None => None
      | Some s' => exec s' rest
      end
  end.

(** [n] consecutive steps of one goroutine that spawns nothing. *)
Fixpoint solo (n : nat) (sh : S) (t : T) : option (S * T) :=
  match n with
  | O => Some (sh, t)
  | Datatypes.S n' =>
      match tstep sh t with
      | Some (sh', t', []) => solo n' sh' t'
      | _ => None
      end
  end.
End Pool.

Arguments Sys : clear implicits.
Arguments Event : clear implicits.
Arguments Go {E} i.
Arguments Env {E} e.

(** ** part_000: Abortable *)

(** The state of a [chan struct{}] that is only ever closed. *)
Inductive chan := ChanOpen | ChanClosed.

(** [mu] is held or free; [quit] is nil ([None]) or a channel. *)
Record Abortable := {
  a_mu : bool;
  a_quit : option chan
}.

Definition set_mu (b : bool) (a : Abortable) : Abortable :=
  {| a_mu := b; a_quit := a_quit a |}.
Definition set_quit (q : option chan) (a : Abortable) : Abortable :=
  {| a_mu := a_mu a; a_quit := q |}.

(** The two channels made by one call of [Run], with what has been
    delivered on each.  A send is complete when the caller has received;
    the caller is taken to be receiving on both, as [lockedFetch] is. *)
Record RunChans (V : Type) := {
  result : option V;
  errs : option error
}.
Arguments result {V} _.
Arguments errs {V} _.

Section AbortableModel.
Context {W V : Type}.

(** [TickFn]: a step function with its effect on the world [W]. *)
Definition TickFn := W -> W * (option V * option error).

Record AState := {
  ab : Abortable;
  world : W;
  chans : list (RunChans V)
}.

Definition with_ab (f : Abortable -> Abortable) (s : AState) : AState :=
  {| ab := f (ab s); world := world s; chans := chans s |}.
Definition with_world (w : W) (s : AState) : AState :=
  {| ab := ab s; world := w; chans := chans s |}.

Definition send_result (ch : nat) (v : V) (s : AState) : AState :=
  {| ab := ab s; world := world s;
     chans := alter (fun c => {| result := Some v; errs := errs c |}) ch (chans s) |}.
Definition send_errs (ch : nat) (e : error) (s : AState) : AState :=
  {| ab := ab s; world := world s;
     chans := alter (fun c => {| result := result c; errs := Some e |}) ch (chans s) |}.

(** Program points of the goroutine started by [Run] (lines 32-59). *)
Inductive RunPc :=
| L33                (* a.mu.Lock() *)
| L34                (* if a.quit != nil *)
| L35                (* errs <- ErrAlreadyRunning; return *)
| L38                (* a.quit = make(chan struct{}); defer ... *)
| L41                (* a.mu.Unlock() *)
| L44                (* select { case <-a.quit: ... default: ... } *)
| L46                (* errs <- ErrAborted; return *)
| L49                (* val, err := tick() *)
| L51 (val : V)      (* result <- val; return *)
| L54 (err : error)  (* errs <- err; return *)
| L39d               (* deferred: a.quit = nil *)
| LEnd.              (* the goroutine has returned *)

Record RunThread := {
  pc : RunPc;
  tick : TickFn;
  ch : nat
}.

Definition at_pc (p : RunPc) (t : RunThread) : RunThread :=
  {| pc := p; tick := tick t; ch := ch t |}.

Definition Run_step (s : AState) (t : RunThread) : option (AState * RunThread) :=
  match pc t with
  | L33 =>
      if a_mu (ab s) then None
      else Some (with_ab (set_mu true) s, at_pc L34 t)
  | L34 =>
      match a_quit (ab s) with
      | Some _ => Some (s, at_pc L35 t)
      | None => Some (s, at_pc L38 t)
      end
  | L35 => Some (send_errs (ch t) ErrAlreadyRunning s, at_pc LEnd t)
  | L38 => Some (with_ab (set_quit (Some ChanOpen)) s, at_pc L41 t)
  | L41 => Some (with_ab (set_mu false) s, at_pc L44 t)
  | L44 =>
      match a_quit (ab s) with
      | Some ChanClosed => Some (s, at_pc L46 t)
      | _ => Some (s, at_pc L49 t)
      end
  | L46 => Some (send_errs (ch t) ErrAborted s, at_pc L39d t)
  | L49 =>
      let '(w, (val, err)) := tick t (world s) in
      match val, err with
      | Some v, _ => Some (with_world w s, at_pc (L51 v) t)
      | None, Some e => Some (with_world w s, at_pc (L54 e) t)
      | None, None => Some (with_world w s, at_pc L44 t)
      end
  | L51 v => Some (send_result (ch t) v s, at_pc L39d t)
  | L54 e => Some (send_errs (ch t) e s, at_pc L39d t)
  | L39d => Some (with_ab (set_quit None) s, at_pc LEnd t)
  | LEnd => None
  end.

(** [Run] itself (lines 30, 31, 61): make the two channels, start the
    goroutine, return the channels. *)
Definition Run (s : AState) (tk : TickFn) : AState * nat * RunThread :=
  let c := length (chans s) in
  ({| ab := ab s; world := world s;
      chans := chans s ++ [{| result := None; errs := None |}] |},
   c,
   {| pc := L33; tick := tk; ch := c |}).

(** Program points of [Abort] (lines 67-75).  Closing a closed or a nil
    channel panics; the deferred Unlock runs while the panic unwinds. *)
Inductive AbortPc :=
| A68                          (* a.mu.Lock() *)
| A70                          (* if a.quit == nil *)
| A73                          (* close(a.quit) *)
| A69d (ret : option error)    (* deferred: a.mu.Unlock() *)
| A69p                         (* deferred Unlock of a panicking Abort *)
| APanic                       (* unrecovered panic *)
| AEnd (ret : option error).   (* returned [ret] *)

Definition Abort_step (s : AState) (p : AbortPc) : option (AState * AbortPc) :=
  match p with
  | A68 =>
      if a_mu (ab s) then None
      else Some (with_ab (set_mu true) s, A70)
  | A70 =>
      match a_quit (ab s) with
      | None => Some (s, A69d (Some ErrNotRunning))
      | Some _ => Some (s, A73)
      end
  | A73 =>
      match a_quit (ab s) with
      | Some ChanOpen => Some (with_ab (set_quit (Some ChanClosed)) s, A69d None)
      | _ => Some (s, A69p)
      end
  | A69d ret => Some (with_ab (set_mu false) s, AEnd ret)
  | A69p => Some (with_ab (set_mu false) s, APanic)
  | APanic => None
  | AEnd _ => None
  end.

(** The goroutines of a program that only uses the abortable: callers of
    [Run], the goroutines they start, and callers of [Abort]. *)
Inductive AThread :=
| CallRun (tk : TickFn)
| Returned (c : nat)
| Running (t : RunThread)
| Aborting (p : AbortPc).

Definition athread_step (s : AState) (t : AThread)
  : option (AState * AThread * list AThread) :=
  match t with
  | CallRun tk =>
      let '(s', c, g) := Run s tk in Some (s', Returned c, [Running g])
  | Returned _ => None
  | Running r =>
      match Run_step s r with
      | Some (s', r') => Some (s', Running r', [])
      | None => None
      end
  | Aborting p =>
      match Abort_step s p with
      | Some (s', p') => Some (s', Aborting p', [])
      | None => None
      end
  end.

(** [n] consecutive steps of one goroutine of [Run], of one [Abort]. *)
Fixpoint Run_steps (n : nat) (s : AState) (t : RunThread)
  : option (AState * RunThread) :=
  match n with
  | O => Some (s, t)
  | Datatypes.S n' =>
      match Run_step s t with
      | Some (s', t') => Run_steps n' s' t'
      | None => None
      end
  end.

Fixpoint Abort_steps (n : nat) (s : AState) (p : AbortPc)
  : option (AState * AbortPc) :=
  match n with
  | O => Some (s, p)
  | Datatypes.S n' =>
      match Abort_step s p with
      | Some (s', p') => Abort_steps n' s' p'
      | None => None
      end
  end.

(** A goroutine that does not hold [a.mu] and whose next operation, if
    it has one, is [a.mu.Lock()] or a call of [Run]. *)
Definition parked (t : AThread) : bool :=
  match t with
  | CallRun _ | Returned _ => true
  | Running r => match pc r with L33 | LEnd => true | _ => false end
  | Aborting p => match p with A68 | AEnd _ | APanic => true | _ => false end
  end.

Definition no_env (s : AState) (e : Empty_set) : option AState := None.

Definition aexec := exec athread_step no_env.
End AbortableModel.

Arguments AState : clear implicits.
Arguments RunThread : clear implicits.
Arguments AThread : clear implicits.
Arguments TickFn : clear implicits.
Arguments RunPc : clear implicits.

(** ** part_001: Manager *)

Definition copyBlockSize : N := 1024000.

(** A [sync.RWMutex]: held by one writer, or by some readers. *)
Record RWMutex := {
  writer : bool;
  readers : nat
}.

(** The channel returned by [time.After]: one value, ready from
    [deadline] on, until some receiver has taken it. *)
Record Timer := {
  deadline : Time;
  taken : bool
}.

(** [time.After(d)] called at instant [t]. *)
Definition time_After (t : Time) (d : Duration) : Timer :=
  {| deadline := Add t d; taken := false |}.

(** *** Files and streams in the world *)

Definition add_file (w : World) (p : string) : World * nat :=
  ({| clock := clock w; fs := fs w; transport := transport w;
      files := files w ++ [{| f_path := p; f_offset := 0%N; f_closed := false |}];
      remotes := remotes w; opened := opened w |},
   length (files w)).

Definition with_fs (f : FileSystem) (w : World) : World :=
  {| clock := clock w; fs := f; transport := transport w;
     files := files w; remotes := remotes w; opened := opened w |}.

Definition with_files (l : list File) (w : World) : World :=
  {| clock := clock w; fs := fs w; transport := transport w;
     files := l; remotes := remotes w; opened := opened w |}.

Definition with_remotes (l : list Reader) (w : World) : World :=
  {| clock := clock w; fs := fs w; transport := transport w;
     files := files w; remotes := l; opened := opened w |}.

Definition with_clock (t : Time) (w : World) : World :=
  {| clock := t; fs := fs w; transport := transport w;
     files := files w; remotes := remotes w; opened := opened w |}.

(** [os.OpenFile(p, os.O_RDWR|os.O_CREATE, 0644)]: the file is created
    empty when absent and is not truncated when present. *)
Definition OpenFile (w : World) (p : string) : World * (nat + error) :=
  match fs w p with
  | Absent =>
      let '(w', h) := add_file (with_fs (fs_set (fs w) p (Regular [] (clock w))) w) p in
      (w', inl h)
  | Regular _ _ => let '(w', h) := add_file w p in (w', inl h)
  | Denied msg => (w, inr (ErrOther msg))
  end.

(** [os.Open(p)]: read-only, never creates. *)
Definition os_Open (w : World) (p : string) : World * (nat + error) :=
  match fs w p with
  | Absent => (w, inr ErrNotExist)
  | Regular _ _ => let '(w', h) := add_file w p in (w', inl h)
  | Denied msg => (w, inr (ErrOther msg))
  end.

(** [cloudfile.Open(remote)] *)
Definition cloudfile_Open (w : World) (remote : string) : World * (nat + error) :=
  let w1 := {| clock := clock w; fs := fs w; transport := transport w;
               files := files w; remotes := remotes w;
               opened := Datatypes.S (opened w) |} in
  match transport w remote with
  | inl e => (w1, inr e)
  | inr (data, ending) =>
      (with_remotes (remotes w ++ [{| r_rest := data; r_ending := ending;
                                      r_closed := false |}]) w1,
       inl (length (remotes w)))
  end.

(** [file.Seek(0, 0)] *)
Definition Seek0 (w : World) (h : nat) : World :=
  with_files (alter (fun f => {| f_path := f_path f; f_offset := 0%N;
                                 f_closed := f_closed f |}) h (files w)) w.

(** [remoteFile.Close()] *)
Definition CloseRemote (w : World) (r : nat) : World :=
  with_remotes (alter (fun x => {| r_rest := r_rest x; r_ending := r_ending x;
                                   r_closed := true |}) r (remotes w)) w.

(** Writing [data] through the open file [f]: the bytes land at the
    file's offset, which advances. *)
Definition write_file (w : World) (h : nat) (f : File) (data : bytes) : World :=
  match data, fs w (f_path f) with
  | _ :: _, Regular old _ =>
      with_files (<[h := {| f_path := f_path f;
                            f_offset := (f_offset f + lenN data)%N;
                            f_closed := f_closed f |}]> (files w))
        (with_fs (fs_set (fs w) (f_path f)
                    (Regular (write_at old (f_offset f) data) (clock w))) w)
  | _, _ => w
  end.

(** [io.CopyN(dst, src, n)]: copy [n] bytes, or what is left when the
    stream ends first, in which case the error is the stream's own or
    [io.EOF]. *)
Definition CopyN (w : World) (dst src : nat) (n : N) : World * option error :=
  match files w !! dst, remotes w !! src with
  | Some f, Some r =>
      if f_closed f then (w, Some (ErrOther "file already closed"))
      else
        let chunk := takeN n (r_rest r) in
        let w1 := write_file w dst f chunk in
        let w2 := with_remotes
                    (<[src := {| r_rest := dropN n (r_rest r);
                                 r_ending := r_ending r;
                                 r_closed := r_closed r |}]> (remotes w1)) w1 in
        if (lenN chunk =? n)%N then (w2, None)
        else (w2, Some (match r_ending r with
                        | None => EOF
                        | Some e => e
                        end))
  | _, _ => (w, Some (ErrOther "invalid argument"))
  end.

(** The step function of lines 104-112. *)
Definition copyTick (file remoteFile : nat) : TickFn World nat :=
  fun w =>
    match CopyN w file remoteFile copyBlockSize with
    | (w', Some err) =>
        if error_eqb err EOF then (w', (Some file, None))
        else (w', (None, Some err))
    | (w', None) => (w', (None, None))
    end.

Section ManagerModel.
Context {P : Type} {PlanP : Plan P}.

Record Manager := {
  plan : P;
  lastFetchedAt : Time;
  nextFetch : Timer;
  mu : RWMutex;
  quit : option chan
}.

(** The manager's own fields, and its [abortable] together with the
    world and the channels of the runs. *)
Record Shared := {
  mgr : Manager;
  ast : AState World nat
}.

Definition with_mgr (f : Manager -> Manager) (s : Shared) : Shared :=
  {| mgr := f (mgr s); ast := ast s |}.
Definition with_ast (a : AState World nat) (s : Shared) : Shared :=
  {| mgr := mgr s; ast := a |}.
Definition on_world (f : World -> World) (s : Shared) : Shared :=
  {| mgr := mgr s; ast := with_world (f (world (ast s))) (ast s) |}.

Definition set_lastFetchedAt (t : Time) (m : Manager) : Manager :=
  {| plan := plan m; lastFetchedAt := t; nextFetch := nextFetch m;
     mu := mu m; quit := quit m |}.
Definition set_nextFetch (t : Timer) (m : Manager) : Manager :=
  {| plan := plan m; lastFetchedAt := lastFetchedAt m; nextFetch := t;
     mu := mu m; quit := quit m |}.
Definition set_rw (l : RWMutex) (m : Manager) : Manager :=
  {| plan := plan m; lastFetchedAt := lastFetchedAt m;
     nextFetch := nextFetch m; mu := l; quit := quit m |}.
Definition set_mquit (q : option chan) (m : Manager) : Manager :=
  {| plan := plan m; lastFetchedAt := lastFetchedAt m;
     nextFetch := nextFetch m; mu := mu m; quit := q |}.

(** Lines 126-137. *)
Definition needsFetch (m : Manager) (w : World) : bool :=
  let targetFetchTime := Add (lastFetchedAt m) (UpdateInterval (plan m)) in
  if After (clock w) targetFetchTime then true
  else if IsNotExist (err_of (Stat w (LocalPath (plan m)))) then true
  else false.

(** Lines 139-144. *)
Definition computeNextFetchTime (m : Manager) (w : World) : Timer :=
  let targetFetchTime := Add (lastFetchedAt m) (UpdateInterval (plan m)) in
  let timeDiff := Sub targetFetchTime (clock w) in
  time_After (clock w) timeDiff.

(** Lines 25-38. *)
Definition NewManager (pl : P) (w : World) : Manager :=
  let manager := {| plan := pl; lastFetchedAt := zeroTime;
                    nextFetch := {| deadline := 0; taken := true |};
                    mu := {| writer := false; readers := 0 |};
                    quit := Some ChanOpen |} in
  let manager := match Stat w (LocalPath pl) with
                 | inl modTime => set_lastFetchedAt modTime manager
                 | inr _ => manager
                 end in
  set_nextFetch (computeNextFetchTime manager w) manager.

(** What [Open], [Fetch] and [lockedFetch] return: [(file, err)]. *)
Definition Ret := (option nat * option error)%type.

(** Program points of [lockedFetch] (lines 85-124).  The deferred calls
    run in reverse order of registration: Seek, then Close. *)
Inductive LFpc :=
| LF91                             (* os.OpenFile(localPath, ...) *)
| LF95 (file : nat)                (* if localPath != remotePath *)
| LF96 (file : nat)                (* cloudfile.Open(remotePath) *)
| LF104 (file remoteFile : nat)    (* m.abortable.Run(...) *)
| LF114 (file remoteFile c : nat)  (* select on done and errs *)
| LF116 (file remoteFile : nat)    (* m.lastFetchedAt = time.Now() *)
| LF102d (file remoteFile : nat) (ret : Ret)  (* deferred file.Seek(0, 0) *)
| LF100d (remoteFile : nat) (ret : Ret)       (* deferred remoteFile.Close() *)
| LFret (ret : Ret).               (* lockedFetch returns [ret] *)

Inductive OpenPc :=
| O63                 (* m.mu.RLock() *)
| O66                 (* if m.needsFetch() *)
| O67 (lf : LFpc)     (* return m.lockedFetch() *)
| O69                 (* return os.Open(m.plan.LocalPath()) *)
| O64d (ret : Ret)    (* deferred m.mu.RUnlock() *)
| ODone (ret : Ret).

Inductive FetchPc :=
| F75                 (* m.mu.Lock() *)
| F77 (lf : LFpc)     (* return m.lockedFetch() *)
| F76d (ret : Ret)    (* deferred m.mu.Unlock() *)
| FDone (ret : Ret).

Inductive LoopPc :=
| Lp48                    (* select on m.quit and m.nextFetch *)
| Lp50 (p : AbortPc)      (* m.abortable.Abort() *)
| Lp51                    (* m.quit = nil; return *)
| Lp54 (f : FetchPc)      (* m.Fetch() *)
| Lp55                    (* m.nextFetch = m.computeNextFetchTime() *)
| LpDone.

Inductive StartPc :=
| S42                 (* if m.quit == nil { m.quit = make(...) } *)
| S46                 (* go func() { ... }() *)
| SDone.

Inductive Thread :=
| TOpen (p : OpenPc)
| TFetch (p : FetchPc)
| TAbort (p : AbortPc)
| TStart (p : StartPc)
| TLoop (p : LoopPc)
| TRun (r : RunThread World nat).

Definition ret_of (r : World * (nat + error)) : Ret :=
  match snd r with
  | inl h => (Some h, None)
  | inr e => (None, Some e)
  end.

Definition lockedFetch_step (s : Shared) (p : LFpc) : option (Shared * LFpc * list Thread) :=
  let localPath := LocalPath (plan (mgr s)) in
  let remotePath := RemotePath (plan (mgr s)) in
  let w := world (ast s) in
  match p with
  | LF91 =>
      match OpenFile w localPath with
      | (w', inl file) => Some (on_world (fun _ => w') s, LF95 file, [])
      | (w', inr err) => Some (on_world (fun _ => w') s, LFret (None, Some err), [])
      end
  | LF95 file =>
      if String.eqb localPath remotePath
      then Some (s, LFret (Some file, None), [])
      else Some (s, LF96 file, [])
  | LF96 file =>
      match cloudfile_Open w remotePath with
      | (w', inl remoteFile) => Some (on_world (fun _ => w') s, LF104 file remoteFile, [])
      | (w', inr err) => Some (on_world (fun _ => w') s, LFret (None, Some err), [])
      end
  | LF104 file remoteFile =>
      let '(a, c, g) := Run (ast s) (copyTick file remoteFile) in
      Some (with_ast a s, LF114 file remoteFile c, [TRun g])
  | LF114 file remoteFile c =>
      match chans (ast s) !! c with
      | Some {| result := Some _ |} => Some (s, LF116 file remoteFile, [])
      | Some {| result := None; errs := Some err |} =>
          Some (s, LF102d file remoteFile (None, Some err), [])
      | _ => None
      end
  | LF116 file remoteFile =>
      Some (with_mgr (set_lastFetchedAt (clock w)) s,
            LF102d file remoteFile (Some file, None), [])
  | LF102d file remoteFile ret =>
      Some (on_world (fun w => Seek0 w file) s, LF100d remoteFile ret, [])
  | LF100d remoteFile ret =>
      Some (on_world (fun w => CloseRemote w remoteFile) s, LFret ret, [])
  | LFret _ => None
  end.

Definition rlock (l : RWMutex) : option RWMutex :=
  if writer l then None
  else Some {| writer := false; readers := Datatypes.S (readers l) |}.
Definition runlock (l : RWMutex) : RWMutex :=
  {| writer := writer l; readers := Nat.pred (readers l) |}.
Definition lock (l : RWMutex) : option RWMutex :=
  if writer l then None
  else match readers l with
       | O => Some {| writer := true; readers := O |}
       | _ => None
       end.
Definition unlock (l : RWMutex) : RWMutex :=
  {| writer := false; readers := readers l |}.

(** Lines 62-70. *)
Definition Open_step (s : Shared) (p : OpenPc) : option (Shared * OpenPc * list Thread) :=
  match p with
  | O63 =>
      match rlock (mu (mgr s)) with
      | Some l => Some (with_mgr (set_rw l) s, O66, [])
      | None => None
      end
  | O66 =>
      if needsFetch (mgr s) (world (ast s))
      then Some (s, O67 LF91, [])
      else Some (s, O69, [])
  | O67 lf =>
      match lockedFetch_step s lf with
      | Some (s', LFret ret, new) => Some (s', O64d ret, new)
      | Some (s', lf', new) => Some (s', O67 lf', new)
      | None => None
      end
  | O69 =>
      let r := os_Open (world (ast s)) (LocalPath (plan (mgr s))) in
      Some (on_world (fun _ => fst r) s, O64d (ret_of r), [])
  | O64d ret => Some (with_mgr (fun m => set_rw (runlock (mu m)) m) s, ODone ret, [])
  | ODone _ => None
  end.

(** Lines 74-78. *)
Definition Fetch_step (s : Shared) (p : FetchPc) : option (Shared * FetchPc * list Thread) :=
  match p with
  | F75 =>
      match lock (mu (mgr s)) with
      | Some l => Some (with_mgr (set_rw l) s, F77 LF91, [])
      | None => None
      end
  | F77 lf =>
      match lockedFetch_step s lf with
      | Some (s', LFret ret, new) => Some (s', F76d ret, new)
      | Some (s', lf', new) => Some (s', F77 lf', new)
      | None => None
      end
  | F76d ret => Some (with_mgr (fun m => set_rw (unlock (mu m)) m) s, FDone ret, [])
  | FDone _ => None
  end.

Definition timer_ready (t : Timer) (w : World) : bool :=
  negb (taken t) && (deadline t <=? clock w).

(** The goroutine of lines 46-58.  When both cases of the select are
    ready Go may take either; the model takes the stop signal. *)
Definition loop_step (s : Shared) (p : LoopPc) : option (Shared * LoopPc * list Thread) :=
  match p with
  | Lp48 =>
      match quit (mgr s) with
      | Some ChanClosed => Some (s, Lp50 A68, [])
      | _ =>
          if timer_ready (nextFetch (mgr s)) (world (ast s))
          then Some (with_mgr (fun m =>
                       set_nextFetch {| deadline := deadline (nextFetch m);
                                        taken := true |} m) s,
                     Lp54 F75, [])
          else None
      end
  | Lp50 a =>
      match Abort_step (ast s) a with
      | Some (a', AEnd _) => Some (with_ast a' s, Lp51, [])
      | Some (a', p') => Some (with_ast a' s, Lp50 p', [])
      | None => None
      end
  | Lp51 => Some (with_mgr (set_mquit None) s, LpDone, [])
  | Lp54 f =>
      match Fetch_step s f with
      | Some (s', FDone _, new) => Some (s', Lp55, new)
      | Some (s', f', new) => Some (s', Lp54 f', new)
      | None => None
      end
  | Lp55 =>
      Some (with_mgr (fun m => set_nextFetch (computeNextFetchTime m (world (ast s))) m) s,
            Lp48, [])
  | LpDone => None
  end.

(** Lines 41-59. *)
Definition Start_step (s : Shared) (p : StartPc) : option (Shared * StartPc * list Thread) :=
  match p with
  | S42 =>
      match quit (mgr s) with
      | None => Some (with_mgr (set_mquit (Some ChanOpen)) s, S46, [])
      | Some _ => Some (s, S46, [])
      end
  | S46 => Some (s, SDone, [TLoop Lp48])
  | SDone => None
  end.

Definition thread_step (s : Shared) (t : Thread) : option (Shared * Thread * list Thread) :=
  match t with
  | TOpen p =>
      match Open_step s p with
      | Some (s', p', new) => Some (s', TOpen p', new)
      | None => None
      end
  | TFetch p =>
      match Fetch_step s p with
      | Some (s', p', new) => Some (s', TFetch p', new)
      | None => None
      end
  | TAbort p =>
      match Abort_step (ast s) p with
      | Some (a, p') => Some (with_ast a s, TAbort p', [])
      | None => None
      end
  | TStart p =>
      match Start_step s p with
      | Some (s', p', new) => Some (s', TStart p', new)
      | None => None
      end
  | TLoop p =>
      match loop_step s p with
      | Some (s', p', new) => Some (s', TLoop p', new)
      | None => None
      end
  | TRun r =>
      match Run_step (ast s) r with
      | Some (a, r') => Some (with_ast a s, TRun r', [])
      | None => None
      end
  end.

(** Moves of the environment: time passes, or another process removes
    a file. *)
Inductive EnvEvent :=
| Advance (d : Duration)
| Unlink (p : string).

Definition env_step (s : Shared) (e : EnvEvent) : option Shared :=
  match e with
  | Advance d =>
      if d <? 0 then None
      else Some (on_world (fun w => with_clock (clock w + d) w) s)
  | Unlink p =>
      match fs (world (ast s)) p with
      | Regular _ _ => Some (on_world (fun w => with_fs (fs_set (fs w) p Absent) w) s)
      | _ => None
      end
  end.

Definition mexec := exec thread_step env_step.

(** The background loops that have been launched and have not returned. *)
Fixpoint running_loops (l : list Thread) : nat :=
  match l with
  | [] => O
  | TLoop LpDone :: l' => running_loops l'
  | TLoop _ :: l' => Datatypes.S (running_loops l')
  | _ :: l' => running_loops l'
  end.

(** Where a goroutine stands with respect to the abortable: between the
    Lock and the Unlock of [a.mu]; between installing [a.quit] and
    clearing it (the loop of [Run] and the sends that end it); about to
    install [a.quit]. *)
Definition abort_holds (p : AbortPc) : bool :=
  match p with
  | A70 | A73 | A69d _ | A69p => true
  | _ => false
  end.

Definition holds_mu (t : Thread) : bool :=
  match t with
  | TRun r => match pc r with L34 | L35 | L38 | L41 => true | _ => false end
  | TAbort p => abort_holds p
  | TLoop (Lp50 p) => abort_holds p
  | _ => false
  end.

Definition in_loop (t : Thread) : bool :=
  match t with
  | TRun r =>
      match pc r with
      | L41 | L44 | L46 | L49 | L51 _ | L54 _ | L39d => true
      | _ => false
      end
  | _ => false
  end.

Definition at_install (t : Thread) : bool :=
  match t with
  | TRun r => match pc r with L38 => true | _ => false end
  | _ => false
  end.

Fixpoint count (f : Thread -> bool) (l : list Thread) : nat :=
  match l with
  | [] => O
  | t :: l' => ((if f t then 1 else 0) + count f l')%nat
  end.

Definition b2n (b : bool) : nat := if b then 1%nat else 0%nat.
Definition q2n (q : option chan) : nat :=
  match q with
  | Some _ => 1%nat
  | None => 0%nat
  end.

(** The abortable's guard.  [a.mu] is held by at most one goroutine, and
    [a.quit] is installed for at most one run at a time. *)
Definition guarded (sys : Sys Shared Thread) : Prop :=
  (count holds_mu (pool sys) <= b2n (a_mu (ab (ast (shared sys)))))%nat
  /\ (count in_loop (pool sys) <= q2n (a_quit (ab (ast (shared sys)))))%nat
  /\ (a_quit (ab (ast (shared sys))) <> None -> count at_install (pool sys) = 0%nat).

(** The state of a Fetch that holds the lock, has opened the existing
    local file and the remote stream. *)
Definition entered (s : Shared) (data : bytes) (ending : option error) : Shared :=
  let w := world (ast s) in
  {| mgr := set_rw {| writer := true; readers := 0 |} (mgr s);
     ast := {| ab := ab (ast s);
               world := {| clock := clock w; fs := fs w; transport := transport w;
                           files := files w ++ [{| f_path := LocalPath (plan (mgr s));
                                                  f_offset := 0%N; f_closed := false |}];
                           remotes := remotes w ++ [{| r_rest := data; r_ending := ending;
                                                      r_closed := false |}];
                           opened := Datatypes.S (opened w) |};
               chans := chans (ast s) |} |}.

(** A manager fresh from [NewManager], its abortable unused. *)
Definition boot (pl : P) (w : World) (callers : list Thread) : Sys Shared Thread :=
  {| shared := {| mgr := NewManager pl w;
                  ast := {| ab := {| a_mu := false; a_quit := None |};
                            world := w; chans := [] |} |};
     pool := callers |}.
End ManagerModel.

Arguments Manager : clear implicits.
Arguments Shared : clear implicits.


(** ** More of the abortable: a step function called again and again *)

Section TickRuns.
Context {W V : Type}.

(** The world after [n] calls of the step function. *)
Fixpoint ticks (n : nat) (tk : TickFn W V) (w : W) : W :=
  match n with
  | O => w
  | Datatypes.S n' => ticks n' tk (tk w).1
  end.

(** What the goroutine of [Run] sends for the values returned by the
    step function (lines 50-56): the result when there is one, otherwise
    the error. *)
Definition delivered (val : option V) (err : option error) (c : RunChans V)
  : RunChans V :=
  match val with
  | Some v => {| result := Some v; errs := errs c |}
  | None => {| result := result c; errs := err |}
  end.
End TickRuns.

(** ** More of the manager: the calls of lockedFetch, the lock, the loop *)

(** What lines 104-112 return at the last call, by the way the stream
    ends: end of data (or an error equal to io.EOF) is success. *)
Definition copy_outcome (file : nat) (ending : option error)
  : option nat * option error :=
  match ending with
  | None => (Some file, None)
  | Some e => if error_eqb e EOF then (Some file, None) else (None, Some e)
  end.

(** Whether a stream that ends with [ending] ends well for the copy:
    end of data, or an error equal to io.EOF. *)
Definition ends_well (ending : option error) : bool :=
  match ending with
  | None => true
  | Some e => error_eqb e EOF
  end.

(** What the file at [p] holds once os.OpenFile has opened it. *)
Definition present (w : World) (p : string) : bytes :=
  match fs w p with
  | Regular data _ => data
  | _ => []
  end.

(** What a copy does not touch. *)
Definition kept (w0 w : World) : Prop :=
  opened w = opened w0 /\ transport w = transport w0
  /\ length (remotes w) = length (remotes w0).

(** A background loop that has taken the stop branch of its select
    (lines 50-52), or has returned. *)
Definition stopping (t : Thread) : bool :=
  match t with
  | TLoop (Lp50 _) | TLoop Lp51 | TLoop LpDone => true
  | _ => false
  end.

(** [running_loops], as a count. *)
Definition is_running (t : Thread) : bool :=
  match t with
  | TLoop LpDone => false
  | TLoop _ => true
  | _ => false
  end.

(** Between the Lock and the Unlock of [Fetch]; between the RLock and the
    RUnlock of [Open]. *)
Definition fetch_holds (p : FetchPc) : bool :=
  match p with
  | F77 _ | F76d _ => true
  | _ => false
  end.

Definition in_Fetch (t : Thread) : bool :=
  match t with
  | TFetch p => fetch_holds p
  | TLoop (Lp54 p) => fetch_holds p
  | _ => false
  end.

Definition in_Open (t : Thread) : bool :=
  match t with
  | TOpen (O66 | O67 _ | O69 | O64d _) => true
  | _ => false
  end.

(** The background loop at line 54: inside [m.Fetch()], or back from it
    at line 55. *)
Definition in_loop_Fetch (f : FetchPc) : Thread :=
  match f with
  | FDone _ => TLoop Lp55
  | _ => TLoop (Lp54 f)
  end.

(** A goroutine of the pool that the manager itself can have started:
    the only step function it passes to Run is the copy of lines
    104-112. *)
Definition manager_run (t : Thread) : Prop :=
  match t with
  | TRun r => exists file remoteFile, tick r = copyTick file remoteFile
  | _ => True
  end.

(** The caller of lockedFetch (goroutine [i]) moves up to the call of
    Run in [enter] steps and makes that call; the goroutine of the run
    (number [g]) copies [k] whole blocks and the last one; the caller
    returns in [back] steps. *)
Definition copy_schedule (i g enter k back : nat) : list (Event EnvEvent) :=
  repeat (Go i) enter ++ [Go i] ++ repeat (Go g) (4 + (2 * k + 4))
    ++ repeat (Go i) back.

(** One iteration of the background loop (goroutine [i]) around a Fetch
    that copies [k] blocks and the last one: the timer fires, Fetch runs,
    the timer is rearmed. *)
Definition loop_schedule (i g k : nat) : list (Event EnvEvent) :=
  [Go i] ++ copy_schedule i g 4 k 5 ++ [Go i].

Section ManagerStates.
Context {P : Type} {PlanP : Plan P}.

(** The state of a call of lockedFetch that has opened the local file
    and the remote stream, the manager's lock being [l]. *)
Definition inside (l : RWMutex) (s : Shared P) (data : bytes)
    (ending : option error) : Shared P :=
  let w := (OpenFile (world (ast s)) (LocalPath (plan (mgr s)))).1 in
  {| mgr := set_rw l (mgr s);
     ast := {| ab := ab (ast s);
               world := {| clock := clock w; fs := fs w; transport := transport w;
                           files := files w;
                           remotes := remotes w ++ [{| r_rest := data; r_ending := ending;
                                                      r_closed := false |}];
                           opened := Datatypes.S (opened w) |};
               chans := chans (ast s) |} |}.

(** The manager's lock agrees with where the goroutines are. *)
Definition locked (sys : Sys (Shared P) Thread) : Prop :=
  b2n (writer (mu (mgr (shared sys)))) = count in_Fetch (pool sys)
  /\ readers (mu (mgr (shared sys))) = count in_Open (pool sys)
  /\ (writer (mu (mgr (shared sys))) = true -> readers (mu (mgr (shared sys))) = 0%nat).

(** A refresh is overdue, the timer of the background loop is ready,
    and the transport refuses to open the remote with [e]. *)
Definition remote_down (e : error) (s : Shared P) : Prop :=
  quit (mgr s) <> Some ChanClosed
  /\ mu (mgr s) = {| writer := false; readers := 0 |}
  /\ timer_ready (nextFetch (mgr s)) (world (ast s)) = true
  /\ Add (lastFetchedAt (mgr s)) (UpdateInterval (plan (mgr s))) <= clock (world (ast s))
  /\ String.eqb (LocalPath (plan (mgr s))) (RemotePath (plan (mgr s))) = false
  /\ (forall msg, fs (world (ast s)) (LocalPath (plan (mgr s))) <> Denied msg)
  /\ transport (world (ast s)) (RemotePath (plan (mgr s))) = inl e.
End ManagerStates.
(** * Scenarios

    Concrete plans, worlds and step functions used in the examples. *)

Local Open Scope string_scope.
Local Open Scope list_scope.

(** A manager that fetched at instant 5 with a zero interval, asked at
    instant 5 while its local file exists. *)
Definition zero_plan : BasicPlan :=
  {| Remote := "mock://tmp-file.txt"; Local := "cache.txt"; UpdateEvery := 0 |}.

Definition zero_manager : Manager BasicPlan :=
  {| plan := zero_plan; lastFetchedAt := 5;
     nextFetch := {| deadline := 5; taken := false |};
     mu := {| writer := false; readers := 0 |};
     quit := Some ChanOpen |}.

Definition no_transport : Transport := fun _ => inl (ErrOther "no such remote").

Definition world_at (t : Time) (f : FileSystem) (tr : Transport) : World :=
  {| clock := t; fs := f; transport := tr; files := []; remotes := [];
     opened := 0 |}.

Definition one_file (p : string) (data : bytes) (mtime : Time) : FileSystem :=
  fs_set (fun _ => Absent) p (Regular data mtime).


(** Step functions over a counter: [finish_with v e] returns [(v, e)] at
    its first call; [count_to n v] keeps going until the counter reaches
    [n] and then returns the result [v]. *)
Definition finish_with (v : option nat) (e : option error) : TickFn nat nat :=
  fun w => (Datatypes.S w, (v, e)).

Definition count_to (n : nat) (v : nat) : TickFn nat nat :=
  fun w => if (n <=? Datatypes.S w)%nat then (Datatypes.S w, (Some v, None))
           else (Datatypes.S w, (None, None)).

Definition idle : AState nat nat :=
  {| ab := {| a_mu := false; a_quit := None |}; world := 0%nat; chans := [] |}.

(** One caller of [Run] whose step function finishes at its first call,
    and one caller of [Abort]. *)
Definition abort_late : Sys (AState nat nat) (AThread nat nat) :=
  {| shared := idle;
     pool := [CallRun (finish_with (Some 7%nat) None); Aborting A68] |}.

(** The run reaches line 49, Abort runs from its first line to its
    return, the run goes on to its end. *)
Definition abort_late_schedule : list (Event Empty_set) :=
  [Go 0] ++ repeat (Go 2) 5 ++ repeat (Go 1) 4 ++ repeat (Go 2) 3.

(** A run in its loop with the cancellation channel installed. *)
Definition active : AState nat nat :=
  {| ab := {| a_mu := false; a_quit := Some ChanOpen |}; world := 0%nat;
     chans := [{| result := None; errs := None |}] |}.

(** Three callers of [Run] and one of [Abort] on the same abortable. *)
Definition three_runs : Sys (AState nat nat) (AThread nat nat) :=
  {| shared := idle;
     pool := [CallRun (count_to 2 9); CallRun (finish_with (Some 1%nat) None);
              CallRun (finish_with (Some 2%nat) None); Aborting A68] |}.

(** The first run enters its loop; the second is rejected; the first
    runs to its end; then the third [Run] is called. *)
Definition three_runs_schedule : list (Event Empty_set) :=
  [Go 0] ++ repeat (Go 4) 4 ++ [Go 1] ++ repeat (Go 5) 3
    ++ repeat (Go 4) 6 ++ [Go 2].

(** The plan of the tests: a mock remote, a local file, three seconds. *)
Definition hello : bytes := list_byte_of_string "Hello world".

Definition test_plan : BasicPlan :=
  {| Remote := "mock://tmp-file.txt"; Local := "to_fetch.txt";
     UpdateEvery := 3000000000 |}.

Definition serving (remote : string) (data : bytes) (ending : option error)
  : Transport :=
  fun p => if String.eqb p remote then inr (data, ending)
           else inl (ErrOther "no such remote").

Definition no_files : FileSystem := fun _ => Absent.

(** Two calls of [Start] on a fresh manager. *)
Definition two_starts : Sys (Shared BasicPlan) Thread :=
  boot test_plan (world_at 1000 no_files (serving "mock://tmp-file.txt" hello None))
    [TStart S42; TStart S42].

(** One [Fetch] while the transport refuses to open the remote. *)
Definition fetch_remote_down : Sys (Shared BasicPlan) Thread :=
  boot test_plan (world_at 1000 no_files no_transport) [TFetch F75].

(** Two concurrent calls of [Open] on a manager whose local file is
    absent. *)
Definition two_opens : Sys (Shared BasicPlan) Thread :=
  boot test_plan (world_at 1000 no_files (serving "mock://tmp-file.txt" hello None))
    [TOpen O63; TOpen O63].

(** Both callers take the read lock and find the cache due; both run
    lockedFetch up to its select. *)
Definition two_opens_enter : list (Event EnvEvent) :=
  [Go 0; Go 0; Go 1; Go 1] ++ repeat (Go 0) 4 ++ repeat (Go 1) 4.

(** The first run enters its loop, the second is rejected and its caller
    returns; the first run copies and its caller returns. *)
Definition two_opens_finish : list (Event EnvEvent) :=
  repeat (Go 2) 4 ++ repeat (Go 3) 3 ++ repeat (Go 1) 4
    ++ repeat (Go 2) 4 ++ repeat (Go 0) 5.

(** One [Fetch] of a two-byte remote over a longer local file. *)
Definition shrink_plan : BasicPlan :=
  {| Remote := "mock://short.txt"; Local := "cache.txt"; UpdateEvery := 1000 |}.

Definition fetch_shorter : Sys (Shared BasicPlan) Thread :=
  boot shrink_plan
    (world_at 5000 (one_file "cache.txt" (list_byte_of_string "Hello world!!") 100)
       (serving "mock://short.txt" (list_byte_of_string "Hi") None))
    [TFetch F75].

Definition fetch_shorter_schedule : list (Event EnvEvent) :=
  repeat (Go 0) 5 ++ repeat (Go 1) 8 ++ repeat (Go 0) 5.

(** A manager whose local file was written at instant 100, started at
    instant 200 with an interval of 1000; the file is then removed,
    [Fetch] is called, and the refresh is aborted before its first
    block. *)
Definition retry_plan : BasicPlan :=
  {| Remote := "mock://tmp-file.txt"; Local := "cache.txt"; UpdateEvery := 1000 |}.

Definition removed_then_aborted : Sys (Shared BasicPlan) Thread :=
  boot retry_plan
    (world_at 200 (one_file "cache.txt" (list_byte_of_string "old") 100)
       (serving "mock://tmp-file.txt" hello None))
    [TFetch F75; TAbort A68].

Definition removed_then_aborted_schedule : list (Event EnvEvent) :=
  repeat (Go 0) 5 ++ repeat (Go 2) 4 ++ repeat (Go 1) 4
    ++ repeat (Go 2) 3 ++ repeat (Go 0) 4.

(** A caller of [Fetch], a caller of [Abort] and a caller of [Open].
    Fetch runs up to its select and its goroutine (number 3) enters the
    loop and copies [k] blocks; Abort runs; the goroutine sees the request
    at its next check; Fetch returns; then Open runs. *)
Definition fetch_abort_open : list Thread := [TFetch F75; TAbort A68; TOpen O63].

Definition aborted_fetch_schedule (k : nat) : list (Event EnvEvent) :=
  repeat (Go 0) 4 ++ [Go 0] ++ repeat (Go 3) 4 ++ repeat (Go 3) (2 * k)
    ++ repeat (Go 1) 4 ++ repeat (Go 3) 3 ++ repeat (Go 0) 4
    ++ repeat (Go 2) 4.

(** A remote of one block of "N" and one byte more, over a local file of
    one block of "o" and three bytes more, written at instant 100; the
    manager is started at instant 200 with an interval of 1000, so the
    cache is not due. *)
Definition big_block : bytes := repeat "N"%byte (N.to_nat copyBlockSize).
Definition big_remote : bytes := big_block ++ ["!"%byte].
Definition old_block : bytes := repeat "o"%byte (N.to_nat copyBlockSize).
Definition old_cache : bytes := old_block ++ list_byte_of_string "old".

Definition big_abort : Sys (Shared BasicPlan) Thread :=
  boot retry_plan
    (world_at 200 (one_file "cache.txt" old_cache 100)
       (serving "mock://tmp-file.txt" big_remote None))
    fetch_abort_open.

(** A Fetch at its select, after its run has delivered Aborted. *)
Definition after_abort : Shared BasicPlan :=
  {| mgr := {| plan := retry_plan; lastFetchedAt := 100;
               nextFetch := {| deadline := 1100; taken := false |};
               mu := {| writer := true; readers := 0 |};
               quit := Some ChanOpen |};
     ast := {| ab := {| a_mu := false; a_quit := None |};
               world := {| clock := 2000;
                           fs := one_file "cache.txt" old_cache 100;
                           transport := serving "mock://tmp-file.txt" hello None;
                           files := [{| f_path := "cache.txt"; f_offset := 0%N;
                                        f_closed := false |}];
                           remotes := [{| r_rest := hello; r_ending := None;
                                          r_closed := false |}];
                           opened := 1 |};
               chans := [{| result := None; errs := Some ErrAborted |}] |} |}.

(** One caller of [Fetch]: it runs up to its select, its goroutine
    (number 1) copies [k] whole blocks and the last, shorter one, and
    Fetch returns. *)
Definition fetch_schedule (k : nat) : list (Event EnvEvent) :=
  repeat (Go 0) 4 ++ [Go 0] ++ repeat (Go 1) 4 ++ repeat (Go 1) (2 * k)
    ++ repeat (Go 1) 4 ++ repeat (Go 0) 5.

(** A run at its deferred statement, its result delivered. *)
Definition ending_run : RunThread nat nat :=
  {| pc := L39d; tick := finish_with (Some 7%nat) None; ch := 0 |}.

(** The plan of the test "Does nothing if the paths are the same". *)
Definition same_plan : BasicPlan :=
  {| Remote := "test/tmp/same.txt"; Local := "test/tmp/same.txt"; UpdateEvery := 0 |}.

Definition same_path : Shared BasicPlan :=
  shared (boot same_plan (world_at 1000 no_files no_transport) []).

(** A local path that cannot be opened. *)
Definition no_access : FileSystem := fun _ => Denied "permission denied".

Definition unreadable : Shared BasicPlan :=
  shared (boot test_plan (world_at 1000 no_access no_transport) []).

(** A manager made at instant 200 over a file written at instant 100,
    with an interval of 1000. *)
Definition fresh_cache : World :=
  world_at 200 (one_file "cache.txt" (list_byte_of_string "old") 100)
    (serving "mock://tmp-file.txt" hello None).

(** The first Fetch of the plan of the tests over an absent local file;
    the same with a stream that breaks after its eleven bytes. *)
Definition first_fetch : Sys (Shared BasicPlan) Thread :=
  boot test_plan (world_at 1000 no_files (serving "mock://tmp-file.txt" hello None))
    [TFetch F75].

Definition broken_fetch : Sys (Shared BasicPlan) Thread :=
  boot test_plan
    (world_at 1000 no_files
       (serving "mock://tmp-file.txt" hello (Some (ErrOther "connection reset"))))
    [TFetch F75].

(** A started manager whose timer is ready (the local file is absent and
    more than one interval has passed since the zero time): the remote
    is served; the remote is down. *)
Definition overdue : Sys (Shared BasicPlan) Thread :=
  boot test_plan
    (world_at 5000000000 no_files (serving "mock://tmp-file.txt" hello None))
    [TStart SDone; TLoop Lp48].

Definition overdue_down : Shared BasicPlan :=
  shared (boot test_plan (world_at 5000000000 no_files no_transport) []).
(** * Properties *)

(** ** Bytes *)

Lemma takeN_firstn {A} (n : N) (l : list A) : takeN n l = firstn (N.to_nat n) l.
Proof.
  revert n; induction l as [|x l IH]; intros n; simpl.
  - by rewrite firstn_nil.
  - destruct (N.eqb_spec n 0) as [->|Hn]; [done|].
    replace (N.to_nat n) with (Datatypes.S (N.to_nat (N.pred n))) by lia.
    simpl. by rewrite IH.
Qed.

Lemma dropN_skipn {A} (n : N) (l : list A) : dropN n l = skipn (N.to_nat n) l.
Proof.
  revert n; induction l as [|x l IH]; intros n; simpl.
  - by rewrite skipn_nil.
  - destruct (N.eqb_spec n 0) as [->|Hn]; [done|].
    replace (N.to_nat n) with (Datatypes.S (N.to_nat (N.pred n))) by lia.
    simpl. by rewrite IH.
Qed.

Lemma lenN_app {A} (l k : list A) : lenN (l ++ k) = (lenN l + lenN k)%N.
Proof. unfold lenN. rewrite length_app. lia. Qed.

Lemma takeN_app_exact {A} (n : N) (l k : list A) :
  lenN l = n -> takeN n (l ++ k) = l.
Proof.
  intros <-. rewrite takeN_firstn. unfold lenN. rewrite Nat2N.id.
  by rewrite take_app_length.
Qed.

Lemma dropN_app_exact {A} (n : N) (l k : list A) :
  lenN l = n -> dropN n (l ++ k) = k.
Proof.
  intros <-. rewrite dropN_skipn. unfold lenN. rewrite Nat2N.id.
  by rewrite drop_app_length.
Qed.

Lemma dropN_add {A} (n m : N) (l : list A) :
  dropN (n + m) l = dropN m (dropN n l).
Proof.
  by rewrite !dropN_skipn, N2Nat.inj_add, drop_drop.
Qed.

Lemma takeN_short {A} (n : N) (l : list A) : (lenN l <= n)%N -> takeN n l = l.
Proof.
  intros H. rewrite takeN_firstn. apply firstn_all2. unfold lenN in H. lia.
Qed.

Lemma dropN_short {A} (n : N) (l : list A) : (lenN l <= n)%N -> dropN n l = [].
Proof.
  intros H. rewrite dropN_skipn. apply skipn_all2. unfold lenN in H. lia.
Qed.

(** Appending at the end of what has been written so far: the bytes
    already written stay, the new ones replace what was there. *)
Lemma write_at_append (pre old data : bytes) :
  write_at (pre ++ dropN (lenN pre) old) (lenN pre) data
  = (pre ++ data) ++ dropN (lenN (pre ++ data)) old.
Proof.
  unfold write_at.
  rewrite takeN_app_exact by reflexivity.
  rewrite dropN_add, dropN_app_exact by reflexivity.
  replace (N.to_nat (lenN pre) - length (pre ++ dropN (lenN pre) old))%nat
    with 0%nat by (unfold lenN; rewrite length_app; lia).
  simpl. by rewrite lenN_app, dropN_add, <- app_assoc.
Qed.

(** ** The freshness check *)

Section Freshness.
Context {P : Type} {PlanP : Plan P}.

Lemma needsFetch_spec (m : Manager P) (w : World) :
  needsFetch m w = true <->
  clock w > lastFetchedAt m + UpdateInterval (plan m)
  \/ fs w (LocalPath (plan m)) = Absent.
Proof.
  unfold needsFetch, After, Add, Stat.
  destruct (Z.ltb_spec (lastFetchedAt m + UpdateInterval (plan m)) (clock w)).
  - split; [left; lia | done].
  - destruct (fs w (LocalPath (plan m))); simpl; split; try done;
      try (by right); intros [?|?]; try lia; discriminate.
Qed.

(** C9 (amended): for every interval >= 0, last-fetch time T and current
    time now, needsFetch is true exactly when now > T + interval or the
    local path does not exist, and false otherwise; with an interval of
    zero a refresh is due exactly when now is strictly later than T or
    the local path does not exist. *)
Theorem C9_needsFetch_iff (m : Manager P) (w : World) :
  0 <= UpdateInterval (plan m) ->
  (needsFetch m w = true <->
     clock w > lastFetchedAt m + UpdateInterval (plan m)
     \/ fs w (LocalPath (plan m)) = Absent)
  /\ (needsFetch m w = false <->
     ~ (clock w > lastFetchedAt m + UpdateInterval (plan m)
        \/ fs w (LocalPath (plan m)) = Absent))
  /\ (UpdateInterval (plan m) = 0 ->
      (needsFetch m w = true <->
         clock w > lastFetchedAt m \/ fs w (LocalPath (plan m)) = Absent)).
Proof.
  intros _. pose proof (needsFetch_spec m w) as H. split; [done|]. split.
  - rewrite <- H. destruct (needsFetch m w); split; try done.
  - intros E. rewrite E, Z.add_0_r in H. done.
Qed.
End Freshness.

Lemma C9_needsFetch_iff_witness :
  0 <= UpdateInterval (plan zero_manager)
  /\ needsFetch zero_manager
       (world_at 6 (one_file "cache.txt" [] 5) no_transport) = true.
Proof.
  split; [simpl; lia|].
  refine (proj2 (proj1 (C9_needsFetch_iff zero_manager
           (world_at 6 (one_file "cache.txt" [] 5) no_transport) _)) _).
  - simpl; lia.
  - left; simpl; lia.
Defined.

(** C9 as stated, at a zero interval: the refresh is not due when the
    clock reads the instant of the last fetch and the file is there. *)
Lemma C9_zero_interval_not_always_due :
  UpdateInterval (plan zero_manager) = 0
  /\ needsFetch zero_manager
       (world_at 5 (one_file "cache.txt" [] 5) no_transport) = false.
Proof. split; reflexivity. Qed.

(** ** The abortable *)

Section AbortableProps.
Context {W V : Type}.
Implicit Types (s : AState W V) (t : RunThread W V) (tk : TickFn W V).

(** C10: when an invocation of the step function returns a non-nil result
    together with a non-nil error, the run is a success: the result is
    delivered on the result channel, nothing is sent on the error channel
    (the error is dropped), and the goroutine returns after clearing the
    cancellation channel. *)
Theorem C10_result_wins_over_error s t (w : W) (v : V) (e : error)
    (c0 : RunChans V) :
  pc t = L49 ->
  tick t (world s) = (w, (Some v, Some e)) ->
  chans s !! ch t = Some c0 ->
  exists s',
    Run_steps 3 s t = Some (s', at_pc LEnd t)
    /\ chans s' !! ch t = Some {| result := Some v; errs := errs c0 |}
    /\ (forall c, c <> ch t -> chans s' !! c = chans s !! c)
    /\ world s' = w
    /\ a_mu (ab s') = a_mu (ab s)
    /\ a_quit (ab s') = None.
Proof.
  intros Hpc Htk Hc. destruct s as [[m q] w0 cs], t as [p tk c].
  simpl in *; subst. eexists. split.
  - unfold Run_step at 1. simpl. rewrite Htk. reflexivity.
  - simpl. rewrite list_lookup_alter_eq, Hc. repeat split.
    intros c' Hne. by rewrite list_lookup_alter_ne.
Qed.

(** The same from the call of [Run] on a free abortable, when the first
    invocation returns both. *)
Lemma Run_result_wins_over_error s tk (w : W) (v : V) (e : error) :
  a_mu (ab s) = false ->
  a_quit (ab s) = None ->
  tk (world s) = (w, (Some v, Some e)) ->
  exists s' t',
    Run_steps 8 (Run s tk).1.1 (Run s tk).2 = Some (s', t')
    /\ pc t' = LEnd
    /\ chans s' !! (Run s tk).1.2 = Some {| result := Some v; errs := None |}
    /\ world s' = w
    /\ ab s' = ab s.
Proof.
  intros Hmu Hq Htk. destruct s as [[m q] w0 cs]; simpl in *; subst.
  eexists _, _. split.
  - simpl. unfold Run_step at 1. simpl. rewrite Htk. simpl. reflexivity.
  - simpl. repeat split.
    rewrite list_lookup_alter_eq, lookup_app_r, Nat.sub_diag by lia. done.
Qed.

(** Once [a.mu] is held and no goroutine is between its Lock and its
    Unlock, no schedule ever frees it: the goroutines waiting at a Lock
    stay there and nothing is delivered on the channels of their runs. *)
Lemma parked_step (sys : Sys (AState W V) (AThread W V)) ev sys' :
  a_mu (ab (shared sys)) = true ->
  forallb parked (pool sys) = true ->
  step athread_step no_env sys ev = Some sys' ->
  a_mu (ab (shared sys')) = true
  /\ forallb parked (pool sys') = true
  /\ ab (shared sys') = ab (shared sys)
  /\ (forall c, (c < length (chans (shared sys)))%nat ->
        chans (shared sys') !! c = chans (shared sys) !! c)
  /\ (forall i th, pool sys !! i = Some th -> (forall tk, th <> CallRun tk) ->
        pool sys' !! i = Some th).
Proof.
  intros Hmu Hp Hstep. destruct sys as [sh threads], ev as [i|[]]; simpl in *.
  destruct (threads !! i) as [t|] eqn:Hi; [|done].
  assert (parked t = true) as Ht.
  { rewrite forallb_forall in Hp. apply Hp. apply list_elem_of_In.
    by eapply list_elem_of_lookup_2. }
  destruct t as [tk|c|r|p]; simpl in *.
  - injection Hstep as <-. simpl. split; [done|]. split; [|split; [done|split]].
    + rewrite forallb_app. simpl. rewrite andb_true_r.
      rewrite forallb_forall in *. intros x Hx.
      apply list_elem_of_In, list_elem_of_lookup in Hx as [j Hj].
      destruct (decide (i = j)) as [->|Hne].
      * apply list_lookup_insert_Some in Hj as [[_ [<- _]]|[? _]]; done.
      * rewrite list_lookup_insert_ne in Hj by done.
        apply Hp, list_elem_of_In. by eapply list_elem_of_lookup_2.
    + intros c Hc. by rewrite lookup_app_l.
    + intros j r Hj Hr. rewrite lookup_app_l by
        (rewrite length_insert; by eapply lookup_lt_Some).
      rewrite list_lookup_insert_ne; [done|]. intros ->.
      rewrite Hi in Hj. injection Hj as <-. by eapply Hr.
  - done.
  - unfold Run_step in Hstep. destruct (pc r); try done.
    by rewrite Hmu in Hstep.
  - destruct p; try done. simpl in Hstep. by rewrite Hmu in Hstep.
Qed.

Lemma leaked_mutex_is_forever (sys : Sys (AState W V) (AThread W V)) sched sys' :
  a_mu (ab (shared sys)) = true ->
  forallb parked (pool sys) = true ->
  aexec sys sched = Some sys' ->
  a_mu (ab (shared sys')) = true
  /\ (forall c, (c < length (chans (shared sys)))%nat ->
        chans (shared sys') !! c = chans (shared sys) !! c)
  /\ (forall i th, pool sys !! i = Some th -> (forall tk, th <> CallRun tk) ->
        pool sys' !! i = Some th).
Proof.
  revert sys. induction sched as [|ev sched IH]; intros sys Hmu Hp Hex.
  - injection Hex as <-. done.
  - unfold aexec in Hex. simpl in Hex.
    destruct (step athread_step no_env sys ev) as [sys1|] eqn:Hs; [|done].
    destruct (parked_step _ _ _ Hmu Hp Hs) as (Hmu1 & Hp1 & _ & Hc1 & Hr1).
    destruct (IH sys1 Hmu1 Hp1 Hex) as (Hmu2 & Hc2 & Hr2).
    split; [done|]. split.
    + intros c Hc. rewrite <- Hc1 by done. apply Hc2.
      apply lookup_lt_is_Some_1. rewrite Hc1 by done.
      by apply lookup_lt_is_Some_2.
    + intros i r Hi Hr. apply Hr2; [by apply Hr1 | done].
Qed.

(** C5 (amended): Abort with no active run returns NotRunning and
    changes nothing.  Abort with an active run that has not been aborted
    yet returns success and closes the cancellation channel, changing
    nothing else; the run delivers Aborted on its error handle, and
    nothing on its result handle, when it next reaches its cancellation
    check, that is at once when it is at the check, and after the step in
    progress when that step returns neither a result nor an error.  A
    step in progress that returns a result or an error ends the run with
    that result or error instead. *)
Theorem C5_abort_semantics s :
  a_mu (ab s) = false ->
  (a_quit (ab s) = None ->
     Abort_steps 3 s A68 = Some (s, AEnd (Some ErrNotRunning)))
  /\ (a_quit (ab s) = Some ChanOpen ->
      let s1 := with_ab (set_quit (Some ChanClosed)) s in
      Abort_steps 4 s A68 = Some (s1, AEnd None)
      /\ forall t,
          chans s !! ch t = Some {| result := None; errs := None |} ->
          (pc t = L44 ->
             exists s',
               Run_steps 3 s1 t = Some (s', at_pc LEnd t)
               /\ chans s' !! ch t
                  = Some {| result := None; errs := Some ErrAborted |}
               /\ a_quit (ab s') = None /\ world s' = world s)
          /\ (forall w, pc t = L49 -> tick t (world s) = (w, (None, None)) ->
             exists s',
               Run_steps 4 s1 t = Some (s', at_pc LEnd t)
               /\ chans s' !! ch t
                  = Some {| result := None; errs := Some ErrAborted |}
               /\ a_quit (ab s') = None /\ world s' = w)
          /\ (forall w v e, pc t = L49 -> tick t (world s) = (w, (Some v, e)) ->
             exists s',
               Run_steps 3 s1 t = Some (s', at_pc LEnd t)
               /\ chans s' !! ch t = Some {| result := Some v; errs := None |}
               /\ a_quit (ab s') = None /\ world s' = w)
          /\ (forall w e, pc t = L49 -> tick t (world s) = (w, (None, Some e)) ->
             exists s',
               Run_steps 3 s1 t = Some (s', at_pc LEnd t)
               /\ chans s' !! ch t = Some {| result := None; errs := Some e |}
               /\ a_quit (ab s') = None /\ world s' = w)).
Proof.
  intros Hmu. destruct s as [[m q] w0 cs]; simpl in *; subst. split.
  - intros ->. reflexivity.
  - intros ->. split; [reflexivity|]. intros [p tk c] Hc. simpl in *.
    split; [|split; [|split]].
    + intros ->. eexists. split; [reflexivity|]. simpl.
      rewrite list_lookup_alter_eq, Hc. done.
    + intros w -> Htk. eexists. split.
      * simpl. unfold Run_step at 1. simpl. rewrite Htk. reflexivity.
      * simpl. rewrite list_lookup_alter_eq, Hc. done.
    + intros w v e -> Htk. eexists. split.
      * simpl. unfold Run_step at 1. simpl. rewrite Htk. reflexivity.
      * simpl. rewrite list_lookup_alter_eq, Hc. done.
    + intros w e -> Htk. eexists. split.
      * simpl. unfold Run_step at 1. simpl. rewrite Htk. reflexivity.
      * simpl. rewrite list_lookup_alter_eq, Hc. done.
Qed.
End AbortableProps.

Lemma C5_abort_semantics_witness :
  a_mu (ab active) = false
  /\ Abort_steps 4 active A68
     = Some (with_ab (set_quit (Some ChanClosed)) active, AEnd None)
  /\ exists s',
       Run_steps 4 (with_ab (set_quit (Some ChanClosed)) active)
         {| pc := L49; tick := count_to 5 9; ch := 0 |}
       = Some (s', {| pc := LEnd; tick := count_to 5 9; ch := 0 |})
       /\ chans s' !! 0%nat = Some {| result := None; errs := Some ErrAborted |}
       /\ a_quit (ab s') = None /\ world s' = 1%nat.
Proof.
  split; [reflexivity|].
  destruct (proj2 (C5_abort_semantics active eq_refl) eq_refl) as [Ha Hr].
  split; [exact Ha|].
  exact (proj1 (proj2 (Hr {| pc := L49; tick := count_to 5 9; ch := 0 |} eq_refl))
           1%nat eq_refl eq_refl).
Defined.

(** C5 as stated: Abort is called while the run is active, inside its
    last step; Abort returns success, the run delivers its result and
    never delivers Aborted. *)
Lemma C5_abort_during_last_step_delivers_result :
  exists sys,
    aexec abort_late abort_late_schedule = Some sys
    /\ pool sys = [Returned 0; Aborting (AEnd None);
                   Running {| pc := LEnd; tick := finish_with (Some 7%nat) None;
                              ch := 0 |}]
    /\ chans (shared sys) = [{| result := Some 7%nat; errs := None |}].
Proof. eexists. split; [vm_compute; reflexivity|]. split; reflexivity. Qed.

(** C4, at the failing input: a second Run is rejected with
    AlreadyRunning while the first is active; its goroutine returns
    without unlocking [a.mu].  After the first run has completed, with no
    run active, the third Run never gets past its Lock and never delivers
    anything, and Abort never returns, whatever the schedule. *)
Theorem C4_rejected_run_keeps_the_mutex :
  exists sys,
    aexec three_runs three_runs_schedule = Some sys
    /\ ab (shared sys) = {| a_mu := true; a_quit := None |}
    /\ chans (shared sys)
       = [{| result := Some 9%nat; errs := None |};
          {| result := None; errs := Some ErrAlreadyRunning |};
          {| result := None; errs := None |}]
    /\ pool sys
       = [Returned 0; Returned 1; Returned 2; Aborting A68;
          Running {| pc := LEnd; tick := count_to 2 9; ch := 0 |};
          Running {| pc := LEnd; tick := finish_with (Some 1%nat) None; ch := 1 |};
          Running {| pc := L33; tick := finish_with (Some 2%nat) None; ch := 2 |}]
    /\ forall sched sys',
         aexec sys sched = Some sys' ->
         a_mu (ab (shared sys')) = true
         /\ chans (shared sys') !! 2%nat = Some {| result := None; errs := None |}
         /\ pool sys' !! 6%nat
            = Some (Running {| pc := L33; tick := finish_with (Some 2%nat) None;
                               ch := 2 |})
         /\ pool sys' !! 3%nat = Some (Aborting A68).
Proof.
  eexists. split; [vm_compute; reflexivity|]. do 3 (split; [reflexivity|]).
  intros sched sys' Hex.
  apply leaked_mutex_is_forever in Hex as (Hmu & Hc & Hp); [|reflexivity..].
  split; [done|]. split; [|split].
  - rewrite Hc; [done | simpl; lia].
  - by apply Hp.
  - by apply Hp.
Qed.

Lemma C10_result_wins_over_error_witness :
  exists s',
    Run_steps 3 active
      {| pc := L49; tick := finish_with (Some 7%nat) (Some (ErrOther "late"));
         ch := 0 |}
    = Some (s', {| pc := LEnd;
                   tick := finish_with (Some 7%nat) (Some (ErrOther "late"));
                   ch := 0 |})
    /\ chans s' !! 0%nat = Some {| result := Some 7%nat; errs := None |}
    /\ (forall c, c <> 0%nat -> chans s' !! c = chans active !! c)
    /\ world s' = 1%nat
    /\ a_mu (ab s') = false
    /\ a_quit (ab s') = None.
Proof.
  exact (C10_result_wins_over_error active
           {| pc := L49; tick := finish_with (Some 7%nat) (Some (ErrOther "late"));
              ch := 0 |}
           1%nat 7%nat (ErrOther "late") {| result := None; errs := None |}
           eq_refl eq_refl eq_refl).
Defined.

(** ** Schedules *)

Section PoolProps.
Context {S T E : Type}.
Variable tstep : S -> T -> option (S * T * list T).
Variable estep : S -> E -> option S.

Lemma exec_app (s : Sys S T) (a b : list (Event E)) :
  exec tstep estep s (a ++ b)
  = match exec tstep estep s a with
    | Some s' => exec tstep estep s' b
    | None => None
    end.
Proof.
  revert s; induction a as [|ev a IH]; intros s; simpl; [done|].
  destruct (step tstep estep s ev); [apply IH | done].
Qed.

Lemma exec_cons (s : Sys S T) (ev : Event E) (rest : list (Event E)) :
  exec tstep estep s (ev :: rest)
  = match step tstep estep s ev with
    | Some s' => exec tstep estep s' rest
    | None => None
    end.
Proof. done. Qed.

Lemma step_go (s : Sys S T) (i : nat) (t : T) sh t' new :
  pool s !! i = Some t ->
  tstep (shared s) t = Some (sh, t', new) ->
  step tstep estep s (Go i)
  = Some {| shared := sh; pool := <[i:=t']> (pool s) ++ new |}.
Proof. intros Hi Ht. simpl. by rewrite Hi, Ht. Qed.

(** A goroutine that moves alone for [n] steps without spawning. *)
Lemma exec_solo (n : nat) (sh : S) (l : list T) (i : nat) (t : T) sh' t' :
  l !! i = Some t ->
  solo tstep n sh t = Some (sh', t') ->
  exec tstep estep {| shared := sh; pool := l |} (repeat (Go i) n)
  = Some {| shared := sh'; pool := <[i:=t']> l |}.
Proof.
  revert sh l t. induction n as [|n IH]; intros sh l t Hi Hs; simpl in *.
  - injection Hs as <- <-. by rewrite list_insert_id.
  - rewrite Hi. destruct (tstep sh t) as [[[sh1 t1] [|? ?]]|]; try done.
    rewrite app_nil_r.
    erewrite IH; [|by apply list_lookup_insert_eq, (lookup_lt_Some _ _ _ Hi)|done].
    by rewrite list_insert_insert_eq.
Qed.
End PoolProps.

(** ** The manager *)

Section ManagerProps.
Context {P : Type} {PlanP : Plan P}.
Implicit Types (s : Shared P) (sys : Sys (Shared P) Thread).

Lemma running_loops_app (l k : list Thread) :
  running_loops (l ++ k) = (running_loops l + running_loops k)%nat.
Proof.
  induction l as [|t l IH]; simpl; [done|].
  destruct t as [| | | |[]|]; simpl; by rewrite ?IH.
Qed.

Lemma running_loops_insert (l : list Thread) (i : nat) (p q : StartPc) :
  l !! i = Some (TStart p) ->
  running_loops (<[i:=TStart q]> l) = running_loops l.
Proof.
  revert i; induction l as [|t l IH]; intros [|i] Hi; simpl in *; try done.
  - by injection Hi as ->.
  - destruct t as [| | | |[]|]; simpl; by rewrite ?(IH i Hi).
Qed.

(** C3 (amended): every call of Start launches one new background loop,
    whether or not a loop is already running; before that it installs a
    stop signal only if none is installed.  So the number of running
    loops grows by one with each call. *)
Theorem C3_Start_always_launches_a_loop sys (i : nat) :
  pool sys !! i = Some (TStart S42) ->
  exists sys',
    mexec sys [Go i; Go i] = Some sys'
    /\ pool sys' = <[i:=TStart SDone]> (pool sys) ++ [TLoop Lp48]
    /\ running_loops (pool sys') = Datatypes.S (running_loops (pool sys))
    /\ quit (mgr (shared sys'))
       = match quit (mgr (shared sys)) with
         | None => Some ChanOpen
         | Some c => Some c
         end
    /\ ast (shared sys') = ast (shared sys).
Proof.
  intros Hi. destruct sys as [sh l]; cbn [pool shared] in *.
  pose proof (lookup_lt_Some _ _ _ Hi) as Hlt.
  set (sh1 := match quit (mgr sh) with
              | None => with_mgr (set_mquit (Some ChanOpen)) sh
              | Some _ => sh
              end).
  assert (thread_step sh (TStart S42) = Some (sh1, TStart S46, [])) as H1.
  { unfold sh1; simpl; by destruct (quit (mgr sh)). }
  exists {| shared := sh1; pool := <[i:=TStart SDone]> l ++ [TLoop Lp48] |}.
  split.
  - unfold mexec. rewrite exec_cons.
    rewrite (step_go _ _ {| shared := sh; pool := l |} _ _ _ _ _ Hi H1).
    rewrite exec_cons.
    erewrite (step_go _ _ _ i (TStart S46));
      [|rewrite app_nil_r; by apply list_lookup_insert_eq|reflexivity].
    simpl. by rewrite app_nil_r, list_insert_insert_eq.
  - simpl. split; [done|]. split.
    + rewrite running_loops_app, (running_loops_insert _ _ _ _ Hi). simpl. lia.
    + clear H1. subst sh1. destruct (quit (mgr sh)) eqn:Hq; by split.
Qed.
End ManagerProps.

Lemma C3_Start_always_launches_a_loop_witness :
  exists sys',
    mexec two_starts [Go 0; Go 0] = Some sys'
    /\ pool sys' = [TStart SDone; TStart S42; TLoop Lp48]
    /\ running_loops (pool sys') = 1%nat
    /\ quit (mgr (shared sys')) = Some ChanOpen
    /\ ast (shared sys') = ast (shared two_starts).
Proof. apply (C3_Start_always_launches_a_loop two_starts 0). reflexivity. Defined.

(** C3 as stated: Start is called twice on the same manager; two
    background loops are waiting on the same stop signal and timer. *)
Lemma C3_two_starts_two_loops :
  exists sys,
    mexec two_starts [Go 0; Go 0; Go 1; Go 1] = Some sys
    /\ pool sys = [TStart SDone; TStart SDone; TLoop Lp48; TLoop Lp48]
    /\ running_loops (pool sys) = 2%nat.
Proof. eexists. split; [vm_compute; reflexivity|]. split; reflexivity. Qed.

(** C7, at the failing input: the transport refuses to open the remote.
    Fetch returns the transport error and no file, and the local file it
    opened (and created) at line 91 is still open: nothing has closed it. *)
Theorem C7_remote_open_failure_leaks_local_file :
  exists sys,
    mexec fetch_remote_down (repeat (Go 0) 5) = Some sys
    /\ pool sys = [TFetch (FDone (None, Some (ErrOther "no such remote")))]
    /\ files (world (ast (shared sys)))
       = [{| f_path := "to_fetch.txt"; f_offset := 0; f_closed := false |}]
    /\ opened (world (ast (shared sys))) = 1%nat.
Proof. eexists. split; [vm_compute; reflexivity|]. repeat split. Qed.

(** C1, at the failing input: two callers of Open find the cache due.
    Both are inside lockedFetch at the same instant, each with its own
    local file, remote stream and copy goroutine, while the manager's lock
    is held by two readers and by no writer.  The abortable then rejects
    one of the two runs, and that caller of Open fails with
    AlreadyRunning. *)
Theorem C1_two_opens_fetch_under_the_read_lock :
  exists sys sys',
    mexec two_opens two_opens_enter = Some sys
    /\ pool sys = [TOpen (O67 (LF114 0 0 0)); TOpen (O67 (LF114 1 1 1));
                   TRun {| pc := L33; tick := copyTick 0 0; ch := 0 |};
                   TRun {| pc := L33; tick := copyTick 1 1; ch := 1 |}]
    /\ mu (mgr (shared sys)) = {| writer := false; readers := 2 |}
    /\ opened (world (ast (shared sys))) = 2%nat
    /\ mexec sys two_opens_finish = Some sys'
    /\ pool sys' = [TOpen (ODone (Some 0%nat, None));
                    TOpen (ODone (None, Some ErrAlreadyRunning));
                    TRun {| pc := LEnd; tick := copyTick 0 0; ch := 0 |};
                    TRun {| pc := LEnd; tick := copyTick 1 1; ch := 1 |}].
Proof.
  eexists _, _. split; [vm_compute; reflexivity|]. do 3 (split; [reflexivity|]).
  split; [vm_compute; reflexivity|]. reflexivity.
Qed.

(** C6, at the failing input: the local file holds 13 bytes, the remote
    stream 2.  Fetch returns the file without error, at offset 0, and the
    local file is the 2 new bytes followed by the last 11 old ones. *)
Theorem C6_fetch_keeps_the_old_tail :
  exists sys,
    mexec fetch_shorter fetch_shorter_schedule = Some sys
    /\ pool sys !! 0%nat = Some (TFetch (FDone (Some 0%nat, None)))
    /\ files (world (ast (shared sys)))
       = [{| f_path := "cache.txt"; f_offset := 0; f_closed := false |}]
    /\ fs (world (ast (shared sys))) "cache.txt"
       = Regular (list_byte_of_string "Hillo world!!") 5000
    /\ lastFetchedAt (mgr (shared sys)) = 5000.
Proof. eexists. split; [vm_compute; reflexivity|]. repeat split. Qed.

(** ** The copy loop *)

Lemma dropN_0 {A} (l : list A) : dropN 0 l = l.
Proof. by destruct l. Qed.

Lemma block_nonempty (b : bytes) : lenN b = copyBlockSize -> b <> [].
Proof. intros H ->. discriminate H. Qed.

(** What the copy loop has done when [pre] has been written through the
    file [h] on [p] and [rest] is still to be read from the stream [r]:
    the file starts with [pre] and goes on with what [old] had beyond. *)
Record copying (w0 w : World) (h r : nat) (p : string) (old : bytes)
    (ending : option error) (pre rest : bytes) : Prop := {
  cp_file : files w !! h
            = Some {| f_path := p; f_offset := lenN pre; f_closed := false |};
  cp_remote : remotes w !! r
              = Some {| r_rest := rest; r_ending := ending; r_closed := false |};
  cp_fs : exists mt, fs w p = Regular (pre ++ dropN (lenN pre) old) mt;
  cp_clock : clock w = clock w0;
  cp_files : length (files w) = length (files w0)
}.

(** One call of the step function while a whole block is left. *)
Lemma copyTick_block w0 w h r p old ending pre b rest :
  copying w0 w h r p old ending pre (b ++ rest) ->
  lenN b = copyBlockSize ->
  exists w',
    copyTick h r w = (w', (None, None))
    /\ copying w0 w' h r p old ending (pre ++ b) rest.
Proof.
  intros [Hf Hr [mt Hfs] Hc Hl] Hb.
  pose proof (block_nonempty b Hb) as Hne.
  unfold copyTick, CopyN. rewrite Hf, Hr. cbn [f_closed r_rest r_ending r_closed].
  rewrite (takeN_app_exact _ b rest Hb), (dropN_app_exact _ b rest Hb).
  rewrite Hb, N.eqb_refl.
  eexists. split; [reflexivity|].
  unfold write_file. cbn [f_path f_offset f_closed]. rewrite Hfs.
  destruct b as [|x b]; [done|].
  split; cbn [files remotes fs clock with_files with_fs with_remotes].
  - rewrite list_lookup_insert_eq by (by eapply lookup_lt_Some).
    by rewrite lenN_app.
  - rewrite list_lookup_insert_eq; [done|].
    rewrite length_insert || idtac. by eapply lookup_lt_Some.
  - eexists. unfold fs_set. rewrite String.eqb_refl.
    by rewrite write_at_append.
  - done.
  - by rewrite length_insert.
Qed.

(** The last call of the step function: what is left is shorter than a
    block and the stream ends without error. *)
Lemma copyTick_last w0 w h r p old pre last :
  copying w0 w h r p old None pre last ->
  (lenN last < copyBlockSize)%N ->
  exists w',
    copyTick h r w = (w', (Some h, None))
    /\ copying w0 w' h r p old None (pre ++ last) [].
Proof.
  intros [Hf Hr [mt Hfs] Hc Hl] Hlast.
  unfold copyTick, CopyN. rewrite Hf, Hr. cbn [f_closed r_rest r_ending r_closed].
  rewrite (takeN_short _ last), (dropN_short _ last) by lia.
  destruct (N.eqb_spec (lenN last) copyBlockSize) as [E|_]; [lia|].
  cbn [error_eqb]. eexists. split; [reflexivity|].
  unfold write_file. cbn [f_path f_offset f_closed]. rewrite Hfs.
  destruct last as [|x last].
  - rewrite app_nil_r.
    split; cbn [files remotes fs clock with_files with_fs with_remotes]; try done.
    + rewrite list_lookup_insert_eq; [done|]. by eapply lookup_lt_Some.
    + by exists mt.
  - split; cbn [files remotes fs clock with_files with_fs with_remotes].
    + rewrite list_lookup_insert_eq by (by eapply lookup_lt_Some).
      by rewrite lenN_app.
    + rewrite list_lookup_insert_eq; [done|]. by eapply lookup_lt_Some.
    + eexists. unfold fs_set. rewrite String.eqb_refl.
      by rewrite write_at_append.
    + done.
    + by rewrite length_insert.
Qed.

Section CopyLoop.
Implicit Types (s : AState World nat).

Lemma Run_steps_add (n m : nat) s (t : RunThread World nat) :
  Run_steps (n + m) s t
  = match Run_steps n s t with
    | Some (s', t') => Run_steps m s' t'
    | None => None
    end.
Proof.
  revert s t; induction n as [|n IH]; intros s t; simpl; [done|].
  destruct (Run_step s t) as [[s' t']|]; [apply IH | done].
Qed.

(** The loop of lines 43-58 over whole blocks, while no abort has been
    requested: two steps a block (the select, the step function). *)
Lemma copy_blocks w0 h r c p old ending (blks : list bytes) :
  Forall (fun b => lenN b = copyBlockSize) blks ->
  forall s pre rest,
    copying w0 (world s) h r p old ending pre (concat blks ++ rest) ->
    a_quit (ab s) <> Some ChanClosed ->
    exists w',
      Run_steps (2 * length blks) s {| pc := L44; tick := copyTick h r; ch := c |}
      = Some (with_world w' s, {| pc := L44; tick := copyTick h r; ch := c |})
      /\ copying w0 w' h r p old ending (pre ++ concat blks) rest.
Proof.
  induction 1 as [|b blks Hb _ IH]; intros s pre rest Hcp Hq.
  - exists (world s). simpl. rewrite app_nil_r. split; [by destruct s | done].
  - simpl concat in Hcp. rewrite <- app_assoc in Hcp.
    destruct (copyTick_block _ _ _ _ _ _ _ _ _ _ Hcp Hb) as (w1 & Htk & Hcp1).
    destruct (IH (with_world w1 s) (pre ++ b) rest Hcp1 Hq) as (w2 & Hrun & Hcp2).
    exists w2. split.
    + assert ((2 * length (b :: blks))%nat = (2 + 2 * length blks)%nat) as ->
        by (simpl; lia).
      rewrite Run_steps_add.
      assert (Run_steps 2 s {| pc := L44; tick := copyTick h r; ch := c |}
              = Some (with_world w1 s,
                      {| pc := L44; tick := copyTick h r; ch := c |})) as ->.
      { simpl. unfold Run_step at 1. cbn [pc].
        destruct (a_quit (ab s)) as [[]|] eqn:E; try done;
          unfold Run_step; cbn [pc at_pc tick world]; by rewrite Htk. }
      exact Hrun.
    + simpl concat. by rewrite app_assoc.
Qed.
End CopyLoop.

(** ** An aborted refresh *)

Section AbortedFetch.
Context {P : Type} {PlanP : Plan P}.
Implicit Types (s : Shared P).

Lemma solo_run (n : nat) s (t t' : RunThread World nat) a' :
  Run_steps n (ast s) t = Some (a', t') ->
  solo thread_step n s (TRun t) = Some (with_ast a' s, TRun t').
Proof.
  revert s t. induction n as [|n IH]; intros s t H; simpl in *.
  - injection H as <- <-. by destruct s.
  - destruct (Run_step (ast s) t) as [[a1 t1]|]; [|done].
    rewrite (IH (with_ast a1 s) t1 H). done.
Qed.

Lemma solo_abort (n : nat) s (p p' : AbortPc) a' :
  Abort_steps n (ast s) p = Some (a', p') ->
  solo thread_step n s (TAbort p) = Some (with_ast a' s, TAbort p').
Proof.
  revert s p. induction n as [|n IH]; intros s p H; simpl in *.
  - injection H as <- <-. by destruct s.
  - destruct (Abort_step (ast s) p) as [[a1 p1]|]; [|done].
    rewrite (IH (with_ast a1 s) p1 H). done.
Qed.

Lemma fetch_enters s old mt data ending :
  mu (mgr s) = {| writer := false; readers := 0 |} ->
  String.eqb (LocalPath (plan (mgr s))) (RemotePath (plan (mgr s))) = false ->
  fs (world (ast s)) (LocalPath (plan (mgr s))) = Regular old mt ->
  transport (world (ast s)) (RemotePath (plan (mgr s))) = inr (data, ending) ->
  solo thread_step 4 s (TFetch F75)
  = Some (entered s data ending,
          TFetch (F77 (LF104 (length (files (world (ast s))))
                             (length (remotes (world (ast s))))))).
Proof.
  intros Hmu Hne Hfs Htr. cbn [solo].
  assert (thread_step s (TFetch F75)
          = Some (with_mgr (set_rw {| writer := true; readers := 0 |}) s,
                  TFetch (F77 LF91), [])) as ->.
  { cbn [thread_step Fetch_step]. unfold lock. by rewrite Hmu. }
  set (s1 := with_mgr _ s).
  assert (thread_step s1 (TFetch (F77 LF91))
          = Some (on_world (fun w => (add_file w (LocalPath (plan (mgr s)))).1) s1,
                  TFetch (F77 (LF95 (length (files (world (ast s)))))), [])) as ->.
  { cbn [thread_step Fetch_step lockedFetch_step]. unfold OpenFile. simpl. by rewrite Hfs. }
  set (s2 := on_world _ s1).
  assert (thread_step s2 (TFetch (F77 (LF95 (length (files (world (ast s)))))))
          = Some (s2, TFetch (F77 (LF96 (length (files (world (ast s)))))), [])) as ->.
  { cbn [thread_step Fetch_step lockedFetch_step]. simpl. by rewrite Hne. }
  assert (thread_step s2 (TFetch (F77 (LF96 (length (files (world (ast s)))))))
          = Some (entered s data ending,
                  TFetch (F77 (LF104 (length (files (world (ast s))))
                                     (length (remotes (world (ast s)))))), [])) as ->.
  { cbn [thread_step Fetch_step lockedFetch_step]. unfold cloudfile_Open. simpl. by rewrite Htr. }
  done.
Qed.

Lemma run_enters (a : AState World nat) (t : RunThread World nat) :
  a_mu (ab a) = false -> a_quit (ab a) = None -> pc t = L33 ->
  Run_steps 4 a t
  = Some (with_ab (fun _ => {| a_mu := false; a_quit := Some ChanOpen |}) a,
          at_pc L44 t).
Proof.
  intros Hmu Hq Hpc. destruct a as [[m q] w cs], t as [p tk c].
  simpl in *; subst. reflexivity.
Qed.

Lemma abort_closes (a : AState World nat) :
  a_mu (ab a) = false -> a_quit (ab a) = Some ChanOpen ->
  Abort_steps 4 a A68
  = Some (with_ab (fun _ => {| a_mu := false; a_quit := Some ChanClosed |}) a,
          AEnd None).
Proof.
  intros Hmu Hq. destruct a as [[m q] w cs]. simpl in *; subst. reflexivity.
Qed.

Lemma run_aborted (a : AState World nat) (t : RunThread World nat) :
  a_quit (ab a) = Some ChanClosed -> pc t = L44 ->
  Run_steps 3 a t
  = Some (with_ab (set_quit None) (send_errs (ch t) ErrAborted a), at_pc LEnd t).
Proof.
  intros Hq Hpc. destruct a as [[m q] w cs], t as [p tk c].
  simpl in *; subst. reflexivity.
Qed.

(** The return path of a Fetch whose run has delivered the error [e]. *)
Lemma fetch_fails s (file remoteFile c : nat) (e : error) :
  chans (ast s) !! c = Some {| result := None; errs := Some e |} ->
  solo thread_step 4 s (TFetch (F77 (LF114 file remoteFile c)))
  = Some (with_mgr (fun m => set_rw (unlock (mu m)) m)
            (on_world (fun w => CloseRemote w remoteFile)
               (on_world (fun w => Seek0 w file) s)),
          TFetch (FDone (None, Some e))).
Proof.
  intros Hc. cbn [solo].
  assert (thread_step s (TFetch (F77 (LF114 file remoteFile c)))
          = Some (s, TFetch (F77 (LF102d file remoteFile (None, Some e))), [])) as ->.
  { cbn [thread_step Fetch_step lockedFetch_step]. by rewrite Hc. }
  reflexivity.
Qed.

Lemma open_fails s (file remoteFile c : nat) (e : error) :
  chans (ast s) !! c = Some {| result := None; errs := Some e |} ->
  solo thread_step 4 s (TOpen (O67 (LF114 file remoteFile c)))
  = Some (with_mgr (fun m => set_rw (runlock (mu m)) m)
            (on_world (fun w => CloseRemote w remoteFile)
               (on_world (fun w => Seek0 w file) s)),
          TOpen (ODone (None, Some e))).
Proof.
  intros Hc. cbn [solo].
  assert (thread_step s (TOpen (O67 (LF114 file remoteFile c)))
          = Some (s, TOpen (O67 (LF102d file remoteFile (None, Some e))), [])) as ->.
  { cbn [thread_step Open_step lockedFetch_step]. by rewrite Hc. }
  reflexivity.
Qed.

(** An Open that finds the cache not due and the local file present. *)
Lemma open_reads s (data : bytes) (mt : Time) :
  writer (mu (mgr s)) = false ->
  needsFetch (mgr s) (world (ast s)) = false ->
  fs (world (ast s)) (LocalPath (plan (mgr s))) = Regular data mt ->
  solo thread_step 4 s (TOpen O63)
  = Some (with_mgr (set_rw {| writer := false; readers := readers (mu (mgr s)) |})
            (on_world (fun w => (add_file w (LocalPath (plan (mgr s)))).1) s),
          TOpen (ODone (Some (length (files (world (ast s)))), None))).
Proof.
  intros Hw Hn Hfs. cbn [solo].
  assert (thread_step s (TOpen O63)
          = Some (with_mgr (set_rw {| writer := false;
                                      readers := Datatypes.S (readers (mu (mgr s))) |}) s,
                  TOpen O66, [])) as ->.
  { cbn [thread_step Open_step]. unfold rlock. by rewrite Hw. }
  set (s1 := with_mgr _ s).
  assert (thread_step s1 (TOpen O66) = Some (s1, TOpen O69, [])) as ->.
  { cbn [thread_step Open_step].
    change (needsFetch (mgr s1) (world (ast s1)))
      with (needsFetch (mgr s) (world (ast s))).
    by rewrite Hn. }
  assert (thread_step s1 (TOpen O69)
          = Some (on_world (fun w => (add_file w (LocalPath (plan (mgr s)))).1) s1,
                  TOpen (O64d (Some (length (files (world (ast s)))), None)), [])) as ->.
  { cbn [thread_step Open_step]. unfold os_Open. simpl. by rewrite Hfs. }
  reflexivity.
Qed.

Lemma needsFetch_false_inv (m : Manager P) (w : World) :
  needsFetch m w = false ->
  After (clock w) (Add (lastFetchedAt m) (UpdateInterval (plan m))) = false.
Proof. unfold needsFetch. by destruct (After _ _). Qed.

Lemma aborted_fetch_trace s0 (old : bytes) (mt : Time) (data : bytes)
    (blks : list bytes) (rest : bytes) (ending : option error) :
  mu (mgr s0) = {| writer := false; readers := 0 |} ->
  ab (ast s0) = {| a_mu := false; a_quit := None |} ->
  String.eqb (LocalPath (plan (mgr s0))) (RemotePath (plan (mgr s0))) = false ->
  fs (world (ast s0)) (LocalPath (plan (mgr s0))) = Regular old mt ->
  transport (world (ast s0)) (RemotePath (plan (mgr s0)))
    = inr (data, ending) ->
  data = concat blks ++ rest ->
  Forall (fun b => lenN b = copyBlockSize) blks ->
  needsFetch (mgr s0) (world (ast s0)) = false ->
  exists sys,
    mexec {| shared := s0; pool := fetch_abort_open |}
      (aborted_fetch_schedule (length blks)) = Some sys
    /\ pool sys
       = [TFetch (FDone (None, Some ErrAborted)); TAbort (AEnd None);
          TOpen (ODone (Some (Datatypes.S (length (files (world (ast s0))))), None));
          TRun {| pc := LEnd;
                  tick := copyTick (length (files (world (ast s0))))
                            (length (remotes (world (ast s0))));
                  ch := length (chans (ast s0)) |}]
    /\ lastFetchedAt (mgr (shared sys)) = lastFetchedAt (mgr s0)
    /\ (exists mt',
          fs (world (ast (shared sys))) (LocalPath (plan (mgr s0)))
          = Regular (concat blks ++ dropN (lenN (concat blks)) old) mt')
    /\ files (world (ast (shared sys))) !! Datatypes.S (length (files (world (ast s0))))
       = Some {| f_path := LocalPath (plan (mgr s0)); f_offset := 0%N;
                 f_closed := false |}.
Proof.
  intros Hmu Hab Hne Hfs Htr -> Hblks Hfresh.
  set (h := length (files (world (ast s0)))).
  set (r := length (remotes (world (ast s0)))).
  set (c := length (chans (ast s0))).
  set (p := LocalPath (plan (mgr s0))).
  unfold aborted_fetch_schedule, mexec, fetch_abort_open.
  (* Fetch enters lockedFetch and starts the run *)
  rewrite exec_app.
  erewrite exec_solo; [|reflexivity|by eapply fetch_enters].
  cbn [insert list_insert].
  set (sA := entered s0 _ _).
  rewrite exec_app. cbn [exec].
  erewrite step_go; [|reflexivity|reflexivity].
  cbn [insert list_insert app shared pool].
  set (sB := with_ast _ sA).
  (* the goroutine installs the cancellation channel *)
  rewrite exec_app.
  erewrite exec_solo; [|reflexivity|].
  2:{ apply solo_run, run_enters; [| |done]; unfold sB, sA; simpl; by rewrite Hab. }
  cbn [insert list_insert at_pc pc tick ch].
  set (sC := with_ast _ sB).
  (* it copies the blocks *)
  destruct (copy_blocks (world (ast sC)) h r c p old ending blks Hblks
              (ast sC) [] rest) as (w' & Hrun & Hcp).
  { split; simpl.
    - subst h. by rewrite lookup_app_r, Nat.sub_diag by lia.
    - subst r. by rewrite lookup_app_r, Nat.sub_diag by lia.
    - exists mt. by rewrite dropN_0.
    - done.
    - done. }
  { done. }
  rewrite exec_app.
  erewrite exec_solo; [|reflexivity|by apply solo_run, Hrun].
  cbn [insert list_insert].
  set (sD := with_ast _ sC).
  change ([] ++ concat blks) with (concat blks) in Hcp.
  destruct Hcp as [Hf Hr [mt' Hfs'] Hclock Hlen].
  (* Abort closes the channel *)
  rewrite exec_app.
  erewrite exec_solo; [|reflexivity|by apply solo_abort, abort_closes].
  cbn [insert list_insert].
  set (sE := with_ast _ sD).
  (* the goroutine sees the request at its next check *)
  rewrite exec_app.
  erewrite exec_solo; [|reflexivity|by apply solo_run, run_aborted].
  cbn [insert list_insert at_pc pc tick ch].
  set (sF := with_ast _ sE).
  (* Fetch receives the error and returns *)
  rewrite exec_app.
  erewrite exec_solo; [|reflexivity|].
  2:{ apply fetch_fails. unfold sF, sE, sD, sC, sB, sA. simpl.
      rewrite list_lookup_alter_eq, lookup_app_r, Nat.sub_diag by lia. done. }
  cbn [insert list_insert].
  set (sG := with_mgr _ _).
  (* Open finds the cache not due and opens the file *)
  erewrite exec_solo; [|reflexivity|].
  2:{ eapply (open_reads sG).
      - unfold sG. simpl. done.
      - apply needsFetch_false_inv in Hfresh.
        unfold needsFetch. unfold sG, sF, sE, sD, sC, sB, sA. simpl.
        rewrite Hclock. simpl. rewrite Hfresh.
        unfold Stat. simpl. unfold p in Hfs'. by rewrite Hfs'.
      - unfold sG, sF, sE, sD, sC, sB, sA. simpl. exact Hfs'. }
  cbn [insert list_insert].
  eexists. split; [reflexivity|]. cbn [pool shared].
  split.
  { unfold sG, sF, sE, sD, sC, sB, sA. simpl. rewrite length_alter, Hlen. simpl.
    rewrite length_app. simpl. by rewrite Nat.add_1_r. }
  split; [done|]. split.
  { exists mt'. unfold sG, sF, sE, sD, sC, sB, sA. simpl. exact Hfs'. }
  unfold sG, sF, sE, sD, sC, sB, sA. simpl.
  rewrite lookup_app_r; rewrite length_alter, Hlen; simpl; rewrite length_app; simpl.
  - by replace (Datatypes.S h - (length (files (world (ast s0))) + 1))%nat
      with 0%nat by (unfold h; lia).
  - unfold h; lia.
Qed.
Lemma run_finishes (a : AState World nat) (t : RunThread World nat) w (v : nat) :
  a_quit (ab a) <> Some ChanClosed -> pc t = L44 ->
  tick t (world a) = (w, (Some v, None)) ->
  Run_steps 4 a t
  = Some (with_ab (set_quit None) (send_result (ch t) v (with_world w a)),
          at_pc LEnd t).
Proof.
  intros Hq Hpc Htk. destruct a as [[m q] w1 cs], t as [p tk c].
  simpl in *; subst. unfold Run_step at 1. cbn [pc ab a_quit].
  assert (Run_step {| ab := {| a_mu := m; a_quit := q |}; world := w1; chans := cs |}
            (at_pc L49 {| pc := L44; tick := tk; ch := c |})
          = Some (with_world w {| ab := {| a_mu := m; a_quit := q |};
                                  world := w1; chans := cs |},
                  {| pc := L51 v; tick := tk; ch := c |})) as Hstep.
  { unfold Run_step. simpl. by rewrite Htk. }
  destruct q as [[]|]; try done; rewrite Hstep; reflexivity.
Qed.

Lemma fetch_succeeds s (file remoteFile c v : nat) :
  chans (ast s) !! c = Some {| result := Some v; errs := None |} ->
  solo thread_step 5 s (TFetch (F77 (LF114 file remoteFile c)))
  = Some (with_mgr (fun m => set_rw (unlock (mu m)) m)
            (on_world (fun w => CloseRemote w remoteFile)
               (on_world (fun w => Seek0 w file)
                  (with_mgr (set_lastFetchedAt (clock (world (ast s)))) s))),
          TFetch (FDone (Some file, None))).
Proof.
  intros Hc. cbn [solo].
  assert (thread_step s (TFetch (F77 (LF114 file remoteFile c)))
          = Some (s, TFetch (F77 (LF116 file remoteFile)), [])) as ->.
  { cbn [thread_step Fetch_step lockedFetch_step]. by rewrite Hc. }
  reflexivity.
Qed.

Lemma fetch_copies_trace s0 (old : bytes) (mt : Time) (data : bytes)
    (blks : list bytes) (last : bytes) :
  mu (mgr s0) = {| writer := false; readers := 0 |} ->
  ab (ast s0) = {| a_mu := false; a_quit := None |} ->
  String.eqb (LocalPath (plan (mgr s0))) (RemotePath (plan (mgr s0))) = false ->
  fs (world (ast s0)) (LocalPath (plan (mgr s0))) = Regular old mt ->
  transport (world (ast s0)) (RemotePath (plan (mgr s0))) = inr (data, None) ->
  data = concat blks ++ last ->
  Forall (fun b => lenN b = copyBlockSize) blks ->
  (lenN last < copyBlockSize)%N ->
  exists sys,
    mexec {| shared := s0; pool := [TFetch F75] |} (fetch_schedule (length blks))
    = Some sys
    /\ pool sys
       = [TFetch (FDone (Some (length (files (world (ast s0)))), None));
          TRun {| pc := LEnd;
                  tick := copyTick (length (files (world (ast s0))))
                            (length (remotes (world (ast s0))));
                  ch := length (chans (ast s0)) |}]
    /\ lastFetchedAt (mgr (shared sys)) = clock (world (ast s0))
    /\ (exists mt',
          fs (world (ast (shared sys))) (LocalPath (plan (mgr s0)))
          = Regular (data ++ dropN (lenN data) old) mt')
    /\ files (world (ast (shared sys))) !! length (files (world (ast s0)))
       = Some {| f_path := LocalPath (plan (mgr s0)); f_offset := 0%N;
                 f_closed := false |}.
Proof.
  intros Hmu Hab Hne Hfs Htr -> Hblks Hlast.
  set (h := length (files (world (ast s0)))).
  set (r := length (remotes (world (ast s0)))).
  set (c := length (chans (ast s0))).
  set (p := LocalPath (plan (mgr s0))).
  unfold fetch_schedule, mexec.
  rewrite exec_app.
  erewrite exec_solo; [|reflexivity|by eapply fetch_enters].
  cbn [insert list_insert].
  set (sA := entered s0 _ _).
  rewrite exec_app. cbn [exec].
  erewrite step_go; [|reflexivity|reflexivity].
  cbn [insert list_insert app shared pool].
  set (sB := with_ast _ sA).
  rewrite exec_app.
  erewrite exec_solo; [|reflexivity|].
  2:{ apply solo_run, run_enters; [| |done]; unfold sB, sA; simpl; by rewrite Hab. }
  cbn [insert list_insert at_pc pc tick ch].
  set (sC := with_ast _ sB).
  destruct (copy_blocks (world (ast sC)) h r c p old None blks Hblks
              (ast sC) [] last) as (w1 & Hrun & Hcp).
  { split; simpl.
    - subst h. by rewrite lookup_app_r, Nat.sub_diag by lia.
    - subst r. by rewrite lookup_app_r, Nat.sub_diag by lia.
    - exists mt. by rewrite dropN_0.
    - done.
    - done. }
  { done. }
  rewrite exec_app.
  erewrite exec_solo; [|reflexivity|by apply solo_run, Hrun].
  cbn [insert list_insert].
  set (sD := with_ast _ sC).
  change ([] ++ concat blks) with (concat blks) in Hcp.
  destruct (copyTick_last _ _ _ _ _ _ _ _ Hcp Hlast) as (w2 & Htk & Hcp2).
  destruct Hcp2 as [Hf Hr [mt' Hfs'] Hclock Hlen].
  rewrite exec_app.
  erewrite exec_solo; [|reflexivity|].
  2:{ apply solo_run. eapply (run_finishes _ _ w2 h); [done|done|exact Htk]. }
  cbn [insert list_insert at_pc pc tick ch].
  set (sE := with_ast _ sD).
  erewrite exec_solo; [|reflexivity|].
  2:{ apply (fetch_succeeds _ _ _ _ h). unfold sE, sD, sC, sB, sA. simpl.
      rewrite list_lookup_alter_eq, lookup_app_r, Nat.sub_diag by lia. done. }
  cbn [insert list_insert].
  eexists. split; [reflexivity|]. cbn [pool shared].
  split; [done|]. split.
  { unfold sE, sD, sC, sB, sA. simpl. exact Hclock. }
  split.
  { exists mt'. unfold sE, sD, sC, sB, sA. simpl. exact Hfs'. }
  unfold sE, sD, sC, sB, sA. simpl.
  rewrite list_lookup_alter_eq. unfold h in Hf. rewrite Hf. done.
Qed.

(** A Fetch that succeeds over a local file that is not longer than the
    remote stream leaves exactly the bytes of the stream. *)
Lemma fetch_copies_when_not_longer s0 (old : bytes) (mt : Time) (data : bytes)
    (blks : list bytes) (last : bytes) :
  mu (mgr s0) = {| writer := false; readers := 0 |} ->
  ab (ast s0) = {| a_mu := false; a_quit := None |} ->
  String.eqb (LocalPath (plan (mgr s0))) (RemotePath (plan (mgr s0))) = false ->
  fs (world (ast s0)) (LocalPath (plan (mgr s0))) = Regular old mt ->
  transport (world (ast s0)) (RemotePath (plan (mgr s0))) = inr (data, None) ->
  data = concat blks ++ last ->
  Forall (fun b => lenN b = copyBlockSize) blks ->
  (lenN last < copyBlockSize)%N ->
  (lenN old <= lenN data)%N ->
  exists sys mt',
    mexec {| shared := s0; pool := [TFetch F75] |} (fetch_schedule (length blks))
    = Some sys
    /\ pool sys !! 0%nat
       = Some (TFetch (FDone (Some (length (files (world (ast s0)))), None)))
    /\ fs (world (ast (shared sys))) (LocalPath (plan (mgr s0))) = Regular data mt'
    /\ files (world (ast (shared sys))) !! length (files (world (ast s0)))
       = Some {| f_path := LocalPath (plan (mgr s0)); f_offset := 0%N;
                 f_closed := false |}.
Proof.
  intros Hmu Hab Hne Hfs Htr Hdata Hblks Hlast Hold.
  destruct (fetch_copies_trace s0 old mt data blks last Hmu Hab Hne Hfs Htr
              Hdata Hblks Hlast) as (sys & Hex & Hpool & _ & [mt' Hfs'] & Hfile).
  exists sys, mt'. split; [done|]. split; [by rewrite Hpool|]. split; [|done].
  by rewrite (dropN_short _ old Hold), app_nil_r in Hfs'.
Qed.
End AbortedFetch.

Section FetchErrors.
Context {P : Type} {PlanP : Plan P}.
Implicit Types (s : Shared P).

(** C8 (amended): when the copy loop of a Fetch ends in an error,
    Aborted included, Fetch (and Open, when it is Open that fetches)
    returns that error and no file, and lastFetchedAt is unchanged; so a
    refresh that is due because the interval has elapsed since
    lastFetchedAt is still due at every later freshness check.  (A
    refresh that was due only because the local path was absent need not
    be due afterwards: the failed Fetch has created the file.) *)
Theorem C8_copy_error_is_propagated s (file remoteFile c : nat) (e : error) :
  chans (ast s) !! c = Some {| result := None; errs := Some e |} ->
  exists s1 s2,
    solo thread_step 4 s (TFetch (F77 (LF114 file remoteFile c)))
    = Some (s1, TFetch (FDone (None, Some e)))
    /\ solo thread_step 4 s (TOpen (O67 (LF114 file remoteFile c)))
       = Some (s2, TOpen (ODone (None, Some e)))
    /\ lastFetchedAt (mgr s1) = lastFetchedAt (mgr s)
    /\ lastFetchedAt (mgr s2) = lastFetchedAt (mgr s)
    /\ plan (mgr s1) = plan (mgr s)
    /\ plan (mgr s2) = plan (mgr s)
    /\ forall w : World,
         clock w > lastFetchedAt (mgr s) + UpdateInterval (plan (mgr s)) ->
         needsFetch (mgr s1) w = true /\ needsFetch (mgr s2) w = true.
Proof.
  intros Hc. eexists _, _.
  split; [by apply fetch_fails|]. split; [by apply open_fails|].
  do 4 (split; [reflexivity|]).
  intros w Hw. split; apply needsFetch_spec; left; exact Hw.
Qed.

(** C2 (amended): cancelling an in-flight refresh leaves the local file
    partly rewritten.  When a Fetch over an existing local file is
    aborted after its copy loop has written some whole blocks, Fetch
    returns Aborted and no file, lastFetchedAt is unchanged, and the
    local file holds the blocks copied so far followed by the previous
    contents beyond that offset; an Open that then finds the cache not
    due returns that file as it is, at offset 0. *)
Theorem C2_aborted_fetch_leaves_copied_blocks s0 (old : bytes) (mt : Time)
    (data : bytes) (blks : list bytes) (rest : bytes) (ending : option error) :
  mu (mgr s0) = {| writer := false; readers := 0 |} ->
  ab (ast s0) = {| a_mu := false; a_quit := None |} ->
  String.eqb (LocalPath (plan (mgr s0))) (RemotePath (plan (mgr s0))) = false ->
  fs (world (ast s0)) (LocalPath (plan (mgr s0))) = Regular old mt ->
  transport (world (ast s0)) (RemotePath (plan (mgr s0)))
    = inr (data, ending) ->
  data = concat blks ++ rest ->
  Forall (fun b => lenN b = copyBlockSize) blks ->
  needsFetch (mgr s0) (world (ast s0)) = false ->
  exists sys,
    mexec {| shared := s0; pool := fetch_abort_open |}
      (aborted_fetch_schedule (length blks)) = Some sys
    /\ pool sys
       = [TFetch (FDone (None, Some ErrAborted)); TAbort (AEnd None);
          TOpen (ODone (Some (Datatypes.S (length (files (world (ast s0))))), None));
          TRun {| pc := LEnd;
                  tick := copyTick (length (files (world (ast s0))))
                            (length (remotes (world (ast s0))));
                  ch := length (chans (ast s0)) |}]
    /\ lastFetchedAt (mgr (shared sys)) = lastFetchedAt (mgr s0)
    /\ (exists mt',
          fs (world (ast (shared sys))) (LocalPath (plan (mgr s0)))
          = Regular (concat blks ++ dropN (lenN (concat blks)) old) mt')
    /\ files (world (ast (shared sys))) !! Datatypes.S (length (files (world (ast s0))))
       = Some {| f_path := LocalPath (plan (mgr s0)); f_offset := 0%N;
                 f_closed := false |}.
Proof. apply aborted_fetch_trace. Qed.
End FetchErrors.

Lemma C8_copy_error_is_propagated_witness :
  exists s1 s2,
    solo thread_step 4 after_abort (TFetch (F77 (LF114 0 0 0)))
    = Some (s1, TFetch (FDone (None, Some ErrAborted)))
    /\ solo thread_step 4 after_abort (TOpen (O67 (LF114 0 0 0)))
       = Some (s2, TOpen (ODone (None, Some ErrAborted)))
    /\ lastFetchedAt (mgr s1) = 100
    /\ lastFetchedAt (mgr s2) = 100
    /\ plan (mgr s1) = retry_plan
    /\ plan (mgr s2) = retry_plan
    /\ forall w : World,
         clock w > 100 + 1000 ->
         needsFetch (mgr s1) w = true /\ needsFetch (mgr s2) w = true.
Proof.
  exact (C8_copy_error_is_propagated after_abort 0 0 0 ErrAborted eq_refl).
Defined.

(** C8 as stated: the refresh is due because the local file has been
    removed; Fetch is called, creates the file, and the refresh is
    aborted.  Fetch returns Aborted and lastFetchedAt is unchanged, but at
    the same instant the freshness check no longer finds a refresh due. *)
Lemma C8_failed_fetch_makes_absent_cache_fresh :
  exists sys sys',
    mexec removed_then_aborted [Env (Unlink "cache.txt")] = Some sys
    /\ needsFetch (mgr (shared sys)) (world (ast (shared sys))) = true
    /\ mexec sys removed_then_aborted_schedule = Some sys'
    /\ pool sys' !! 0%nat = Some (TFetch (FDone (None, Some ErrAborted)))
    /\ lastFetchedAt (mgr (shared sys')) = lastFetchedAt (mgr (shared sys))
    /\ clock (world (ast (shared sys'))) = clock (world (ast (shared sys)))
    /\ needsFetch (mgr (shared sys')) (world (ast (shared sys'))) = false.
Proof.
  eexists _, _. split; [vm_compute; reflexivity|]. split; [reflexivity|].
  split; [vm_compute; reflexivity|]. repeat split.
Qed.

Lemma big_block_length : lenN big_block = copyBlockSize.
Proof. unfold big_block, lenN. by rewrite repeat_length, N2Nat.id. Qed.

Lemma old_block_length : lenN old_block = copyBlockSize.
Proof. unfold old_block, lenN. by rewrite repeat_length, N2Nat.id. Qed.

Lemma C2_aborted_fetch_leaves_copied_blocks_witness :
  exists sys,
    mexec big_abort (aborted_fetch_schedule 1) = Some sys
    /\ pool sys
       = [TFetch (FDone (None, Some ErrAborted)); TAbort (AEnd None);
          TOpen (ODone (Some 1%nat, None));
          TRun {| pc := LEnd; tick := copyTick 0 0; ch := 0 |}]
    /\ lastFetchedAt (mgr (shared sys)) = 100
    /\ (exists mt',
          fs (world (ast (shared sys))) "cache.txt"
          = Regular (concat [big_block] ++ dropN (lenN (concat [big_block])) old_cache) mt')
    /\ files (world (ast (shared sys))) !! 1%nat
       = Some {| f_path := "cache.txt"; f_offset := 0%N; f_closed := false |}.
Proof.
  assert (big_remote = concat [big_block] ++ ["!"%byte]) as Hdata.
  { unfold big_remote. by rewrite concat_cons, concat_nil, (app_nil_r big_block). }
  assert (Forall (fun b => lenN b = copyBlockSize) [big_block]) as Hblks.
  { constructor; [apply big_block_length | constructor]. }
  exact (C2_aborted_fetch_leaves_copied_blocks (shared big_abort) old_cache 100
           big_remote [big_block] ["!"%byte] None
           eq_refl eq_refl eq_refl eq_refl eq_refl Hdata Hblks eq_refl).
Defined.

(** C2 as stated: the remote holds one block and one byte more, the local
    file one block and three bytes more.  The refresh is aborted after its
    first block.  The file that Open then returns holds the first block of
    the new contents followed by the last three bytes of the previous
    contents: neither the previous contents nor the new contents. *)
Lemma C2_abort_after_first_block_leaves_a_mixture :
  exists sys mt',
    mexec big_abort (aborted_fetch_schedule 1) = Some sys
    /\ pool sys !! 0%nat = Some (TFetch (FDone (None, Some ErrAborted)))
    /\ pool sys !! 2%nat = Some (TOpen (ODone (Some 1%nat, None)))
    /\ files (world (ast (shared sys))) !! 1%nat
       = Some {| f_path := "cache.txt"; f_offset := 0%N; f_closed := false |}
    /\ fs (world (ast (shared sys))) "cache.txt"
       = Regular (big_block ++ list_byte_of_string "old") mt'
    /\ big_block ++ list_byte_of_string "old" <> old_cache
    /\ big_block ++ list_byte_of_string "old" <> big_remote.
Proof.
  assert (big_remote = concat [big_block] ++ ["!"%byte]) as Hdata.
  { unfold big_remote. by rewrite concat_cons, concat_nil, (app_nil_r big_block). }
  assert (Forall (fun b => lenN b = copyBlockSize) [big_block]) as Hblks.
  { constructor; [apply big_block_length | constructor]. }
  destruct (aborted_fetch_trace (shared big_abort) old_cache 100
              big_remote [big_block] ["!"%byte] None)
    as (sys & Hex & Hpool & _ & [mt' Hfs] & Hfile);
    [reflexivity | reflexivity | reflexivity | reflexivity | reflexivity
    | exact Hdata | exact Hblks | reflexivity |].
  exists sys, mt'. split; [exact Hex|]. rewrite Hpool.
  split; [reflexivity|]. split; [reflexivity|]. split; [exact Hfile|]. split.
  - rewrite concat_cons, concat_nil, (app_nil_r big_block) in Hfs.
    unfold old_cache in Hfs.
    rewrite (dropN_app_exact (lenN big_block) old_block) in Hfs; [exact Hfs|].
    by rewrite big_block_length, old_block_length.
  - split; intros E.
    + unfold old_cache in E. apply app_inv_tail in E.
      unfold big_block, old_block in E.
      destruct (N.to_nat copyBlockSize) as [|n] eqn:En;
        [unfold copyBlockSize in En; lia|].
      discriminate E.
    + unfold big_remote in E. apply app_inv_head in E. discriminate E.
Qed.

(** ** The guard of the abortable, under every schedule *)

Section Guard.
Context {P : Type} {PlanP : Plan P}.
Implicit Types (s : Shared P) (f : Thread -> bool).

Lemma count_app f (l k : list Thread) : count f (l ++ k) = (count f l + count f k)%nat.
Proof. induction l as [|t l IH]; simpl; [done|]. rewrite IH. lia. Qed.

Lemma count_insert f (l : list Thread) (i : nat) (t t' : Thread) :
  l !! i = Some t ->
  (count f (<[i:=t']> l) + b2n (f t) = count f l + b2n (f t'))%nat.
Proof.
  revert i; induction l as [|x l IH]; intros [|i] Hi; simpl in *; try done.
  - injection Hi as ->. unfold b2n. lia.
  - specialize (IH i Hi). lia.
Qed.

Lemma count_le f g (l : list Thread) :
  (forall t, f t = true -> g t = true) -> (count f l <= count g l)%nat.
Proof.
  intros H. induction l as [|x l IH]; simpl; [done|].
  specialize (H x). destruct (f x), (g x); try lia; by discriminate H.
Qed.

Lemma lockedFetch_step_quiet s lf s' lf' new :
  lockedFetch_step s lf = Some (s', lf', new) ->
  ab (ast s') = ab (ast s)
  /\ count holds_mu new = 0%nat /\ count in_loop new = 0%nat
  /\ count at_install new = 0%nat.
Proof.
  intros H. destruct lf; simpl in H; repeat case_match; simplify_eq; done.
Qed.

Lemma Fetch_step_quiet s p s' p' new :
  Fetch_step s p = Some (s', p', new) ->
  ab (ast s') = ab (ast s)
  /\ count holds_mu new = 0%nat /\ count in_loop new = 0%nat
  /\ count at_install new = 0%nat.
Proof.
  intros H. destruct p; simpl in H; try done.
  - destruct (lock _); by simplify_eq.
  - destruct (lockedFetch_step s lf) as [[[s1 lf1] new1]|] eqn:E; [|done].
    apply lockedFetch_step_quiet in E. destruct lf1; by simplify_eq.
  - by simplify_eq.
Qed.

Lemma count_delete f (l : list Thread) (i : nat) (t : Thread) :
  l !! i = Some t ->
  count f l = (b2n (f t) + count f (delete i l))%nat
  /\ forall t', count f (<[i:=t']> l) = (b2n (f t') + count f (delete i l))%nat.
Proof.
  revert i; induction l as [|x l IH]; intros [|i] Hi; simpl in *; try done.
  - by injection Hi as ->.
  - destruct (IH i Hi) as [E1 E2]. split; [lia|]. intros t'. rewrite E2. lia.
Qed.

Ltac fin :=
  simpl in *;
  repeat match goal with
         | H : match ?q with Some _ => _ | None => _ end |- _ => destruct q
         end;
  simpl in *; repeat split; try done; try lia; try (intros _; lia).

(** One step of one goroutine, given what the other goroutines hold. *)
Lemma thread_step_guarded s t s' t' new (nh nl ni : nat) :
  thread_step s t = Some (s', t', new) ->
  (ni <= nh)%nat ->
  (b2n (holds_mu t) + nh <= b2n (a_mu (ab (ast s))))%nat ->
  (b2n (in_loop t) + nl <= q2n (a_quit (ab (ast s))))%nat ->
  (a_quit (ab (ast s)) <> None -> (b2n (at_install t) + ni = 0)%nat) ->
  (b2n (holds_mu t') + nh <= b2n (a_mu (ab (ast s'))))%nat
  /\ (b2n (in_loop t') + nl <= q2n (a_quit (ab (ast s'))))%nat
  /\ (a_quit (ab (ast s')) <> None -> (b2n (at_install t') + ni = 0)%nat)
  /\ count holds_mu new = 0%nat /\ count in_loop new = 0%nat
  /\ count at_install new = 0%nat.
Proof.
  intros Hstep Hi Hh Hl Hq.
  destruct s as [m [[amu q] w cs]].
  assert (q <> None -> (b2n (at_install t) + ni = 0)%nat) as Hq' by exact Hq.
  clear Hq. cbn [ast ab a_mu a_quit] in *.
  assert (match q with
          | Some _ => (b2n (at_install t) + ni = 0)%nat
          | None => True
          end) as Hq by (destruct q; [by apply Hq' | done]).
  clear Hq'.
  destruct t as [p|p|p|p|p|r]; simpl in Hstep.
  - (* Open *)
    destruct (Open_step _ p) as [[[s1 p1] new1]|] eqn:E; [|done]. simplify_eq.
    assert (ab (ast s') = {| a_mu := amu; a_quit := q |}
            /\ count holds_mu new = 0%nat /\ count in_loop new = 0%nat
            /\ count at_install new = 0%nat) as (-> & ? & ? & ?).
    { destruct p; simpl in E; try done.
      - destruct (rlock _); by simplify_eq.
      - destruct (needsFetch _ _); by simplify_eq.
      - destruct (lockedFetch_step _ lf) as [[[s2 lf2] new2]|] eqn:E2; [|done].
        apply lockedFetch_step_quiet in E2. destruct lf2; by simplify_eq.
      - by simplify_eq.
      - by simplify_eq. }
    simpl in *. fin.
  - (* Fetch *)
    destruct (Fetch_step _ p) as [[[s1 p1] new1]|] eqn:E; [|done]. simplify_eq.
    apply Fetch_step_quiet in E as (E & ? & ? & ?). simpl in E. rewrite E.
    simpl in *. fin.
  - (* Abort *)
    destruct (Abort_step _ p) as [[a p']|] eqn:E; [|done]. simplify_eq.
    destruct p; simpl in *; repeat case_match; simplify_eq;
      try destruct amu; simpl in *; repeat split; try done; try lia; try (intros _; lia).
  - (* Start *)
    destruct (Start_step _ p) as [[[s1 p1] new1]|] eqn:E; [|done]. simplify_eq.
    destruct p; simpl in E; repeat case_match; simplify_eq; simpl in *;
      fin.
  - (* the background loop *)
    destruct (loop_step _ p) as [[[s1 p1] new1]|] eqn:E; [|done]. simplify_eq.
    destruct p; simpl in E; try done.
    + repeat case_match; simplify_eq; simpl in *;
        fin.
    + destruct (Abort_step _ p) as [[a p']|] eqn:E2; [|done].
      destruct p; simpl in *; repeat case_match; simplify_eq;
        try destruct amu; simpl in *; repeat split; try done; try lia;
        try (intros _; lia).
    + simplify_eq. simpl in *. fin.
    + destruct (Fetch_step _ f) as [[[s2 f2] new2]|] eqn:E2; [|done].
      apply Fetch_step_quiet in E2 as (E2 & ? & ? & ?). simpl in E2.
      destruct f2; simplify_eq; simpl in *; rewrite E2; simpl;
        fin.
    + simplify_eq. simpl in *. fin.
  - (* Run *)
    destruct (Run_step _ r) as [[a r']|] eqn:E; [|done]. simplify_eq.
    destruct r as [pc tk c]. unfold Run_step in E.
    simpl in *. destruct pc; simpl in *; repeat case_match; simplify_eq;
      try destruct amu; simpl in *; repeat split; try done; try lia; try (intros _; lia).
Qed.

Lemma step_guarded (sys sys' : Sys (Shared P) Thread) (ev : Event EnvEvent) :
  guarded sys ->
  step thread_step env_step sys ev = Some sys' ->
  guarded sys'.
Proof.
  intros (Hh & Hl & Hq) Hstep. destruct sys as [sh l], ev as [i|e]; simpl in *.
  - destruct (l !! i) as [t|] eqn:Hi; [|done].
    destruct (thread_step sh t) as [[[sh' t'] new]|] eqn:Ht; [|done].
    injection Hstep as <-.
    destruct (count_delete holds_mu l i t Hi) as [Eh Eh'].
    destruct (count_delete in_loop l i t Hi) as [El El'].
    destruct (count_delete at_install l i t Hi) as [Ei Ei'].
    rewrite Eh in Hh. rewrite El in Hl. rewrite Ei in Hq.
    destruct (thread_step_guarded _ _ _ _ _ _ _ _ Ht
                (count_le at_install holds_mu (delete i l) ltac:(by intros [| | | | |[[] ? ?]]))
                Hh Hl Hq)
      as (Hh' & Hl' & Hq' & Nh & Nl & Ni).
    unfold guarded. simpl. rewrite !count_app, Eh', El', Ei', Nh, Nl, Ni.
    rewrite !Nat.add_0_r. done.
  - destruct e as [d|p]; simpl in Hstep; repeat case_match; simplify_eq;
      unfold guarded; simpl; done.
Qed.

Lemma exec_guarded (sched : list (Event EnvEvent)) (sys sys' : Sys (Shared P) Thread) :
  guarded sys -> mexec sys sched = Some sys' -> guarded sys'.
Proof.
  revert sys. induction sched as [|ev sched IH]; intros sys Hg Hex.
  - by injection Hex as <-.
  - unfold mexec in Hex. rewrite exec_cons in Hex.
    destruct (step thread_step env_step sys ev) as [sys1|] eqn:Hs; [|done].
    eapply IH; [|exact Hex]. by eapply step_guarded.
Qed.

(** From a fresh manager and callers that have not started, whatever the
    schedule: at most one goroutine of [Run] is between installing the
    cancellation channel and clearing it, so at most one copy loop is
    writing the local file; and at most one goroutine holds [a.mu]. *)
Lemma one_run_at_a_time (pl : P) (w : World) (callers : list Thread)
    (sched : list (Event EnvEvent)) (sys : Sys (Shared P) Thread) :
  count holds_mu callers = 0%nat ->
  count in_loop callers = 0%nat ->
  mexec (boot pl w callers) sched = Some sys ->
  (count in_loop (pool sys) <= 1)%nat /\ (count holds_mu (pool sys) <= 1)%nat.
Proof.
  intros Hh Hl Hex.
  assert (guarded (boot pl w callers)) as Hg.
  { unfold guarded. simpl. rewrite Hh, Hl. done. }
  destruct (exec_guarded _ _ _ Hg Hex) as (Hh' & Hl' & _). split.
  - destruct (a_quit _); simpl in Hl'; lia.
  - destruct (a_mu _); simpl in Hh'; lia.
Qed.
End Guard.

(** * More properties

    ** The abortable: a run to its end, Abort twice, Abort against the end
    of a run *)

Lemma alter_last {A} (f : A -> A) (l : list A) (x : A) :
  alter f (length l) (l ++ [x]) = l ++ [f x].
Proof. induction l as [|y l IH]; simpl; [done|]. by rewrite <- IH. Qed.

Section RunLoop.
Context {W V : Type}.
Implicit Types (s : AState W V) (t : RunThread W V) (tk : TickFn W V).

Lemma Run_steps_plus (n m : nat) s t :
  Run_steps (n + m) s t
  = match Run_steps n s t with
    | Some (s', t') => Run_steps m s' t'
    | None => None
    end.
Proof.
  revert s t; induction n as [|n IH]; intros s t; simpl; [done|].
  destruct (Run_step s t) as [[s' t']|]; [apply IH | done].
Qed.

(** The loop while the step function keeps going and no abort has been
    requested: two steps a call. *)
Lemma Run_keeps_going (n : nat) s t :
  pc t = L44 ->
  a_quit (ab s) <> Some ChanClosed ->
  (forall k, (k < n)%nat -> (tick t (ticks k (tick t) (world s))).2 = (None, None)) ->
  Run_steps (2 * n) s t = Some (with_world (ticks n (tick t) (world s)) s, t).
Proof.
  revert s. induction n as [|n IH]; intros s Hpc Hq Hk.
  - simpl. by destruct s.
  - assert ((2 * Datatypes.S n)%nat = (2 + 2 * n)%nat) as -> by lia.
    rewrite Run_steps_plus.
    pose proof (Hk 0%nat ltac:(lia)) as H0. simpl in H0.
    destruct (tick t (world s)) as [w1 [v1 e1]] eqn:Htk. simpl in H0.
    injection H0 as -> ->.
    assert (Run_steps 2 s t = Some (with_world w1 s, t)) as ->.
    { destruct s as [[m q] w cs], t as [p tk c]. simpl in *. subst p.
      unfold Run_step at 1. cbn [pc ab a_quit].
      assert (Run_step {| ab := {| a_mu := m; a_quit := q |}; world := w; chans := cs |}
                (at_pc L49 {| pc := L44; tick := tk; ch := c |})
              = Some (with_world w1 {| ab := {| a_mu := m; a_quit := q |};
                                       world := w; chans := cs |},
                      {| pc := L44; tick := tk; ch := c |})) as Hs.
      { unfold Run_step. simpl. by rewrite Htk. }
      destruct q as [[]|]; try done; by rewrite Hs. }
    rewrite (IH (with_world w1 s)); [|done|done|].
    + simpl. by rewrite Htk.
    + intros k Hlt. specialize (Hk (Datatypes.S k) ltac:(lia)).
      simpl in Hk. by rewrite Htk in Hk.
Qed.

(** X2: A run on a free abortable whose step function keeps going [n]
    times and then returns a result or an error, the caller receiving on
    both channels: the function is called [n + 1] times, what it returned
    last is delivered (the result if there is one, otherwise the error),
    and the abortable is free again. *)
Theorem X2_Run_completes (n : nat) s tk (w : W) (val : option V) (err : option error) :
  a_mu (ab s) = false ->
  a_quit (ab s) = None ->
  (forall k, (k < n)%nat -> (tk (ticks k tk (world s))).2 = (None, None)) ->
  tk (ticks n tk (world s)) = (w, (val, err)) ->
  val <> None \/ err <> None ->
  Run_steps (4 + (2 * n + 4)) (Run s tk).1.1 (Run s tk).2
  = Some ({| ab := ab s; world := w;
             chans := chans s ++ [delivered val err {| result := None; errs := None |}] |},
          {| pc := LEnd; tick := tk; ch := length (chans s) |}).
Proof.
  intros Hmu Hq Hk Hlast Hsome.
  destruct s as [[m q] w0 cs]. simpl in Hmu, Hq. subst m q.
  rewrite Run_steps_plus.
  assert (Run_steps 4 (Run {| ab := {| a_mu := false; a_quit := None |};
                              world := w0; chans := cs |} tk).1.1
            (Run {| ab := {| a_mu := false; a_quit := None |};
                    world := w0; chans := cs |} tk).2
          = Some ({| ab := {| a_mu := false; a_quit := Some ChanOpen |}; world := w0;
                     chans := cs ++ [{| result := None; errs := None |}] |},
                  {| pc := L44; tick := tk; ch := length cs |})) as -> by reflexivity.
  rewrite Run_steps_plus, Run_keeps_going; [| done | done | exact Hk].
  cbn [tick world with_world ab chans] in *.
  simpl Run_steps. unfold Run_step at 1. cbn [pc ab a_quit at_pc].
  unfold Run_step at 1. cbn [pc tick world at_pc with_world]. rewrite Hlast.
  destruct val as [v|]; [|destruct err as [e|]; [|by destruct Hsome]].
  - unfold with_ab, send_result, with_world, at_pc. simpl. by rewrite alter_last.
  - unfold with_ab, send_errs, with_world, at_pc. simpl. by rewrite alter_last.
Qed.

(** X3: Abort while the cancellation channel is already closed (an earlier
    Abort that the run has not noticed yet): [close] panics; the deferred
    Unlock has run, the channel is still closed. *)
Theorem X3_second_Abort_panics s :
  a_mu (ab s) = false ->
  a_quit (ab s) = Some ChanOpen ->
  exists s1,
    Abort_steps 4 s A68 = Some (s1, AEnd None)
    /\ Abort_steps 4 s1 A68 = Some (s1, APanic)
    /\ a_quit (ab s1) = Some ChanClosed
    /\ a_mu (ab s1) = false.
Proof.
  intros Hmu Hq. destruct s as [[m q] w cs]. simpl in *. subst.
  eexists. split; [reflexivity|]. split; [reflexivity|]. done.
Qed.

(** X4: Abort has found the channel installed; the run then ends and clears
    it (line 39, outside the mutex); Abort goes on to close a nil channel
    and panics. *)
Theorem X4_Abort_races_with_the_end_of_the_run s t (c : chan) :
  a_mu (ab s) = false ->
  a_quit (ab s) = Some c ->
  pc t = L39d ->
  exists s1 s2 s3,
    Abort_steps 2 s A68 = Some (s1, A73)
    /\ Run_steps 1 s1 t = Some (s2, at_pc LEnd t)
    /\ Abort_steps 2 s2 A73 = Some (s3, APanic)
    /\ ab s3 = {| a_mu := false; a_quit := None |}
    /\ world s3 = world s /\ chans s3 = chans s.
Proof.
  intros Hmu Hq Hpc. destruct s as [[m q] w cs], t as [p tk ch]. simpl in *. subst.
  eexists _, _, _. repeat split.
Qed.
End RunLoop.

(** ** Fetch and Open without a copy *)

Section Paths.
Context {P : Type} {PlanP : Plan P}.
Implicit Types (s : Shared P).

Lemma unlock_lock_free (m : Manager P) :
  mu m = {| writer := false; readers := 0 |} ->
  set_rw (unlock {| writer := true; readers := 0 |})
    (set_rw {| writer := true; readers := 0 |} m) = m.
Proof. destruct m as [pl t n l q]. simpl. by intros ->. Qed.

(** X5: Fetch when the local path is the remote identifier: four steps, no
    goroutine.  The local file is opened (created empty if absent) and
    returned at offset 0; the transport is not opened, no run is started,
    and the manager is as before: lastFetchedAt is not updated. *)
Theorem X5_Fetch_same_path s :
  let p := LocalPath (plan (mgr s)) in
  let w := world (ast s) in
  mu (mgr s) = {| writer := false; readers := 0 |} ->
  String.eqb p (RemotePath (plan (mgr s))) = true ->
  (forall msg, fs w p <> Denied msg) ->
  exists s',
    solo thread_step 4 s (TFetch F75)
    = Some (s', TFetch (FDone (Some (length (files w)), None)))
    /\ mgr s' = mgr s
    /\ ab (ast s') = ab (ast s) /\ chans (ast s') = chans (ast s)
    /\ opened (world (ast s')) = opened w
    /\ remotes (world (ast s')) = remotes w
    /\ files (world (ast s'))
       = files w ++ [{| f_path := p; f_offset := 0%N; f_closed := false |}]
    /\ fs (world (ast s')) p
       = match fs w p with
         | Absent => Regular [] (clock w)
         | e => e
         end.
Proof.
  intros p w Hmu Heq Hok. subst p w. cbn [solo].
  assert (thread_step s (TFetch F75)
          = Some (with_mgr (set_rw {| writer := true; readers := 0 |}) s,
                  TFetch (F77 LF91), [])) as ->.
  { cbn [thread_step Fetch_step]. unfold lock. by rewrite Hmu. }
  set (s1 := with_mgr _ s).
  assert (thread_step s1 (TFetch (F77 LF91))
          = Some (on_world (fun w => (OpenFile w (LocalPath (plan (mgr s)))).1) s1,
                  TFetch (F77 (LF95 (length (files (world (ast s)))))), [])) as ->.
  { cbn [thread_step Fetch_step lockedFetch_step]. unfold on_world, OpenFile. simpl.
    destruct (fs (world (ast s)) (LocalPath (plan (mgr s)))) as [|d mt|msg] eqn:E;
      try done. exfalso. by eapply Hok. }
  set (s2 := on_world _ s1).
  assert (thread_step s2 (TFetch (F77 (LF95 (length (files (world (ast s)))))))
          = Some (s2, TFetch (F76d (Some (length (files (world (ast s)))), None)), [])) as ->.
  { cbn [thread_step Fetch_step lockedFetch_step]. simpl. by rewrite Heq. }
  eexists. split; [reflexivity|]. unfold s2, s1. simpl.
  split; [by apply unlock_lock_free|]. unfold OpenFile.
  destruct (fs (world (ast s)) (LocalPath (plan (mgr s)))) as [|d mt|msg] eqn:E;
    simpl; repeat split; try done.
  - unfold fs_set. by rewrite String.eqb_refl.
  - exfalso. by eapply Hok.
Qed.

(** X6: Fetch when the local file cannot be opened: the error of os.OpenFile
    is returned with no file, and nothing has changed: the transport has
    not been asked, no run was started, the lock is free again. *)
Theorem X6_Fetch_local_open_fails s (msg : string) :
  mu (mgr s) = {| writer := false; readers := 0 |} ->
  fs (world (ast s)) (LocalPath (plan (mgr s))) = Denied msg ->
  solo thread_step 3 s (TFetch F75)
  = Some (s, TFetch (FDone (None, Some (ErrOther msg)))).
Proof.
  intros Hmu Hfs. cbn [solo].
  assert (thread_step s (TFetch F75)
          = Some (with_mgr (set_rw {| writer := true; readers := 0 |}) s,
                  TFetch (F77 LF91), [])) as ->.
  { cbn [thread_step Fetch_step]. unfold lock. by rewrite Hmu. }
  set (s1 := with_mgr _ s).
  assert (thread_step s1 (TFetch (F77 LF91))
          = Some (on_world (fun w => w) s1,
                  TFetch (F76d (None, Some (ErrOther msg))), [])) as ->.
  { cbn [thread_step Fetch_step lockedFetch_step]. unfold OpenFile. simpl.
    by rewrite Hfs. }
  unfold s1. cbn [thread_step Fetch_step]. do 3 f_equal.
  destruct s as [m [a w cs]]. unfold with_mgr, on_world, with_world. simpl.
  f_equal. by apply unlock_lock_free.
Qed.

(** X7: Open when the cache is not due: the local file is opened for reading
    and returned at offset 0 (or the error of os.Open is returned); the
    transport is not opened, no run is started, lastFetchedAt is unchanged
    and the read lock is released. *)
Theorem X7_Open_not_due s :
  let p := LocalPath (plan (mgr s)) in
  let w := world (ast s) in
  writer (mu (mgr s)) = false ->
  needsFetch (mgr s) w = false ->
  exists s',
    solo thread_step 4 s (TOpen O63)
    = Some (s', TOpen (ODone match fs w p with
                             | Denied msg => (None, Some (ErrOther msg))
                             | _ => (Some (length (files w)), None)
                             end))
    /\ mgr s' = mgr s
    /\ ab (ast s') = ab (ast s) /\ chans (ast s') = chans (ast s)
    /\ opened (world (ast s')) = opened w
    /\ fs (world (ast s')) = fs w
    /\ files (world (ast s'))
       = match fs w p with
         | Denied _ => files w
         | _ => files w ++ [{| f_path := p; f_offset := 0%N; f_closed := false |}]
         end
    /\ fs w p <> Absent.
Proof.
  intros p w Hw Hn. subst p w. cbn [solo].
  assert (thread_step s (TOpen O63)
          = Some (with_mgr (set_rw {| writer := false;
                                      readers := Datatypes.S (readers (mu (mgr s))) |}) s,
                  TOpen O66, [])) as ->.
  { cbn [thread_step Open_step]. unfold rlock. by rewrite Hw. }
  set (s1 := with_mgr _ s).
  assert (thread_step s1 (TOpen O66) = Some (s1, TOpen O69, [])) as ->.
  { cbn [thread_step Open_step].
    change (needsFetch (mgr s1) (world (ast s1)))
      with (needsFetch (mgr s) (world (ast s))).
    by rewrite Hn. }
  assert (fs (world (ast s)) (LocalPath (plan (mgr s))) <> Absent) as Hpresent.
  { intros E. pose proof (proj2 (needsFetch_spec (mgr s) (world (ast s))) (or_intror E)).
    congruence. }
  cbn [thread_step Open_step]. unfold os_Open, s1. simpl.
  destruct (fs (world (ast s)) (LocalPath (plan (mgr s)))) eqn:E; try done;
    simpl; (eexists; split; [reflexivity|]); simpl;
    (split; [destruct s as [[pl t n [wr rd] q] a]; simpl in *; by subst wr|]);
    repeat split; done.
Qed.
End Paths.

(** ** The copy of a whole stream *)

Lemma OpenFile_ok (w : World) (p : string) :
  (forall msg, fs w p <> Denied msg) ->
  exists mt,
    OpenFile w p
    = ({| clock := clock w;
          fs := match fs w p with
                | Absent => fs_set (fs w) p (Regular [] (clock w))
                | _ => fs w
                end;
          transport := transport w;
          files := files w ++ [{| f_path := p; f_offset := 0%N; f_closed := false |}];
          remotes := remotes w; opened := opened w |},
       inl (length (files w)))
    /\ match fs w p with
       | Absent => fs_set (fs w) p (Regular [] (clock w))
       | _ => fs w
       end p = Regular (present w p) mt.
Proof.
  intros Hok. unfold OpenFile, present.
  destruct (fs w p) as [|d mt|msg] eqn:E.
  - exists (clock w). split; [done|]. unfold fs_set. by rewrite String.eqb_refl.
  - exists mt. by split.
  - exfalso. by eapply Hok.
Qed.

(** The last call of the step function, whatever the end of the stream. *)
Lemma copyTick_end w0 w h r p old ending pre last :
  copying w0 w h r p old ending pre last ->
  (lenN last < copyBlockSize)%N ->
  exists w',
    copyTick h r w = (w', copy_outcome h ending)
    /\ copying w0 w' h r p old ending (pre ++ last) [].
Proof.
  intros [Hf Hr [mt Hfs] Hc Hl] Hlast.
  unfold copyTick, CopyN. rewrite Hf, Hr. cbn [f_closed r_rest r_ending r_closed].
  rewrite (takeN_short _ last), (dropN_short _ last) by lia.
  destruct (N.eqb_spec (lenN last) copyBlockSize) as [E|_]; [lia|].
  eexists. split.
  { unfold copy_outcome. destruct ending as [e|]; [|reflexivity].
    destruct (error_eqb e EOF); reflexivity. }
  unfold write_file. cbn [f_path f_offset f_closed]. rewrite Hfs.
  destruct last as [|x last].
  - rewrite app_nil_r.
    split; cbn [files remotes fs clock with_files with_fs with_remotes]; try done.
    + rewrite list_lookup_insert_eq; [done|]. by eapply lookup_lt_Some.
    + by exists mt.
  - split; cbn [files remotes fs clock with_files with_fs with_remotes].
    + rewrite list_lookup_insert_eq by (by eapply lookup_lt_Some).
      by rewrite lenN_app.
    + rewrite list_lookup_insert_eq; [done|]. by eapply lookup_lt_Some.
    + eexists. unfold fs_set. rewrite String.eqb_refl.
      by rewrite write_at_append.
    + done.
    + by rewrite length_insert.
Qed.

Lemma copy_outcome_some (h : nat) (ending : option error) :
  (copy_outcome h ending).1 <> None \/ (copy_outcome h ending).2 <> None.
Proof.
  unfold copy_outcome. destruct ending as [e|]; [|by left].
  destruct (error_eqb e EOF); [by left | by right].
Qed.

(** The last call of a step function, from the select to the return. *)
Lemma Run_last_call {W V} (a : AState W V) (t : RunThread W V) (w : W)
    (val : option V) (err : option error) :
  a_quit (ab a) <> Some ChanClosed -> pc t = L44 ->
  tick t (world a) = (w, (val, err)) ->
  val <> None \/ err <> None ->
  Run_steps 4 a t
  = Some ({| ab := set_quit None (ab a); world := w;
             chans := alter (delivered val err) (ch t) (chans a) |},
          at_pc LEnd t).
Proof.
  intros Hq Hpc Htk Hsome. destruct a as [[m q] w1 cs], t as [p tk c].
  simpl in *; subst. unfold Run_step at 1. cbn [pc ab a_quit].
  assert (Run_step {| ab := {| a_mu := m; a_quit := q |}; world := w1; chans := cs |}
            (at_pc L49 {| pc := L44; tick := tk; ch := c |})
          = match val, err with
            | Some v, _ => Some (with_world w {| ab := {| a_mu := m; a_quit := q |};
                                                world := w1; chans := cs |},
                                 {| pc := L51 v; tick := tk; ch := c |})
            | None, Some e => Some (with_world w {| ab := {| a_mu := m; a_quit := q |};
                                                   world := w1; chans := cs |},
                                    {| pc := L54 e; tick := tk; ch := c |})
            | None, None => None
            end) as Hstep.
  { unfold Run_step. simpl. rewrite Htk. destruct val, err; try done.
    by destruct Hsome. }
  destruct q as [[]|]; try done; rewrite Hstep;
    destruct val as [v|]; try destruct err as [e|]; try reflexivity;
    by destruct Hsome.
Qed.

(** A whole run of the copy: the goroutine installs the cancellation
    channel, copies the whole blocks and the last, shorter one, delivers
    the outcome and clears the channel. *)
Lemma Run_copies (a : AState World nat) w0 h r c p old ending
    (blks : list bytes) (last : bytes) :
  a_mu (ab a) = false ->
  a_quit (ab a) = None ->
  copying w0 (world a) h r p old ending [] (concat blks ++ last) ->
  Forall (fun b => lenN b = copyBlockSize) blks ->
  (lenN last < copyBlockSize)%N ->
  exists w2,
    Run_steps (4 + (2 * length blks + 4)) a
      {| pc := L33; tick := copyTick h r; ch := c |}
    = Some ({| ab := ab a; world := w2;
               chans := alter (delivered (copy_outcome h ending).1
                                         (copy_outcome h ending).2) c (chans a) |},
            {| pc := LEnd; tick := copyTick h r; ch := c |})
    /\ copying w0 w2 h r p old ending (concat blks ++ last) [].
Proof.
  intros Hmu Hq Hcp Hblks Hlast.
  rewrite Run_steps_add,
    (run_enters a {| pc := L33; tick := copyTick h r; ch := c |} Hmu Hq eq_refl).
  unfold at_pc. cbn [pc tick ch].
  set (a1 := with_ab _ a).
  destruct (copy_blocks w0 h r c p old ending blks Hblks a1 [] last Hcp
              ltac:(done)) as (w1 & Hrun & Hcp1).
  rewrite Run_steps_add, Hrun. change ([] ++ concat blks) with (concat blks) in Hcp1.
  destruct (copyTick_end _ _ _ _ _ _ _ _ _ Hcp1 Hlast) as (w2 & Htk & Hcp2).
  exists w2. split; [|done].
  rewrite (Run_last_call _ _ w2 (copy_outcome h ending).1 (copy_outcome h ending).2);
    [| done | done | simpl; rewrite Htk; by destruct (copy_outcome h ending)
     | apply copy_outcome_some ].
  unfold a1. destruct a as [[m q] w cs]. simpl in *. by subst.
Qed.

Section Traces.
Context {P : Type} {PlanP : Plan P}.
Implicit Types (s : Shared P).

Lemma Fetch_enters_any s (data : bytes) (ending : option error) :
  mu (mgr s) = {| writer := false; readers := 0 |} ->
  String.eqb (LocalPath (plan (mgr s))) (RemotePath (plan (mgr s))) = false ->
  (forall msg, fs (world (ast s)) (LocalPath (plan (mgr s))) <> Denied msg) ->
  transport (world (ast s)) (RemotePath (plan (mgr s))) = inr (data, ending) ->
  solo thread_step 4 s (TFetch F75)
  = Some (inside {| writer := true; readers := 0 |} s data ending,
          TFetch (F77 (LF104 (length (files (world (ast s))))
                             (length (remotes (world (ast s))))))).
Proof.
  intros Hmu Hne Hok Htr. cbn [solo].
  destruct (OpenFile_ok _ _ Hok) as (mt & HO & _).
  assert (thread_step s (TFetch F75)
          = Some (with_mgr (set_rw {| writer := true; readers := 0 |}) s,
                  TFetch (F77 LF91), [])) as ->.
  { cbn [thread_step Fetch_step]. unfold lock. by rewrite Hmu. }
  set (s1 := with_mgr _ s).
  assert (thread_step s1 (TFetch (F77 LF91))
          = Some (on_world (fun _ => (OpenFile (world (ast s)) (LocalPath (plan (mgr s)))).1) s1,
                  TFetch (F77 (LF95 (length (files (world (ast s)))))), [])) as ->.
  { cbn [thread_step Fetch_step lockedFetch_step]. simpl. by rewrite HO. }
  set (s2 := on_world _ s1).
  assert (thread_step s2 (TFetch (F77 (LF95 (length (files (world (ast s)))))))
          = Some (s2, TFetch (F77 (LF96 (length (files (world (ast s)))))), [])) as ->.
  { cbn [thread_step Fetch_step lockedFetch_step]. simpl. by rewrite Hne. }
  assert (thread_step s2 (TFetch (F77 (LF96 (length (files (world (ast s)))))))
          = Some (inside {| writer := true; readers := 0 |} s data ending,
                  TFetch (F77 (LF104 (length (files (world (ast s))))
                                     (length (remotes (world (ast s)))))), [])) as ->.
  { cbn [thread_step Fetch_step lockedFetch_step]. unfold cloudfile_Open, inside.
    simpl. rewrite HO. simpl. by rewrite Htr. }
  done.
Qed.

Lemma Open_enters s (data : bytes) (ending : option error) :
  writer (mu (mgr s)) = false ->
  needsFetch (mgr s) (world (ast s)) = true ->
  String.eqb (LocalPath (plan (mgr s))) (RemotePath (plan (mgr s))) = false ->
  (forall msg, fs (world (ast s)) (LocalPath (plan (mgr s))) <> Denied msg) ->
  transport (world (ast s)) (RemotePath (plan (mgr s))) = inr (data, ending) ->
  solo thread_step 5 s (TOpen O63)
  = Some (inside {| writer := false; readers := Datatypes.S (readers (mu (mgr s))) |}
            s data ending,
          TOpen (O67 (LF104 (length (files (world (ast s))))
                            (length (remotes (world (ast s))))))).
Proof.
  intros Hw Hdue Hne Hok Htr. cbn [solo].
  destruct (OpenFile_ok _ _ Hok) as (mt & HO & _).
  assert (thread_step s (TOpen O63)
          = Some (with_mgr (set_rw {| writer := false;
                                      readers := Datatypes.S (readers (mu (mgr s))) |}) s,
                  TOpen O66, [])) as ->.
  { cbn [thread_step Open_step]. unfold rlock. by rewrite Hw. }
  set (s1 := with_mgr _ s).
  assert (thread_step s1 (TOpen O66) = Some (s1, TOpen (O67 LF91), [])) as ->.
  { cbn [thread_step Open_step].
    change (needsFetch (mgr s1) (world (ast s1)))
      with (needsFetch (mgr s) (world (ast s))).
    by rewrite Hdue. }
  assert (thread_step s1 (TOpen (O67 LF91))
          = Some (on_world (fun _ => (OpenFile (world (ast s)) (LocalPath (plan (mgr s)))).1) s1,
                  TOpen (O67 (LF95 (length (files (world (ast s)))))), [])) as ->.
  { cbn [thread_step Open_step lockedFetch_step]. simpl. by rewrite HO. }
  set (s2 := on_world _ s1).
  assert (thread_step s2 (TOpen (O67 (LF95 (length (files (world (ast s)))))))
          = Some (s2, TOpen (O67 (LF96 (length (files (world (ast s)))))), [])) as ->.
  { cbn [thread_step Open_step lockedFetch_step]. simpl. by rewrite Hne. }
  assert (thread_step s2 (TOpen (O67 (LF96 (length (files (world (ast s)))))))
          = Some (inside {| writer := false;
                            readers := Datatypes.S (readers (mu (mgr s))) |} s data ending,
                  TOpen (O67 (LF104 (length (files (world (ast s))))
                                    (length (remotes (world (ast s)))))), [])) as ->.
  { cbn [thread_step Open_step lockedFetch_step]. unfold cloudfile_Open, inside.
    simpl. rewrite HO. simpl. by rewrite Htr. }
  done.
Qed.

Lemma inside_copying (l : RWMutex) s (data : bytes) (ending : option error) :
  (forall msg, fs (world (ast s)) (LocalPath (plan (mgr s))) <> Denied msg) ->
  copying (world (ast (inside l s data ending))) (world (ast (inside l s data ending)))
    (length (files (world (ast s)))) (length (remotes (world (ast s))))
    (LocalPath (plan (mgr s))) (present (world (ast s)) (LocalPath (plan (mgr s))))
    ending [] data.
Proof.
  intros Hok. destruct (OpenFile_ok _ _ Hok) as (mt & HO & Hfs).
  unfold inside. rewrite HO. split; simpl.
  - by rewrite lookup_app_r, Nat.sub_diag by lia.
  - by rewrite lookup_app_r, Nat.sub_diag by lia.
  - exists mt. by rewrite dropN_0.
  - done.
  - done.
Qed.
End Traces.

Lemma copy_outcome_ends (h : nat) (ending : option error) :
  copy_outcome h ending = if ends_well ending then (Some h, None) else (None, ending).
Proof.
  unfold copy_outcome, ends_well. destruct ending as [e|]; [|done].
  by destruct (error_eqb e EOF).
Qed.

Lemma copyTick_kept (h r : nat) (w0 w : World) :
  kept w0 w -> kept w0 (copyTick h r w).1.
Proof.
  intros (Ho & Ht & Hl). unfold copyTick, CopyN.
  destruct (files w !! h) as [f|]; [|done].
  destruct (remotes w !! r) as [x|] eqn:Er; [|done].
  destruct (f_closed f); [done|].
  assert (kept w0 (with_remotes
            (<[r:={| r_rest := dropN copyBlockSize (r_rest x); r_ending := r_ending x;
                     r_closed := r_closed x |}]>
               (remotes (write_file w h f (takeN copyBlockSize (r_rest x)))))
            (write_file w h f (takeN copyBlockSize (r_rest x))))) as Hk.
  { unfold kept, write_file.
    destruct (takeN copyBlockSize (r_rest x)) as [|b bs]; simpl.
    - by rewrite length_insert.
    - destruct (fs w (f_path f)); simpl; by rewrite length_insert. }
  destruct (lenN _ =? _)%N; [done|].
  by destruct (error_eqb _ EOF).
Qed.

Lemma Run_step_kept (h r : nat) (w0 : World) (a a' : AState World nat)
    (t t' : RunThread World nat) :
  tick t = copyTick h r ->
  Run_step a t = Some (a', t') ->
  kept w0 (world a) -> kept w0 (world a') /\ tick t' = copyTick h r.
Proof.
  intros Htk Hs Hk. destruct t as [p tk c]. simpl in Htk. subst tk.
  unfold Run_step in Hs. cbn [pc tick] in Hs.
  destruct p; try (repeat case_match; simplify_eq; done).
  pose proof (copyTick_kept h r w0 (world a) Hk) as Hk'.
  destruct (copyTick h r (world a)) as [w1 [v e]]. simpl in Hk'.
  destruct v, e; simplify_eq; done.
Qed.

Lemma Run_steps_kept (n : nat) (h r : nat) (w0 : World) (a a' : AState World nat)
    (t t' : RunThread World nat) :
  copyTick h r = tick t ->
  Run_steps n a t = Some (a', t') ->
  kept w0 (world a) -> kept w0 (world a').
Proof.
  revert a t. induction n as [|n IH]; intros a t Htk Hs Hk; simpl in Hs.
  - by simplify_eq.
  - destruct (Run_step a t) as [[a1 t1]|] eqn:E; [|done].
    destruct (Run_step_kept h r w0 _ _ _ _ (eq_sym Htk) E Hk) as [Hk1 Htk1].
    eapply IH; [symmetry; exact Htk1|exact Hs|exact Hk1].
Qed.

Section FetchTraces.
Context {P : Type} {PlanP : Plan P}.
Implicit Types (s : Shared P).


(** From the call of Run to the end of the run's goroutine. *)
Lemma copy_runs s (l : list Thread) (i : nat) (t104 t114 : Thread)
    w0 h r p old ending (blks : list bytes) (last : bytes) :
  l !! i = Some t104 ->
  thread_step s t104
  = Some (with_ast (Run (ast s) (copyTick h r)).1.1 s, t114,
          [TRun (Run (ast s) (copyTick h r)).2]) ->
  ab (ast s) = {| a_mu := false; a_quit := None |} ->
  copying w0 (world (ast s)) h r p old ending [] (concat blks ++ last) ->
  Forall (fun b => lenN b = copyBlockSize) blks ->
  (lenN last < copyBlockSize)%N ->
  exists w2,
    mexec {| shared := s; pool := l |}
      ([Go i] ++ repeat (Go (length l)) (4 + (2 * length blks + 4)))
    = Some {| shared :=
                with_ast {| ab := ab (ast s); world := w2;
                            chans := chans (ast s)
                                     ++ [delivered (copy_outcome h ending).1
                                           (copy_outcome h ending).2
                                           {| result := None; errs := None |}] |} s;
              pool := <[i:=t114]> l
                      ++ [TRun {| pc := LEnd; tick := copyTick h r;
                                  ch := length (chans (ast s)) |}] |}
    /\ copying w0 w2 h r p old ending (concat blks ++ last) []
    /\ kept (world (ast s)) w2.
Proof.
  intros Hi Hcall Hab Hcp Hblks Hlast.
  set (a1 := (Run (ast s) (copyTick h r)).1.1).
  destruct (Run_copies a1 w0 h r (length (chans (ast s))) p old ending blks last)
    as (w2 & Hrun & Hcp2); try done.
  { unfold a1. simpl. by rewrite Hab. }
  { unfold a1. simpl. by rewrite Hab. }
  exists w2. split; [|split; [done|]].
  - unfold mexec. rewrite exec_app. cbn [exec].
    erewrite step_go; [|exact Hi|exact Hcall].
    cbn [shared pool].
    rewrite (exec_solo thread_step env_step _ _ _ (length l)
               (TRun (Run (ast s) (copyTick h r)).2)
               (with_ast {| ab := ab (ast s); world := w2;
                            chans := chans (ast s)
                                     ++ [delivered (copy_outcome h ending).1
                                           (copy_outcome h ending).2
                                           {| result := None; errs := None |}] |} s)
               (TRun {| pc := LEnd; tick := copyTick h r;
                        ch := length (chans (ast s)) |})).
    + rewrite insert_app_r_alt by (by rewrite length_insert).
      by rewrite length_insert, Nat.sub_diag.
    + rewrite lookup_app_r by (by rewrite length_insert).
      by rewrite length_insert, Nat.sub_diag.
    + erewrite solo_run; [|exact Hrun]. do 2 f_equal.
      unfold with_ast, a1. simpl. by rewrite alter_last.
  - pose proof (Run_steps_kept _ h r (world (ast s)) a1 _
                  {| pc := L33; tick := copyTick h r; ch := length (chans (ast s)) |}
                  _ eq_refl Hrun) as Hk.
    by apply Hk.
Qed.

Lemma caller_returns s (l extra : list Thread) (i n : nat) (tmid : Thread) s' t' :
  (i < length l)%nat ->
  solo thread_step n s tmid = Some (s', t') ->
  mexec {| shared := s; pool := <[i:=tmid]> l ++ extra |} (repeat (Go i) n)
  = Some {| shared := s'; pool := <[i:=t']> l ++ extra |}.
Proof.
  intros Hi Hsolo. unfold mexec.
  rewrite (exec_solo thread_step env_step n s _ i tmid s' t'); [|
    by rewrite lookup_app_l, list_lookup_insert_eq by (by rewrite ?length_insert) | done].
  by rewrite insert_app_l, list_insert_insert_eq by (by rewrite length_insert).
Qed.

(** The caller of lockedFetch from its entry up to the end of the run it
    has started. *)
Lemma enter_and_copy s0 (l : list Thread) (i n : nat) (t0 t104 t114 : Thread)
    (lk : RWMutex) (data : bytes) (ending : option error)
    (blks : list bytes) (last : bytes) :
  let h := length (files (world (ast s0))) in
  let r := length (remotes (world (ast s0))) in
  l !! i = Some t0 ->
  solo thread_step n s0 t0 = Some (inside lk s0 data ending, t104) ->
  thread_step (inside lk s0 data ending) t104
  = Some (with_ast (Run (ast (inside lk s0 data ending)) (copyTick h r)).1.1
            (inside lk s0 data ending), t114,
          [TRun (Run (ast (inside lk s0 data ending)) (copyTick h r)).2]) ->
  ab (ast s0) = {| a_mu := false; a_quit := None |} ->
  (forall msg, fs (world (ast s0)) (LocalPath (plan (mgr s0))) <> Denied msg) ->
  data = concat blks ++ last ->
  Forall (fun b => lenN b = copyBlockSize) blks ->
  (lenN last < copyBlockSize)%N ->
  exists w2,
    mexec {| shared := s0; pool := l |}
      (repeat (Go i) n ++ [Go i]
         ++ repeat (Go (length l)) (4 + (2 * length blks + 4)))
    = Some {| shared :=
                {| mgr := set_rw lk (mgr s0);
                   ast := {| ab := ab (ast s0); world := w2;
                             chans := chans (ast s0)
                                      ++ [delivered (copy_outcome h ending).1
                                            (copy_outcome h ending).2
                                            {| result := None; errs := None |}] |} |};
              pool := <[i:=t114]> l
                      ++ [TRun {| pc := LEnd; tick := copyTick h r;
                                  ch := length (chans (ast s0)) |}] |}
    /\ files w2 !! h
       = Some {| f_path := LocalPath (plan (mgr s0)); f_offset := lenN data;
                 f_closed := false |}
    /\ remotes w2 !! r
       = Some {| r_rest := []; r_ending := ending; r_closed := false |}
    /\ (exists mt,
          fs w2 (LocalPath (plan (mgr s0)))
          = Regular (data ++ dropN (lenN data)
                               (present (world (ast s0)) (LocalPath (plan (mgr s0)))))
              mt)
    /\ clock w2 = clock (world (ast s0))
    /\ length (files w2) = Datatypes.S (length (files (world (ast s0))))
    /\ opened w2 = Datatypes.S (opened (world (ast s0)))
    /\ transport w2 = transport (world (ast s0))
    /\ length (remotes w2) = Datatypes.S (length (remotes (world (ast s0)))).
Proof.
  intros h r Hi Henter Hcall Hab Hok -> Hblks Hlast.
  pose proof (inside_copying lk s0 (concat blks ++ last) ending Hok) as Hcp.
  set (sI := inside lk s0 (concat blks ++ last) ending) in *.
  destruct (copy_runs sI (<[i:=t104]> l) i t104 t114 (world (ast sI)) h r
              (LocalPath (plan (mgr s0)))
              (present (world (ast s0)) (LocalPath (plan (mgr s0))))
              ending blks last) as (w2 & Hex & Hcp2 & Hk); try done.
  { apply list_lookup_insert_eq. by eapply lookup_lt_Some. }
  exists w2. unfold mexec in *. rewrite exec_app.
  rewrite (exec_solo thread_step env_step n s0 l i t0 sI t104 Hi Henter).
  rewrite length_insert, list_insert_insert_eq in Hex. rewrite Hex.
  destruct (OpenFile_ok _ _ Hok) as (mt & HO & _).
  split; [done|].
  destruct Hcp2 as [Hf Hr Hfs Hc Hl].
  destruct Hk as (Ho & Ht & Hlr). unfold sI, inside in Hc, Hl, Ho, Ht, Hlr.
  rewrite HO in Hc, Hl, Ho, Ht, Hlr. simpl in Hc, Hl, Ho, Ht, Hlr.
  rewrite length_app in Hl, Hlr. simpl in Hl, Hlr.
  repeat split; try done; lia.
Qed.

Lemma open_succeeds s (file remoteFile c v : nat) :
  chans (ast s) !! c = Some {| result := Some v; errs := None |} ->
  solo thread_step 5 s (TOpen (O67 (LF114 file remoteFile c)))
  = Some (with_mgr (fun m => set_rw (runlock (mu m)) m)
            (on_world (fun w => CloseRemote w remoteFile)
               (on_world (fun w => Seek0 w file)
                  (with_mgr (set_lastFetchedAt (clock (world (ast s)))) s))),
          TOpen (ODone (Some file, None))).
Proof.
  intros Hc. cbn [solo].
  assert (thread_step s (TOpen (O67 (LF114 file remoteFile c)))
          = Some (s, TOpen (O67 (LF116 file remoteFile)), [])) as ->.
  { cbn [thread_step Open_step lockedFetch_step]. by rewrite Hc. }
  reflexivity.
Qed.

(** A call of lockedFetch that copies a stream ending well, whoever the
    caller: [t0] reaches the call of Run in [n] steps holding the lock as
    [lk], and returns from the select in five steps as [tdone]. *)
Lemma refresh_trace s0 (l : list Thread) (i n : nat) (t0 t104 t114 tdone : Thread)
    (lk : RWMutex) (data : bytes) (ending : option error)
    (blks : list bytes) (last : bytes) :
  let p := LocalPath (plan (mgr s0)) in
  let w0 := world (ast s0) in
  let h := length (files w0) in
  let r := length (remotes w0) in
  l !! i = Some t0 ->
  solo thread_step n s0 t0 = Some (inside lk s0 data ending, t104) ->
  thread_step (inside lk s0 data ending) t104
  = Some (with_ast (Run (ast (inside lk s0 data ending)) (copyTick h r)).1.1
            (inside lk s0 data ending), t114,
          [TRun (Run (ast (inside lk s0 data ending)) (copyTick h r)).2]) ->
  (forall w2,
     solo thread_step 5
       {| mgr := set_rw lk (mgr s0);
          ast := {| ab := ab (ast s0); world := w2;
                    chans := chans (ast s0) ++ [{| result := Some h; errs := None |}] |} |}
       t114
     = Some ({| mgr := set_lastFetchedAt (clock w2) (mgr s0);
                ast := {| ab := ab (ast s0); world := CloseRemote (Seek0 w2 h) r;
                          chans := chans (ast s0)
                                   ++ [{| result := Some h; errs := None |}] |} |},
             tdone)) ->
  ab (ast s0) = {| a_mu := false; a_quit := None |} ->
  (forall msg, fs w0 p <> Denied msg) ->
  ends_well ending = true ->
  data = concat blks ++ last ->
  Forall (fun b => lenN b = copyBlockSize) blks ->
  (lenN last < copyBlockSize)%N ->
  exists s1,
    mexec {| shared := s0; pool := l |} (copy_schedule i (length l) n (length blks) 5)
    = Some {| shared := s1;
              pool := <[i:=tdone]> l
                      ++ [TRun {| pc := LEnd; tick := copyTick h r;
                                  ch := length (chans (ast s0)) |}] |}
    /\ mgr s1 = set_lastFetchedAt (clock w0) (mgr s0)
    /\ ab (ast s1) = ab (ast s0)
    /\ (exists mt,
          fs (world (ast s1)) p = Regular (data ++ dropN (lenN data) (present w0 p)) mt)
    /\ files (world (ast s1)) !! h
       = Some {| f_path := p; f_offset := 0%N; f_closed := false |}
    /\ remotes (world (ast s1)) !! r
       = Some {| r_rest := []; r_ending := ending; r_closed := true |}
    /\ opened (world (ast s1)) = Datatypes.S (opened w0)
    /\ clock (world (ast s1)) = clock w0
    /\ length (files (world (ast s1))) = Datatypes.S h.
Proof.
  intros p w0 h r Hi Henter Hcall Hret Hab Hok Hend Hdata Hblks Hlast.
  destruct (enter_and_copy s0 l i n t0 t104 t114 lk data ending blks last)
    as (w2 & Hex & Hf & Hr & Hfs & Hc & Hlf & Ho & _ & Hlr); try done.
  subst h r p w0. unfold copy_schedule, mexec in *.
  rewrite !app_assoc, exec_app, <- !app_assoc, Hex. clear Hex.
  rewrite copy_outcome_ends, Hend. cbn [fst snd delivered].
  eexists. split.
  { apply caller_returns; [by eapply lookup_lt_Some|]. apply Hret. }
  cbn [mgr ast world ab Seek0 CloseRemote
       with_files with_remotes files remotes fs opened clock].
  split; [by rewrite Hc|].
  split; [done|]. split; [done|]. split.
  { by rewrite list_lookup_alter_eq, Hf. }
  split; [by rewrite list_lookup_alter_eq, Hr|].
  split; [done|]. split; [done|]. by rewrite length_alter.
Qed.

(** X8: Fetch with a local path that differs from the remote identifier and
    a stream that ends well: the whole stream is copied over the start of
    the local file, which is returned at offset 0; lastFetchedAt is the
    time of the call; the stream has been closed, the transport opened
    once, and the lock and the abortable are free again. *)
Theorem X8_Fetch_copies_the_stream s0 (l : list Thread) (i : nat)
    (data : bytes) (ending : option error) (blks : list bytes) (last : bytes) :
  let p := LocalPath (plan (mgr s0)) in
  let w0 := world (ast s0) in
  let h := length (files w0) in
  let r := length (remotes w0) in
  l !! i = Some (TFetch F75) ->
  mu (mgr s0) = {| writer := false; readers := 0 |} ->
  ab (ast s0) = {| a_mu := false; a_quit := None |} ->
  String.eqb p (RemotePath (plan (mgr s0))) = false ->
  (forall msg, fs w0 p <> Denied msg) ->
  transport w0 (RemotePath (plan (mgr s0))) = inr (data, ending) ->
  ends_well ending = true ->
  data = concat blks ++ last ->
  Forall (fun b => lenN b = copyBlockSize) blks ->
  (lenN last < copyBlockSize)%N ->
  exists s1,
    mexec {| shared := s0; pool := l |} (copy_schedule i (length l) 4 (length blks) 5)
    = Some {| shared := s1;
              pool := <[i:=TFetch (FDone (Some h, None))]> l
                      ++ [TRun {| pc := LEnd; tick := copyTick h r;
                                  ch := length (chans (ast s0)) |}] |}
    /\ mgr s1 = set_lastFetchedAt (clock w0) (mgr s0)
    /\ ab (ast s1) = ab (ast s0)
    /\ (exists mt,
          fs (world (ast s1)) p = Regular (data ++ dropN (lenN data) (present w0 p)) mt)
    /\ files (world (ast s1)) !! h
       = Some {| f_path := p; f_offset := 0%N; f_closed := false |}
    /\ remotes (world (ast s1)) !! r
       = Some {| r_rest := []; r_ending := ending; r_closed := true |}
    /\ opened (world (ast s1)) = Datatypes.S (opened w0)
    /\ clock (world (ast s1)) = clock w0.
Proof.
  intros p w0 h r Hi Hmu Hab Hne Hok Htr Hend Hdata Hblks Hlast.
  destruct (refresh_trace s0 l i 4 (TFetch F75) (TFetch (F77 (LF104 h r)))
              (TFetch (F77 (LF114 h r (length (chans (ast s0))))))
              (TFetch (FDone (Some h, None)))
              {| writer := true; readers := 0 |} data ending blks last)
    as (s1 & Hex & Hm & Ha & Hfs & Hf & Hr & Ho & Hc & _); try done.
  { by apply Fetch_enters_any. }
  { intros w2. rewrite (fetch_succeeds _ _ _ _ h);
      [|cbn [ast chans]; by rewrite lookup_app_r, Nat.sub_diag by lia].
    do 2 f_equal. unfold with_mgr, on_world, with_world. simpl. f_equal.
    destruct (mgr s0) as [pl t tm lk q]. simpl in *. by subst lk. }
  by exists s1.
Qed.

(** X9: Fetch with a stream that fails with [e] after [data]: Fetch returns
    [e] and no file, the manager is as before (lastFetchedAt is not
    updated), the local file holds the bytes received followed by what it
    had beyond them, and the stream has been closed. *)
Theorem X9_Fetch_read_error s0 (l : list Thread) (i : nat)
    (data : bytes) (e : error) (blks : list bytes) (last : bytes) :
  let p := LocalPath (plan (mgr s0)) in
  let w0 := world (ast s0) in
  let h := length (files w0) in
  let r := length (remotes w0) in
  l !! i = Some (TFetch F75) ->
  mu (mgr s0) = {| writer := false; readers := 0 |} ->
  ab (ast s0) = {| a_mu := false; a_quit := None |} ->
  String.eqb p (RemotePath (plan (mgr s0))) = false ->
  (forall msg, fs w0 p <> Denied msg) ->
  transport w0 (RemotePath (plan (mgr s0))) = inr (data, Some e) ->
  error_eqb e EOF = false ->
  data = concat blks ++ last ->
  Forall (fun b => lenN b = copyBlockSize) blks ->
  (lenN last < copyBlockSize)%N ->
  exists s1,
    mexec {| shared := s0; pool := l |} (copy_schedule i (length l) 4 (length blks) 4)
    = Some {| shared := s1;
              pool := <[i:=TFetch (FDone (None, Some e))]> l
                      ++ [TRun {| pc := LEnd; tick := copyTick h r;
                                  ch := length (chans (ast s0)) |}] |}
    /\ mgr s1 = mgr s0
    /\ ab (ast s1) = ab (ast s0)
    /\ (exists mt,
          fs (world (ast s1)) p = Regular (data ++ dropN (lenN data) (present w0 p)) mt)
    /\ files (world (ast s1)) !! h
       = Some {| f_path := p; f_offset := 0%N; f_closed := false |}
    /\ remotes (world (ast s1)) !! r
       = Some {| r_rest := []; r_ending := Some e; r_closed := true |}
    /\ opened (world (ast s1)) = Datatypes.S (opened w0).
Proof.
  intros p w0 h r Hi Hmu Hab Hne Hok Htr Hend Hdata Hblks Hlast.
  destruct (enter_and_copy s0 l i 4 (TFetch F75) (TFetch (F77 (LF104 h r)))
              (TFetch (F77 (LF114 h r (length (chans (ast s0))))))
              {| writer := true; readers := 0 |} data (Some e) blks last)
    as (w2 & Hex & Hf & Hr & Hfs & Hc & Hlf & Ho & _ & Hlr); try done.
  { by apply Fetch_enters_any. }
  subst h r p w0. unfold copy_schedule, mexec in *.
  rewrite !app_assoc, exec_app, <- !app_assoc, Hex. clear Hex.
  rewrite copy_outcome_ends. cbn [ends_well]. rewrite Hend. cbn [fst snd delivered].
  eexists. split.
  { apply caller_returns; [by eapply lookup_lt_Some|].
    apply (fetch_fails _ _ _ _ e). cbn [ast chans].
    by rewrite lookup_app_r, Nat.sub_diag by lia. }
  cbn [mgr ast world ab with_mgr on_world with_world Seek0 CloseRemote
       with_files with_remotes files remotes fs opened clock].
  split.
  { destruct (mgr s0) as [pl t n lk q]. simpl in *. by subst lk. }
  split; [done|]. split; [done|]. split.
  { by rewrite list_lookup_alter_eq, Hf. }
  split; [by rewrite list_lookup_alter_eq, Hr|]. done.
Qed.

Lemma Open_refreshes s0 (l : list Thread) (i : nat)
    (data : bytes) (ending : option error) (blks : list bytes) (last : bytes) :
  let p := LocalPath (plan (mgr s0)) in
  let w0 := world (ast s0) in
  let h := length (files w0) in
  let r := length (remotes w0) in
  l !! i = Some (TOpen O63) ->
  writer (mu (mgr s0)) = false ->
  needsFetch (mgr s0) w0 = true ->
  ab (ast s0) = {| a_mu := false; a_quit := None |} ->
  String.eqb p (RemotePath (plan (mgr s0))) = false ->
  (forall msg, fs w0 p <> Denied msg) ->
  transport w0 (RemotePath (plan (mgr s0))) = inr (data, ending) ->
  ends_well ending = true ->
  data = concat blks ++ last ->
  Forall (fun b => lenN b = copyBlockSize) blks ->
  (lenN last < copyBlockSize)%N ->
  exists s1,
    mexec {| shared := s0; pool := l |} (copy_schedule i (length l) 5 (length blks) 5)
    = Some {| shared := s1;
              pool := <[i:=TOpen (ODone (Some h, None))]> l
                      ++ [TRun {| pc := LEnd; tick := copyTick h r;
                                  ch := length (chans (ast s0)) |}] |}
    /\ mgr s1 = set_lastFetchedAt (clock w0) (mgr s0)
    /\ ab (ast s1) = ab (ast s0)
    /\ (exists mt,
          fs (world (ast s1)) p = Regular (data ++ dropN (lenN data) (present w0 p)) mt)
    /\ files (world (ast s1)) !! h
       = Some {| f_path := p; f_offset := 0%N; f_closed := false |}
    /\ remotes (world (ast s1)) !! r
       = Some {| r_rest := []; r_ending := ending; r_closed := true |}
    /\ opened (world (ast s1)) = Datatypes.S (opened w0)
    /\ clock (world (ast s1)) = clock w0
    /\ length (files (world (ast s1))) = Datatypes.S h.
Proof.
  intros p w0 h r Hi Hw Hdue Hab Hne Hok Htr Hend Hdata Hblks Hlast.
  apply (refresh_trace s0 l i 5 (TOpen O63) (TOpen (O67 (LF104 h r)))
              (TOpen (O67 (LF114 h r (length (chans (ast s0))))))
              (TOpen (ODone (Some h, None)))
              {| writer := false; readers := Datatypes.S (readers (mu (mgr s0))) |}
              data ending blks last); try done.
  { by apply Open_enters. }
  intros w2. rewrite (open_succeeds _ _ _ _ h);
    [|cbn [ast chans]; by rewrite lookup_app_r, Nat.sub_diag by lia].
  do 2 f_equal. unfold with_mgr, on_world, with_world. simpl. f_equal.
  destruct (mgr s0) as [pl t tm [wr rd] q]. simpl in *. by subst wr.
Qed.

(** X10: Open when a refresh is due: Open fetches under the read lock and
    returns the refreshed file at offset 0; lastFetchedAt is the time of
    the call and the read lock has been released. *)
Theorem X10_Open_fetches_when_due s0 (l : list Thread) (i : nat)
    (data : bytes) (ending : option error) (blks : list bytes) (last : bytes) :
  let p := LocalPath (plan (mgr s0)) in
  let w0 := world (ast s0) in
  let h := length (files w0) in
  let r := length (remotes w0) in
  l !! i = Some (TOpen O63) ->
  writer (mu (mgr s0)) = false ->
  needsFetch (mgr s0) w0 = true ->
  ab (ast s0) = {| a_mu := false; a_quit := None |} ->
  String.eqb p (RemotePath (plan (mgr s0))) = false ->
  (forall msg, fs w0 p <> Denied msg) ->
  transport w0 (RemotePath (plan (mgr s0))) = inr (data, ending) ->
  ends_well ending = true ->
  data = concat blks ++ last ->
  Forall (fun b => lenN b = copyBlockSize) blks ->
  (lenN last < copyBlockSize)%N ->
  exists s1,
    mexec {| shared := s0; pool := l |} (copy_schedule i (length l) 5 (length blks) 5)
    = Some {| shared := s1;
              pool := <[i:=TOpen (ODone (Some h, None))]> l
                      ++ [TRun {| pc := LEnd; tick := copyTick h r;
                                  ch := length (chans (ast s0)) |}] |}
    /\ mgr s1 = set_lastFetchedAt (clock w0) (mgr s0)
    /\ ab (ast s1) = ab (ast s0)
    /\ (exists mt,
          fs (world (ast s1)) p = Regular (data ++ dropN (lenN data) (present w0 p)) mt)
    /\ files (world (ast s1)) !! h
       = Some {| f_path := p; f_offset := 0%N; f_closed := false |}
    /\ remotes (world (ast s1)) !! r
       = Some {| r_rest := []; r_ending := ending; r_closed := true |}
    /\ opened (world (ast s1)) = Datatypes.S (opened w0)
    /\ clock (world (ast s1)) = clock w0.
Proof.
  intros p w0 h r Hi Hw Hdue Hab Hne Hok Htr Hend Hdata Hblks Hlast.
  destruct (Open_refreshes s0 l i data ending blks last)
    as (s1 & Hex & Hm & Ha & Hfs & Hf & Hr & Ho & Hc & _); try done.
  by exists s1.
Qed.

(** X11: Two calls of Open in a row, the second no later than one interval
    after the first (the two Opens of the test "Fetches a file as
    needed"): the first finds a refresh due and fetches, the second finds
    the cache fresh and opens the local file; the transport has been
    opened once. *)
Theorem X11_second_Open_reads_the_cache s0 (l : list Thread) (i j : nat)
    (data : bytes) (ending : option error) (blks : list bytes) (last : bytes)
    (d : Duration) :
  let p := LocalPath (plan (mgr s0)) in
  let w0 := world (ast s0) in
  let h := length (files w0) in
  let r := length (remotes w0) in
  l !! i = Some (TOpen O63) ->
  l !! j = Some (TOpen O63) ->
  i <> j ->
  writer (mu (mgr s0)) = false ->
  needsFetch (mgr s0) w0 = true ->
  ab (ast s0) = {| a_mu := false; a_quit := None |} ->
  String.eqb p (RemotePath (plan (mgr s0))) = false ->
  (forall msg, fs w0 p <> Denied msg) ->
  transport w0 (RemotePath (plan (mgr s0))) = inr (data, ending) ->
  ends_well ending = true ->
  data = concat blks ++ last ->
  Forall (fun b => lenN b = copyBlockSize) blks ->
  (lenN last < copyBlockSize)%N ->
  0 <= d <= UpdateInterval (plan (mgr s0)) ->
  exists s2,
    mexec {| shared := s0; pool := l |}
      (copy_schedule i (length l) 5 (length blks) 5
         ++ [Env (Advance d)] ++ repeat (Go j) 4)
    = Some {| shared := s2;
              pool := <[j:=TOpen (ODone (Some (Datatypes.S h), None))]>
                        (<[i:=TOpen (ODone (Some h, None))]> l)
                      ++ [TRun {| pc := LEnd; tick := copyTick h r;
                                  ch := length (chans (ast s0)) |}] |}
    /\ opened (world (ast s2)) = Datatypes.S (opened w0)
    /\ mgr s2 = set_lastFetchedAt (clock w0) (mgr s0)
    /\ (exists mt,
          fs (world (ast s2)) p = Regular (data ++ dropN (lenN data) (present w0 p)) mt)
    /\ files (world (ast s2)) !! h
       = Some {| f_path := p; f_offset := 0%N; f_closed := false |}
    /\ files (world (ast s2)) !! Datatypes.S h
       = Some {| f_path := p; f_offset := 0%N; f_closed := false |}.
Proof.
  intros p w0 h r Hi Hj Hij Hw Hdue Hab Hne Hok Htr Hend Hdata Hblks Hlast Hd.
  destruct (Open_refreshes s0 l i data ending blks last)
    as (s1 & Hex & Hm & Ha & [mt Hfs] & Hf & Hr & Ho & Hc & Hlf); try done.
  subst h r p w0. unfold mexec in *. rewrite exec_app, Hex. clear Hex.
  rewrite exec_app. cbn [exec step env_step shared pool].
  destruct (Z.ltb_spec d 0) as [?|_]; [lia|].
  set (s1' := on_world _ s1).
  assert (plan (mgr s1) = plan (mgr s0)) as Hpl by (by rewrite Hm).
  assert (solo thread_step 4 s1' (TOpen O63)
          = Some (with_mgr (set_rw {| writer := false; readers := readers (mu (mgr s1')) |})
                    (on_world (fun w => (add_file w (LocalPath (plan (mgr s1')))).1) s1'),
                  TOpen (ODone (Some (length (files (world (ast s1')))), None))))
    as Hopen.
  { apply (open_reads s1' (data ++ dropN (lenN data)
                             (present (world (ast s0)) (LocalPath (plan (mgr s0))))) mt).
    - unfold s1'. cbn [mgr on_world]. by rewrite Hm.
    - unfold needsFetch, s1', Stat. cbn [mgr on_world ast world with_world with_clock clock fs].
      rewrite Hm. cbn [lastFetchedAt plan set_lastFetchedAt]. rewrite Hfs, Hc.
      unfold After, Add.
      destruct (Z.ltb_spec (clock (world (ast s0)) + UpdateInterval (plan (mgr s0)))
                  (clock (world (ast s0)) + d)); [lia|done].
    - unfold s1'. cbn [mgr on_world ast world with_world with_clock fs].
      rewrite Hpl. exact Hfs. }
  erewrite (exec_solo thread_step env_step 4 s1' _ j (TOpen O63)); [| |exact Hopen].
  2:{ rewrite lookup_app_l by (rewrite length_insert; by eapply lookup_lt_Some).
      by rewrite list_lookup_insert_ne. }
  eexists. split.
  { do 2 f_equal.
    rewrite insert_app_l by (rewrite length_insert; by eapply lookup_lt_Some).
    unfold s1'. cbn [on_world ast world with_world with_clock files]. by rewrite Hlf. }
  unfold s1'.
  cbn [mgr ast world with_mgr on_world with_world with_clock add_file fst
       files opened fs clock].
  split; [done|]. split.
  { rewrite Hm. destruct (mgr s0) as [pl t tm [wr rd] q]. simpl in *. by subst wr. }
  split; [by exists mt|]. split.
  - rewrite lookup_app_l; [done|]. rewrite Hlf. lia.
  - rewrite lookup_app_r by (rewrite Hlf; lia). rewrite Hlf, Nat.sub_diag. simpl.
    by rewrite Hpl.
Qed.
End FetchTraces.

(** ** Under every schedule: the stop signal, the manager's lock *)

Section Invariants.
Context {P : Type} {PlanP : Plan P}.
Implicit Types (s : Shared P) (sys : Sys (Shared P) Thread).

Lemma running_loops_count (l : list Thread) : running_loops l = count is_running l.
Proof.
  induction l as [|t l IH]; simpl; [done|].
  destruct t as [| | | |[]|]; simpl; by rewrite IH.
Qed.

Lemma lockedFetch_step_mgr s lf s' lf' new :
  lockedFetch_step s lf = Some (s', lf', new) ->
  quit (mgr s') = quit (mgr s) /\ mu (mgr s') = mu (mgr s)
  /\ plan (mgr s') = plan (mgr s)
  /\ Forall (fun t => exists r, t = TRun r) new.
Proof.
  intros H. destruct lf; simpl in H; repeat case_match; simplify_eq;
    repeat split; try done; repeat constructor; by eexists.
Qed.

Lemma Fetch_step_mgr s p s' p' new :
  Fetch_step s p = Some (s', p', new) ->
  quit (mgr s') = quit (mgr s) /\ plan (mgr s') = plan (mgr s)
  /\ Forall (fun t => exists r, t = TRun r) new.
Proof.
  intros H. destruct p; simpl in H; try done.
  - destruct (lock _); by simplify_eq.
  - destruct (lockedFetch_step s lf) as [[[s1 lf1] new1]|] eqn:E; [|done].
    apply lockedFetch_step_mgr in E as (? & ? & ? & ?).
    destruct lf1; by simplify_eq.
  - by simplify_eq.
Qed.

Lemma count_runs f (new : list Thread) :
  (forall r, f (TRun r) = false) ->
  Forall (fun t => exists r, t = TRun r) new -> count f new = 0%nat.
Proof.
  intros Hf. induction 1 as [|t new [r ->] _ IH]; simpl; [done|].
  by rewrite Hf, IH.
Qed.

(** One step of one goroutine while the stop signal is open. *)
Lemma thread_step_never_stops s t s' t' new :
  thread_step s t = Some (s', t', new) ->
  quit (mgr s) = Some ChanOpen ->
  stopping t = false ->
  quit (mgr s') = Some ChanOpen
  /\ stopping t' = false
  /\ is_running t' = is_running t
  /\ count stopping new = 0%nat.
Proof.
  intros Hstep Hq Hs.
  destruct t as [p|p|p|p|p|r]; simpl in Hstep.
  - destruct (Open_step _ p) as [[[s1 p1] new1]|] eqn:E; [|done]. simplify_eq.
    assert (quit (mgr s') = quit (mgr s)
            /\ Forall (fun t => exists r, t = TRun r) new) as [-> Hn].
    { destruct p; simpl in E; try done.
      - destruct (rlock _); by simplify_eq.
      - destruct (needsFetch _ _); by simplify_eq.
      - destruct (lockedFetch_step _ lf) as [[[s2 lf2] new2]|] eqn:E2; [|done].
        apply lockedFetch_step_mgr in E2 as (? & ? & ? & ?).
        destruct lf2; by simplify_eq.
      - by simplify_eq.
      - by simplify_eq. }
    repeat split; try done. by apply count_runs.
  - destruct (Fetch_step _ p) as [[[s1 p1] new1]|] eqn:E; [|done]. simplify_eq.
    apply Fetch_step_mgr in E as (-> & _ & Hn).
    repeat split; try done. by apply count_runs.
  - destruct (Abort_step _ p) as [[a p']|]; by simplify_eq.
  - destruct (Start_step _ p) as [[[s1 p1] new1]|] eqn:E; [|done]. simplify_eq.
    destruct p; simpl in E; try rewrite Hq in E; by simplify_eq.
  - destruct (loop_step _ p) as [[[s1 p1] new1]|] eqn:E; [|done]. simplify_eq.
    destruct p; simpl in E; try done.
    + rewrite Hq in E. destruct (timer_ready _ _); by simplify_eq.
    + destruct (Fetch_step _ f) as [[[s2 f2] new2]|] eqn:E2; [|done].
      apply Fetch_step_mgr in E2 as (E2 & _ & Hn).
      destruct f2; simplify_eq; rewrite E2; repeat split; try done;
        by apply count_runs.
    + by simplify_eq.
  - destruct (Run_step _ r) as [[a r']|]; by simplify_eq.
Qed.

Lemma step_never_stops sys sys' (ev : Event EnvEvent) :
  step thread_step env_step sys ev = Some sys' ->
  quit (mgr (shared sys)) = Some ChanOpen ->
  count stopping (pool sys) = 0%nat ->
  quit (mgr (shared sys')) = Some ChanOpen
  /\ count stopping (pool sys') = 0%nat
  /\ (count is_running (pool sys) <= count is_running (pool sys'))%nat.
Proof.
  intros Hstep Hq Hs. destruct sys as [sh l], ev as [i|e]; simpl in *.
  - destruct (l !! i) as [t|] eqn:Hi; [|done].
    destruct (thread_step sh t) as [[[sh' t'] new]|] eqn:Ht; [|done].
    injection Hstep as <-.
    destruct (count_delete stopping l i t Hi) as [Es Es'].
    destruct (count_delete is_running l i t Hi) as [Er Er'].
    assert (stopping t = false) as Hst.
    { rewrite Es in Hs. destruct (stopping t); [simpl in Hs; lia | done]. }
    destruct (thread_step_never_stops _ _ _ _ _ Ht Hq Hst) as (Hq' & Hst' & Hr' & Hn).
    simpl. rewrite !count_app, Es', Er', Er, Hst', Hr', Hn.
    rewrite Es, Hst in Hs. simpl in *. repeat split; try done; lia.
  - destruct e as [d|p]; simpl in Hstep; repeat case_match; simplify_eq;
      simpl; done.
Qed.

Lemma exec_never_stops (sched : list (Event EnvEvent)) sys sys' :
  mexec sys sched = Some sys' ->
  quit (mgr (shared sys)) = Some ChanOpen ->
  count stopping (pool sys) = 0%nat ->
  quit (mgr (shared sys')) = Some ChanOpen
  /\ count stopping (pool sys') = 0%nat
  /\ (count is_running (pool sys) <= count is_running (pool sys'))%nat.
Proof.
  revert sys. induction sched as [|ev sched IH]; intros sys Hex Hq Hs.
  - by injection Hex as <-.
  - unfold mexec in Hex. rewrite exec_cons in Hex.
    destruct (step thread_step env_step sys ev) as [sys1|] eqn:Hs1; [|done].
    destruct (step_never_stops _ _ _ Hs1 Hq Hs) as (Hq1 & Hst1 & Hr1).
    destruct (IH sys1 Hex Hq1 Hst1) as (? & ? & ?).
    repeat split; try done. lia.
Qed.

(** X12: Nothing closes [m.quit]: from a state in which the stop signal is
    open and no background loop has taken the stop branch, whatever the
    schedule, the stop signal is still open, no loop is at lines 50-52 or
    has returned, and the number of running loops has not gone down. *)
Theorem X12_background_loops_never_stop (sched : list (Event EnvEvent)) sys sys' :
  quit (mgr (shared sys)) = Some ChanOpen ->
  count stopping (pool sys) = 0%nat ->
  mexec sys sched = Some sys' ->
  quit (mgr (shared sys')) = Some ChanOpen
  /\ count stopping (pool sys') = 0%nat
  /\ (running_loops (pool sys) <= running_loops (pool sys'))%nat.
Proof.
  intros Hq Hs Hex. rewrite !running_loops_count.
  by apply (exec_never_stops sched).
Qed.

Lemma lockedFetch_step_lock s lf s' lf' new :
  lockedFetch_step s lf = Some (s', lf', new) ->
  mu (mgr s') = mu (mgr s) /\ Forall (fun t => exists r, t = TRun r) new.
Proof.
  intros H. apply lockedFetch_step_mgr in H as (_ & ? & _ & ?). done.
Qed.

Lemma Fetch_step_locked s p s' p' new (nf no : nat) :
  Fetch_step s p = Some (s', p', new) ->
  b2n (writer (mu (mgr s))) = (b2n (fetch_holds p) + nf)%nat ->
  readers (mu (mgr s)) = no ->
  (writer (mu (mgr s)) = true -> readers (mu (mgr s)) = 0%nat) ->
  b2n (writer (mu (mgr s'))) = (b2n (fetch_holds p') + nf)%nat
  /\ readers (mu (mgr s')) = no
  /\ (writer (mu (mgr s')) = true -> readers (mu (mgr s')) = 0%nat)
  /\ Forall (fun t => exists r, t = TRun r) new.
Proof.
  intros H Hw Hr Hx. destruct p; simpl in H; try done.
  - unfold lock in H. destruct (writer (mu (mgr s))) eqn:Ew; [done|].
    destruct (readers (mu (mgr s))) eqn:Er; [|done]. simplify_eq.
    simpl in *. repeat split; try done. lia.
  - destruct (lockedFetch_step s lf) as [[[s1 lf1] new1]|] eqn:E; [|done].
    apply lockedFetch_step_lock in E as (E & ?).
    destruct lf1; simplify_eq; rewrite E; simpl in *; done.
  - simplify_eq. simpl in *.
    destruct (writer (mu (mgr s))); simpl in *; repeat split; try done; lia.
Qed.

(** One step of one goroutine, given how many of the others are inside
    Fetch ([nf]) and inside Open ([no]). *)
Lemma thread_step_locked s t s' t' new (nf no : nat) :
  thread_step s t = Some (s', t', new) ->
  b2n (writer (mu (mgr s))) = (b2n (in_Fetch t) + nf)%nat ->
  readers (mu (mgr s)) = (b2n (in_Open t) + no)%nat ->
  (writer (mu (mgr s)) = true -> readers (mu (mgr s)) = 0%nat) ->
  b2n (writer (mu (mgr s'))) = (b2n (in_Fetch t') + nf)%nat
  /\ readers (mu (mgr s')) = (b2n (in_Open t') + no)%nat
  /\ (writer (mu (mgr s')) = true -> readers (mu (mgr s')) = 0%nat)
  /\ count in_Fetch new = 0%nat /\ count in_Open new = 0%nat.
Proof.
  intros Hstep Hw Hr Hx.
  destruct t as [p|p|p|p|p|r]; simpl in Hstep.
  - (* Open *)
    destruct (Open_step _ p) as [[[s1 p1] new1]|] eqn:E; [|done]. simplify_eq.
    destruct p; simpl in E; try done.
    + unfold rlock in E. destruct (writer (mu (mgr s))) eqn:Ew; [done|].
      simplify_eq. simpl in *. repeat split; try done; lia.
    + destruct (needsFetch _ _); simplify_eq; simpl in *; done.
    + destruct (lockedFetch_step _ lf) as [[[s2 lf2] new2]|] eqn:E2; [|done].
      apply lockedFetch_step_lock in E2 as (E2 & Hn).
      destruct lf2; simplify_eq; rewrite E2; simpl in *;
        repeat split; try done; by apply count_runs.
    + simplify_eq. simpl in *. done.
    + simplify_eq. simpl in *.
      destruct (writer (mu (mgr s))) eqn:Ew; simpl in *.
      * specialize (Hx eq_refl). lia.
      * repeat split; try done; lia.
  - (* Fetch *)
    destruct (Fetch_step _ p) as [[[s1 p1] new1]|] eqn:E; [|done]. simplify_eq.
    simpl in *.
    destruct (Fetch_step_locked _ _ _ _ _ nf no E Hw Hr Hx) as (? & ? & ? & Hn).
    repeat split; try done; by apply count_runs.
  - destruct (Abort_step _ p) as [[a p']|]; by simplify_eq.
  - destruct (Start_step _ p) as [[[s1 p1] new1]|] eqn:E; [|done]. simplify_eq.
    destruct p; simpl in E; repeat case_match; by simplify_eq.
  - (* the background loop *)
    destruct (loop_step _ p) as [[[s1 p1] new1]|] eqn:E; [|done]. simplify_eq.
    destruct p; simpl in E; try done.
    + repeat case_match; by simplify_eq.
    + destruct (Abort_step _ p) as [[a p']|]; [|done].
      destruct p'; by simplify_eq.
    + by simplify_eq.
    + destruct (Fetch_step _ f) as [[[s2 f2] new2]|] eqn:E2; [|done].
      simpl in *.
      destruct (Fetch_step_locked _ _ _ _ _ nf no E2 Hw Hr Hx) as (H1 & ? & ? & Hn).
      destruct f2; simplify_eq; simpl in *; repeat split; try done;
        by apply count_runs.
    + by simplify_eq.
  - destruct (Run_step _ r) as [[a r']|]; by simplify_eq.
Qed.

Lemma step_locked sys sys' (ev : Event EnvEvent) :
  locked sys -> step thread_step env_step sys ev = Some sys' -> locked sys'.
Proof.
  intros (Hw & Hr & Hx) Hstep. destruct sys as [sh l], ev as [i|e]; simpl in *.
  - destruct (l !! i) as [t|] eqn:Hi; [|done].
    destruct (thread_step sh t) as [[[sh' t'] new]|] eqn:Ht; [|done].
    injection Hstep as <-.
    destruct (count_delete in_Fetch l i t Hi) as [Ef Ef'].
    destruct (count_delete in_Open l i t Hi) as [Eo Eo'].
    rewrite Ef in Hw. rewrite Eo in Hr.
    destruct (thread_step_locked _ _ _ _ _ _ _ Ht Hw Hr Hx)
      as (Hw' & Hr' & Hx' & Nf & No).
    unfold locked. simpl. rewrite !count_app, Ef', Eo', Nf, No.
    rewrite !Nat.add_0_r. done.
  - destruct e as [d|p]; simpl in Hstep; repeat case_match; simplify_eq;
      unfold locked; simpl; done.
Qed.

Lemma exec_locked (sched : list (Event EnvEvent)) sys sys' :
  locked sys -> mexec sys sched = Some sys' -> locked sys'.
Proof.
  revert sys. induction sched as [|ev sched IH]; intros sys Hl Hex.
  - by injection Hex as <-.
  - unfold mexec in Hex. rewrite exec_cons in Hex.
    destruct (step thread_step env_step sys ev) as [sys1|] eqn:Hs; [|done].
    eapply IH; [|exact Hex]. by eapply step_locked.
Qed.

(** X13: The manager's lock, whatever the schedule, from a free lock and
    callers that are inside neither Fetch nor Open: at most one goroutine
    is between the Lock and the Unlock of Fetch, and then none is between
    the RLock and the RUnlock of Open; the lock is held by a writer
    exactly when a goroutine is inside Fetch and its reader count is the
    number of goroutines inside Open, so it is free again once all have
    returned. *)
Theorem X13_Fetch_excludes_Fetch_and_Open (sched : list (Event EnvEvent)) sys sys' :
  mu (mgr (shared sys)) = {| writer := false; readers := 0 |} ->
  count in_Fetch (pool sys) = 0%nat ->
  count in_Open (pool sys) = 0%nat ->
  mexec sys sched = Some sys' ->
  (count in_Fetch (pool sys') <= 1)%nat
  /\ (count in_Fetch (pool sys') = 1%nat -> count in_Open (pool sys') = 0%nat)
  /\ writer (mu (mgr (shared sys'))) = (0 <? count in_Fetch (pool sys'))%nat
  /\ readers (mu (mgr (shared sys'))) = count in_Open (pool sys').
Proof.
  intros Hmu Hf Ho Hex.
  assert (locked sys) as Hl.
  { unfold locked. rewrite Hmu, Hf, Ho. done. }
  destruct (exec_locked _ _ _ Hl Hex) as (Hw & Hr & Hx).
  destruct (writer (mu (mgr (shared sys')))) eqn:Ew; simpl in Hw.
  - rewrite <- Hw. repeat split; try done. intros _. rewrite <- Hr. by apply Hx.
  - rewrite <- Hw. repeat split; try done. lia.
Qed.
End Invariants.

(** ** The background loop *)

Section LoopTraces.
Context {P : Type} {PlanP : Plan P}.
Implicit Types (s : Shared P).


Lemma loop_Fetch_step s (f f' : FetchPc) s' new :
  thread_step s (TFetch f) = Some (s', TFetch f', new) ->
  thread_step s (TLoop (Lp54 f)) = Some (s', in_loop_Fetch f', new).
Proof.
  cbn [thread_step loop_step]. intros H.
  destruct (Fetch_step s f) as [[[s1 f1] new1]|]; [|done].
  simplify_eq. by destruct f'.
Qed.

(** What Fetch does in [n] steps, line 54 of the loop does in [n] steps. *)
Lemma loop_Fetch_solo (n : nat) s (f f' : FetchPc) s' :
  (forall ret, f <> FDone ret) ->
  solo thread_step n s (TFetch f) = Some (s', TFetch f') ->
  solo thread_step n s (TLoop (Lp54 f)) = Some (s', in_loop_Fetch f').
Proof.
  revert s f. induction n as [|n IH]; intros s f Hf H.
  - simpl in *. simplify_eq. destruct f'; try done. by destruct (Hf ret).
  - cbn [solo] in *.
    destruct (thread_step s (TFetch f)) as [[[s1 t1] new]|] eqn:E; [|done].
    destruct new; [|done].
    assert (exists f1, t1 = TFetch f1) as [f1 ->].
    { simpl in E. destruct (Fetch_step s f) as [[[? f1] ?]|]; [|done].
      simplify_eq. by eexists. }
    rewrite (loop_Fetch_step _ _ _ _ _ E).
    destruct f1 as [|lf|ret|ret]; try (by apply IH).
    destruct n; [simpl in *; by simplify_eq|]. done.
Qed.

(** X15: One iteration of the background loop when the timer is ready and the
    stream ends well: the loop takes the timer, Fetch copies the stream
    and sets lastFetchedAt to the time of the call, and the loop installs
    a new timer that fires one interval later; with a positive interval
    the loop then waits. *)
Theorem X15_loop_fetches_and_rearms s0 (l : list Thread) (i : nat)
    (data : bytes) (ending : option error) (blks : list bytes) (last : bytes) :
  let p := LocalPath (plan (mgr s0)) in
  let w0 := world (ast s0) in
  let h := length (files w0) in
  let r := length (remotes w0) in
  l !! i = Some (TLoop Lp48) ->
  quit (mgr s0) <> Some ChanClosed ->
  timer_ready (nextFetch (mgr s0)) w0 = true ->
  mu (mgr s0) = {| writer := false; readers := 0 |} ->
  ab (ast s0) = {| a_mu := false; a_quit := None |} ->
  String.eqb p (RemotePath (plan (mgr s0))) = false ->
  (forall msg, fs w0 p <> Denied msg) ->
  transport w0 (RemotePath (plan (mgr s0))) = inr (data, ending) ->
  ends_well ending = true ->
  data = concat blks ++ last ->
  Forall (fun b => lenN b = copyBlockSize) blks ->
  (lenN last < copyBlockSize)%N ->
  exists s1,
    mexec {| shared := s0; pool := l |} (loop_schedule i (length l) (length blks))
    = Some {| shared := s1;
              pool := <[i:=TLoop Lp48]> l
                      ++ [TRun {| pc := LEnd; tick := copyTick h r;
                                  ch := length (chans (ast s0)) |}] |}
    /\ mgr s1
       = {| plan := plan (mgr s0); lastFetchedAt := clock w0;
            nextFetch := {| deadline := Add (clock w0) (UpdateInterval (plan (mgr s0)));
                            taken := false |};
            mu := mu (mgr s0); quit := quit (mgr s0) |}
    /\ (exists mt,
          fs (world (ast s1)) p = Regular (data ++ dropN (lenN data) (present w0 p)) mt)
    /\ opened (world (ast s1)) = Datatypes.S (opened w0)
    /\ clock (world (ast s1)) = clock w0
    /\ (0 < UpdateInterval (plan (mgr s0)) -> thread_step s1 (TLoop Lp48) = None).
Proof.
  intros p w0 h r Hi Hq Hready Hmu Hab Hne Hok Htr Hend Hdata Hblks Hlast.
  subst p w0 h r.
  set (s0' := with_mgr (fun m => set_nextFetch {| deadline := deadline (nextFetch m);
                                                  taken := true |} m) s0).
  assert (thread_step s0 (TLoop Lp48) = Some (s0', TLoop (Lp54 F75), [])) as H1.
  { cbn [thread_step loop_step]. rewrite Hready.
    by destruct (quit (mgr s0)) as [[]|]. }
  destruct (refresh_trace s0' (<[i:=TLoop (Lp54 F75)]> l) i 4 (TLoop (Lp54 F75))
              (TLoop (Lp54 (F77 (LF104 (length (files (world (ast s0'))))
                                       (length (remotes (world (ast s0'))))))))
              (TLoop (Lp54 (F77 (LF114 (length (files (world (ast s0'))))
                                       (length (remotes (world (ast s0'))))
                                       (length (chans (ast s0')))))))
              (TLoop Lp55)
              {| writer := true; readers := 0 |} data ending blks last)
    as (s1 & Hex & Hm & Ha & Hfs & Hf & Hr & Ho & Hc & _); try done.
  { apply list_lookup_insert_eq. by eapply lookup_lt_Some. }
  { apply (loop_Fetch_solo 4 s0' F75 (F77 _)); [done|].
    by apply Fetch_enters_any. }
  { intros w2.
    apply (loop_Fetch_solo 5 _ (F77 _)
             (FDone (Some (length (files (world (ast s0')))), None))); [done|].
    rewrite (fetch_succeeds _ _ _ _ (length (files (world (ast s0')))));
      [|cbn [ast chans]; by rewrite lookup_app_r, Nat.sub_diag by lia].
    do 2 f_equal. unfold with_mgr, on_world, with_world. simpl. f_equal.
    destruct (mgr s0) as [pl t tm lk q]. simpl in *. by subst lk. }
  unfold loop_schedule, mexec in *. rewrite exec_app. cbn [exec].
  erewrite step_go; [|exact Hi|exact H1]. cbn [shared pool].
  rewrite app_nil_r, exec_app.
  rewrite length_insert, list_insert_insert_eq in Hex. rewrite Hex.
  cbn [exec]. erewrite step_go; cycle 1.
  { cbn [pool]. rewrite lookup_app_l by (rewrite length_insert; by eapply lookup_lt_Some).
    apply list_lookup_insert_eq. by eapply lookup_lt_Some. }
  { cbn [shared thread_step loop_step]. reflexivity. }
  cbn [shared pool]. eexists. split.
  { do 2 f_equal. rewrite app_nil_r.
    rewrite insert_app_l by (rewrite length_insert; by eapply lookup_lt_Some).
    by rewrite list_insert_insert_eq. }
  change (ast s0') with (ast s0) in *.
  set (s2 := with_mgr _ s1).
  assert (mgr s2
          = {| plan := plan (mgr s0); lastFetchedAt := clock (world (ast s0));
               nextFetch := {| deadline := Add (clock (world (ast s0)))
                                             (UpdateInterval (plan (mgr s0)));
                               taken := false |};
               mu := mu (mgr s0); quit := quit (mgr s0) |}) as Hfinal.
  { unfold s2. cbn [mgr with_mgr]. rewrite Hm.
    unfold computeNextFetchTime, time_After, Add, Sub, set_nextFetch. rewrite Hc.
    unfold s0'. simpl. do 2 f_equal. lia. }
  split; [exact Hfinal|].
  split; [done|]. split; [done|]. split; [done|].
  intros Hpos. cbn [thread_step loop_step]. rewrite Hfinal.
  unfold timer_ready. cbn [quit nextFetch taken deadline negb andb].
  change (world (ast s2)) with (world (ast s1)). rewrite Hc.
  unfold Add. destruct (Z.leb_spec (clock (world (ast s0)) + UpdateInterval (plan (mgr s0)))
                          (clock (world (ast s0)))); [lia|].
  by destruct (quit (mgr s0)) as [[]|].
Qed.


Lemma solo_add (n m : nat) s (t : Thread) :
  solo thread_step (n + m) s t
  = match solo thread_step n s t with
    | Some (s', t') => solo thread_step m s' t'
    | None => None
    end.
Proof.
  revert s t. induction n as [|n IH]; intros s t; cbn [solo Nat.add]; [done|].
  destruct (thread_step s t) as [[[s1 t1] [|? ?]]|]; auto.
Qed.

(** One iteration of the loop while the remote is down. *)
Lemma loop_retry_once (e : error) s :
  remote_down e s ->
  exists s',
    solo thread_step 7 s (TLoop Lp48) = Some (s', TLoop Lp48)
    /\ remote_down e s'
    /\ opened (world (ast s')) = Datatypes.S (opened (world (ast s)))
    /\ length (files (world (ast s'))) = Datatypes.S (length (files (world (ast s))))
    /\ (forall k, (k < length (files (world (ast s))))%nat ->
          files (world (ast s')) !! k = files (world (ast s)) !! k)
    /\ files (world (ast s')) !! length (files (world (ast s)))
       = Some {| f_path := LocalPath (plan (mgr s)); f_offset := 0%N;
                 f_closed := false |}
    /\ lastFetchedAt (mgr s') = lastFetchedAt (mgr s)
    /\ plan (mgr s') = plan (mgr s)
    /\ clock (world (ast s')) = clock (world (ast s))
    /\ ab (ast s') = ab (ast s) /\ chans (ast s') = chans (ast s)
    /\ remotes (world (ast s')) = remotes (world (ast s)).
Proof.
  intros (Hq & Hmu & Hready & Hdue & Hne & Hok & Htr).
  destruct (OpenFile_ok _ _ Hok) as (mt & HO & Hfs).
  cbn [solo].
  set (s1 := with_mgr (fun m => set_nextFetch {| deadline := deadline (nextFetch m);
                                                 taken := true |} m) s).
  assert (thread_step s (TLoop Lp48) = Some (s1, TLoop (Lp54 F75), [])) as ->.
  { cbn [thread_step loop_step]. rewrite Hready.
    by destruct (quit (mgr s)) as [[]|]. }
  set (s2 := with_mgr (set_rw {| writer := true; readers := 0 |}) s1).
  assert (thread_step s1 (TLoop (Lp54 F75)) = Some (s2, TLoop (Lp54 (F77 LF91)), [])) as ->.
  { cbn [thread_step loop_step Fetch_step]. unfold lock, s1. cbn [mgr with_mgr set_nextFetch mu].
    by rewrite Hmu. }
  set (s3 := on_world (fun _ => (OpenFile (world (ast s)) (LocalPath (plan (mgr s)))).1) s2).
  assert (thread_step s2 (TLoop (Lp54 (F77 LF91)))
          = Some (s3, TLoop (Lp54 (F77 (LF95 (length (files (world (ast s))))))), [])) as ->.
  { cbn [thread_step loop_step Fetch_step lockedFetch_step]. unfold s3. simpl.
    by rewrite HO. }
  assert (thread_step s3 (TLoop (Lp54 (F77 (LF95 (length (files (world (ast s))))))))
          = Some (s3, TLoop (Lp54 (F77 (LF96 (length (files (world (ast s))))))), [])) as ->.
  { cbn [thread_step loop_step Fetch_step lockedFetch_step]. simpl. by rewrite Hne. }
  set (s4 := on_world (fun _ => (cloudfile_Open (world (ast s3))
                                   (RemotePath (plan (mgr s)))).1) s3).
  assert (thread_step s3 (TLoop (Lp54 (F77 (LF96 (length (files (world (ast s))))))))
          = Some (s4, TLoop (Lp54 (F76d (None, Some e))), [])) as ->.
  { cbn [thread_step loop_step Fetch_step lockedFetch_step]. unfold s4, cloudfile_Open.
    simpl. rewrite HO. simpl. by rewrite Htr. }
  cbn [thread_step loop_step Fetch_step].
  eexists. split; [reflexivity|].
  unfold s4, s3, s2, s1, cloudfile_Open. rewrite HO. simpl. rewrite Htr. simpl.
  assert (forall x y : Z, x + (y - x) = y) as Hxy by (intros; lia).
  unfold remote_down, computeNextFetchTime, time_After, timer_ready, Add, Sub in *.
  simpl. rewrite Hxy.
  split; [|repeat split].
  - repeat split; try done.
    + by apply Z.leb_le.
    + intros msg. destruct (fs (world (ast s)) (LocalPath (plan (mgr s)))) eqn:E.
      * unfold fs_set. by rewrite String.eqb_refl.
      * by rewrite E.
      * exfalso. by eapply Hok.
  - rewrite length_app. simpl. lia.
  - intros k Hk. by rewrite lookup_app_l.
  - by rewrite lookup_app_r, Nat.sub_diag by lia.
Qed.

(** X16: While the remote is down and a refresh is overdue, the background
    loop does not wait: each failed Fetch leaves lastFetchedAt as it was,
    so the timer it installs is ready at once.  After [n] iterations (of
    seven steps) the transport has been asked [n] more times, [n] more
    local files are open, and the loop is ready to go again; the clock
    has not moved. *)
Theorem X16_loop_retries_at_once (n : nat) (e : error) s :
  remote_down e s ->
  exists s',
    solo thread_step (7 * n) s (TLoop Lp48) = Some (s', TLoop Lp48)
    /\ remote_down e s'
    /\ opened (world (ast s')) = (opened (world (ast s)) + n)%nat
    /\ length (files (world (ast s'))) = (length (files (world (ast s))) + n)%nat
    /\ (forall k, (length (files (world (ast s))) <= k < length (files (world (ast s'))))%nat ->
          files (world (ast s')) !! k
          = Some {| f_path := LocalPath (plan (mgr s)); f_offset := 0%N;
                    f_closed := false |})
    /\ (forall k, (k < length (files (world (ast s))))%nat ->
          files (world (ast s')) !! k = files (world (ast s)) !! k)
    /\ lastFetchedAt (mgr s') = lastFetchedAt (mgr s)
    /\ clock (world (ast s')) = clock (world (ast s)).
Proof.
  revert s. induction n as [|n IH]; intros s Hdown.
  - exists s. rewrite Nat.mul_0_r, !Nat.add_0_r.
    split; [done|]. split; [done|]. split; [done|]. split; [done|].
    split; [|done]. intros k Hk. lia.
  - destruct (loop_retry_once e s Hdown)
      as (s1 & H1 & Hdown1 & Ho1 & Hl1 & Hold1 & Hnew1 & Hlast1 & Hpl1 & Hc1 & _).
    destruct (IH s1 Hdown1)
      as (s' & Hn & Hdown' & Ho & Hl & Hfiles & Hold & Hlast & Hc).
    exists s'. split.
    { assert ((7 * Datatypes.S n)%nat = (7 + 7 * n)%nat) as -> by lia.
      rewrite solo_add, H1. exact Hn. }
    split; [done|]. split; [lia|]. split; [lia|]. split; [|split; [|split; congruence]].
    + intros k Hk.
      destruct (decide (k = length (files (world (ast s))))) as [->|Hne].
      * rewrite Hold by lia. exact Hnew1.
      * rewrite <- Hpl1. apply Hfiles. lia.
    + intros k Hk. rewrite Hold by lia. by apply Hold1.
Qed.
End LoopTraces.

(** ** Timers and times *)

Section Timers.
Context {P : Type} {PlanP : Plan P}.
Implicit Types (s : Shared P) (sys : Sys (Shared P) Thread) (m : Manager P).

(** X17: The timer made by computeNextFetchTime is ready from lastFetchedAt +
    interval on, whatever the instant at which it was made (in the past
    or not); so whenever the freshness check of needsFetch finds the
    interval elapsed, the timer of the background loop has fired. *)
Theorem X17_timer_fires_when_due m (w w' : World) :
  (timer_ready (computeNextFetchTime m w) w' = true
   <-> Add (lastFetchedAt m) (UpdateInterval (plan m)) <= clock w')
  /\ (After (clock w') (Add (lastFetchedAt m) (UpdateInterval (plan m))) = true ->
      timer_ready (computeNextFetchTime m w) w' = true).
Proof.
  unfold timer_ready, computeNextFetchTime, time_After, After, Add, Sub. simpl.
  assert (clock w + (lastFetchedAt m + UpdateInterval (plan m) - clock w)
          = lastFetchedAt m + UpdateInterval (plan m)) as -> by lia. split.
  - apply Z.leb_le.
  - intros H. apply Z.ltb_lt in H. apply Z.leb_le. lia.
Qed.

(** X18: A manager made over a local file that exists takes the file's
    modification time for the time of its last fetch: while the file is
    not older than the interval, Open returns the file as it is and does
    not ask the transport. *)
Theorem X18_new_manager_trusts_existing_file (pl : P) (w : World)
    (data : bytes) (mt : Time) :
  fs w (LocalPath pl) = Regular data mt ->
  clock w <= Add mt (UpdateInterval pl) ->
  exists s',
    solo thread_step 4 (shared (boot pl w [])) (TOpen O63)
    = Some (s', TOpen (ODone (Some (length (files w)), None)))
    /\ mgr s' = NewManager pl w
    /\ lastFetchedAt (mgr s') = mt
    /\ nextFetch (mgr s') = {| deadline := Add mt (UpdateInterval pl); taken := false |}
    /\ opened (world (ast s')) = opened w
    /\ fs (world (ast s')) = fs w
    /\ files (world (ast s'))
       = files w ++ [{| f_path := LocalPath pl; f_offset := 0%N; f_closed := false |}].
Proof.
  intros Hfs Hfresh.
  assert (NewManager pl w
          = {| plan := pl; lastFetchedAt := mt;
               nextFetch := {| deadline := Add mt (UpdateInterval pl); taken := false |};
               mu := {| writer := false; readers := 0 |};
               quit := Some ChanOpen |}) as HN.
  { unfold NewManager, Stat, computeNextFetchTime, time_After, Add, Sub.
    rewrite Hfs. simpl.
    by replace (clock w + (mt + UpdateInterval pl - clock w))
      with (mt + UpdateInterval pl) by lia. }
  pose proof (open_reads (shared (boot pl w [])) data mt) as Hopen.
  cbn [boot shared mgr ast world] in Hopen. rewrite HN in Hopen.
  cbn [mu writer readers plan] in Hopen.
  cbn [boot shared]. rewrite HN, Hopen; [| done | | exact Hfs].
  - eexists. split; [reflexivity|]. done.
  - unfold needsFetch, Stat. cbn [lastFetchedAt plan]. rewrite Hfs. unfold After.
    destruct (Z.ltb_spec (Add mt (UpdateInterval pl)) (clock w)); [lia|done].
Qed.

Lemma copyTick_clock (h r : nat) (w : World) : clock (copyTick h r w).1 = clock w.
Proof.
  unfold copyTick, CopyN.
  destruct (files w !! h) as [f|]; [|done].
  destruct (remotes w !! r) as [x|]; [|done].
  destruct (f_closed f); [done|].
  assert (clock (write_file w h f (takeN copyBlockSize (r_rest x))) = clock w) as Hw.
  { unfold write_file. destruct (takeN _ _); [done|]. by destruct (fs w (f_path f)). }
  destruct (lenN _ =? _)%N; [done|]. by destruct (error_eqb _ EOF).
Qed.

Lemma Run_step_clock (a a' : AState World nat) (t t' : RunThread World nat) :
  manager_run (TRun t) ->
  Run_step a t = Some (a', t') ->
  clock (world a') = clock (world a) /\ manager_run (TRun t').
Proof.
  intros (h & r & Htk) Hs. destruct t as [p tk c]. simpl in Htk. subst tk.
  assert (tick t' = copyTick h r -> manager_run (TRun t')) as Hm
    by (intros E; by exists h, r).
  unfold Run_step in Hs. cbn [pc tick] in Hs.
  destruct p; try (repeat case_match; simplify_eq; (split; [done|by apply Hm])).
  pose proof (copyTick_clock h r (world a)) as Hc.
  destruct (copyTick h r (world a)) as [w1 [v e]]. simpl in Hc.
  destruct v, e; simplify_eq; (split; [exact Hc|by apply Hm]).
Qed.

Ltac quiet :=
  simpl in *; simplify_eq; simpl; repeat split; auto; try (by repeat constructor).

Lemma lockedFetch_step_time s lf s' lf' new :
  lockedFetch_step s lf = Some (s', lf', new) ->
  clock (world (ast s')) = clock (world (ast s))
  /\ plan (mgr s') = plan (mgr s)
  /\ (lastFetchedAt (mgr s') = lastFetchedAt (mgr s)
      \/ lastFetchedAt (mgr s') = clock (world (ast s)))
  /\ Forall manager_run new.
Proof.
  intros H. destruct lf; simpl in H.
  - unfold OpenFile in H. destruct (fs _ _); quiet.
  - destruct (String.eqb _ _); quiet.
  - unfold cloudfile_Open in H. destruct (transport _ _) as [e|[d en]]; quiet.
  - quiet. repeat constructor. by eexists _, _.
  - repeat case_match; quiet.
  - quiet.
  - quiet.
  - quiet.
  - done.
Qed.

Lemma Fetch_step_time s p s' p' new :
  Fetch_step s p = Some (s', p', new) ->
  clock (world (ast s')) = clock (world (ast s))
  /\ plan (mgr s') = plan (mgr s)
  /\ (lastFetchedAt (mgr s') = lastFetchedAt (mgr s)
      \/ lastFetchedAt (mgr s') = clock (world (ast s)))
  /\ Forall manager_run new.
Proof.
  intros H. destruct p; simpl in H; try done.
  - destruct (lock _); quiet.
  - destruct (lockedFetch_step s lf) as [[[s1 lf1] new1]|] eqn:E; [|done].
    apply lockedFetch_step_time in E. destruct lf1; by simplify_eq.
  - quiet.
Qed.

(** One step of one goroutine: the clock does not move, the plan is not
    touched, and lastFetchedAt is left alone or set to the clock. *)
Lemma thread_step_time s t s' t' new :
  manager_run t ->
  thread_step s t = Some (s', t', new) ->
  clock (world (ast s')) = clock (world (ast s))
  /\ plan (mgr s') = plan (mgr s)
  /\ (lastFetchedAt (mgr s') = lastFetchedAt (mgr s)
      \/ lastFetchedAt (mgr s') = clock (world (ast s)))
  /\ manager_run t' /\ Forall manager_run new.
Proof.
  intros Hrun Hstep.
  destruct t as [p|p|p|p|p|r]; simpl in Hstep.
  - destruct (Open_step _ p) as [[[s1 p1] new1]|] eqn:E; [|done]. simplify_eq.
    destruct p; simpl in E; try done.
    + destruct (rlock _); quiet.
    + destruct (needsFetch _ _); quiet.
    + destruct (lockedFetch_step _ lf) as [[[s2 lf2] new2]|] eqn:E2; [|done].
      apply lockedFetch_step_time in E2 as (? & ? & ? & ?).
      destruct lf2; quiet.
    + unfold os_Open in E. destruct (fs _ _); quiet.
    + quiet.
  - destruct (Fetch_step _ p) as [[[s1 p1] new1]|] eqn:E; [|done]. simplify_eq.
    apply Fetch_step_time in E as (? & ? & ? & ?). quiet.
  - destruct (Abort_step _ p) as [[a p']|] eqn:E; [|done]. simplify_eq.
    destruct p; simpl in E; repeat case_match; quiet.
  - destruct (Start_step _ p) as [[[s1 p1] new1]|] eqn:E; [|done]. simplify_eq.
    destruct p; simpl in E; repeat case_match; quiet.
  - destruct (loop_step _ p) as [[[s1 p1] new1]|] eqn:E; [|done]. simplify_eq.
    destruct p; simpl in E; try done.
    + repeat case_match; quiet.
    + destruct (Abort_step _ p) as [[a p']|] eqn:E2; [|done].
      destruct p; simpl in E2; repeat case_match; quiet.
    + quiet.
    + destruct (Fetch_step _ f) as [[[s2 f2] new2]|] eqn:E2; [|done].
      apply Fetch_step_time in E2 as (? & ? & ? & ?).
      destruct f2; quiet.
    + quiet.
  - destruct (Run_step _ r) as [[a r']|] eqn:E; [|done]. simplify_eq.
    destruct (Run_step_clock _ _ _ _ Hrun E) as [? ?]. quiet.
Qed.

(** X14: The times of the manager, whatever the schedule, when every run in
    the pool is a copy started by the manager: the plan is never
    changed; the clock does not go back; lastFetchedAt is either what it
    was or an instant read from the clock since, so it never moves
    ahead of the clock unless it was ahead at the start. *)
Theorem X14_lastFetchedAt_is_a_past_clock_reading (sched : list (Event EnvEvent))
    sys sys' :
  Forall manager_run (pool sys) ->
  mexec sys sched = Some sys' ->
  plan (mgr (shared sys')) = plan (mgr (shared sys))
  /\ clock (world (ast (shared sys))) <= clock (world (ast (shared sys')))
  /\ (lastFetchedAt (mgr (shared sys')) = lastFetchedAt (mgr (shared sys))
      \/ clock (world (ast (shared sys))) <= lastFetchedAt (mgr (shared sys'))
                                          <= clock (world (ast (shared sys'))))
  /\ Forall manager_run (pool sys').
Proof.
  revert sys. induction sched as [|ev sched IH]; intros sys Hruns Hex.
  - injection Hex as <-. repeat split; auto. lia.
  - unfold mexec in Hex. rewrite exec_cons in Hex.
    destruct (step thread_step env_step sys ev) as [sys1|] eqn:Hs; [|done].
    assert (plan (mgr (shared sys1)) = plan (mgr (shared sys))
            /\ clock (world (ast (shared sys))) <= clock (world (ast (shared sys1)))
            /\ (lastFetchedAt (mgr (shared sys1)) = lastFetchedAt (mgr (shared sys))
                \/ lastFetchedAt (mgr (shared sys1)) = clock (world (ast (shared sys)))
                   /\ clock (world (ast (shared sys1))) = clock (world (ast (shared sys))))
            /\ Forall manager_run (pool sys1)) as (Hp1 & Hc1 & Hl1 & Hr1).
    { destruct sys as [sh l], ev as [i|e]; simpl in Hs.
      - destruct (l !! i) as [t|] eqn:Hi; [|done].
        destruct (thread_step sh t) as [[[sh' t'] new]|] eqn:Ht; [|done].
        injection Hs as <-.
        assert (manager_run t) as Ht0.
        { eapply (proj1 (Forall_lookup _ _)); [exact Hruns|exact Hi]. }
        destruct (thread_step_time _ _ _ _ _ Ht0 Ht) as (Hc & Hp & Hl & Ht' & Hn).
        simpl. rewrite Hc. split; [done|]. split; [lia|]. split; [tauto|].
        apply Forall_app. split; [|done]. by apply Forall_insert.
      - destruct e as [d|p]; simpl in Hs; repeat case_match; simplify_eq; simpl.
        + repeat split; auto. lia.
        + repeat split; auto. lia. }
    destruct (IH sys1 Hr1 Hex) as (Hp & Hc & Hl & Hr).
    split; [congruence|]. split; [lia|]. split; [|done].
    destruct Hl as [Hl|Hl]; [rewrite Hl|right; lia].
    destruct Hl1 as [Hl1|[Hl1 Hc1']]; [by left|right; lia].
Qed.
End Timers.

(** ** The guard of the abortable, from any guarded state *)

Section GuardedRuns.
Context {P : Type} {PlanP : Plan P}.

(** X1: The guard of Run (lines 33-41), whatever the schedule and whoever
    calls: from a state in which at most one goroutine holds [a.mu] and
    at most one run has the cancellation channel installed (a fresh
    manager with callers that have not started, for one), at most one
    goroutine of Run is between installing the channel and clearing it,
    and at most one holds [a.mu]; none is in its loop while [a.quit] is
    nil, none holds the mutex while it is free. *)
Theorem X1_one_run_at_a_time (sched : list (Event EnvEvent))
    (sys sys' : Sys (Shared P) Thread) :
  guarded sys ->
  mexec sys sched = Some sys' ->
  (count in_loop (pool sys') <= 1)%nat
  /\ (count holds_mu (pool sys') <= 1)%nat
  /\ (a_quit (ab (ast (shared sys'))) = None -> count in_loop (pool sys') = 0%nat)
  /\ (a_mu (ab (ast (shared sys'))) = false -> count holds_mu (pool sys') = 0%nat).
Proof.
  intros Hg Hex. destruct (exec_guarded _ _ _ Hg Hex) as (Hh & Hl & _).
  destruct (a_quit (ab (ast (shared sys')))), (a_mu (ab (ast (shared sys'))));
    simpl in *; repeat split; try done; try lia; intros _; lia.
Qed.
End GuardedRuns.

(** ** The properties above, at the scenarios *)

Lemma X1_one_run_at_a_time_witness :
  exists sys',
    mexec two_opens (two_opens_enter ++ two_opens_finish) = Some sys'
    /\ (count in_loop (pool sys') <= 1)%nat
    /\ (count holds_mu (pool sys') <= 1)%nat
    /\ (a_quit (ab (ast (shared sys'))) = None -> count in_loop (pool sys') = 0%nat)
    /\ (a_mu (ab (ast (shared sys'))) = false -> count holds_mu (pool sys') = 0%nat).
Proof.
  eexists. split; [vm_compute; reflexivity|].
  apply (X1_one_run_at_a_time (two_opens_enter ++ two_opens_finish) two_opens);
    [|vm_compute; reflexivity].
  unfold guarded. simpl. repeat split; first [lia | done].
Defined.

Lemma X2_Run_completes_witness :
  Run_steps (4 + (2 * 2 + 4)) (Run idle (count_to 3 9)).1.1 (Run idle (count_to 3 9)).2
  = Some ({| ab := ab idle; world := 3%nat;
             chans := chans idle
                      ++ [delivered (Some 9%nat) None {| result := None; errs := None |}] |},
          {| pc := LEnd; tick := count_to 3 9; ch := length (chans idle) |}).
Proof.
  apply (X2_Run_completes 2 idle (count_to 3 9) 3%nat (Some 9%nat) None).
  - reflexivity.
  - reflexivity.
  - intros k Hk. destruct k as [|[|k]]; [reflexivity|reflexivity|lia].
  - reflexivity.
  - by left.
Defined.

Lemma X3_second_Abort_panics_witness :
  exists s1,
    Abort_steps 4 active A68 = Some (s1, AEnd None)
    /\ Abort_steps 4 s1 A68 = Some (s1, APanic)
    /\ a_quit (ab s1) = Some ChanClosed
    /\ a_mu (ab s1) = false.
Proof. exact (X3_second_Abort_panics active eq_refl eq_refl). Defined.

Lemma X4_Abort_races_with_the_end_of_the_run_witness :
  exists s1 s2 s3,
    Abort_steps 2 active A68 = Some (s1, A73)
    /\ Run_steps 1 s1 ending_run = Some (s2, at_pc LEnd ending_run)
    /\ Abort_steps 2 s2 A73 = Some (s3, APanic)
    /\ ab s3 = {| a_mu := false; a_quit := None |}
    /\ world s3 = world active /\ chans s3 = chans active.
Proof.
  exact (X4_Abort_races_with_the_end_of_the_run active ending_run ChanOpen
           eq_refl eq_refl eq_refl).
Defined.

Lemma X5_Fetch_same_path_witness :
  exists s',
    solo thread_step 4 same_path (TFetch F75)
    = Some (s', TFetch (FDone (Some 0%nat, None)))
    /\ mgr s' = mgr same_path
    /\ opened (world (ast s')) = 0%nat
    /\ fs (world (ast s')) "test/tmp/same.txt" = Regular [] 1000.
Proof.
  destruct (X5_Fetch_same_path same_path)
    as (s' & H1 & H2 & _ & _ & H3 & _ & _ & H4);
    [reflexivity | reflexivity | by intros msg H |].
  exists s'. split; [exact H1|]. split; [exact H2|]. split; [exact H3|exact H4].
Defined.

Lemma X6_Fetch_local_open_fails_witness :
  solo thread_step 3 unreadable (TFetch F75)
  = Some (unreadable, TFetch (FDone (None, Some (ErrOther "permission denied")))).
Proof.
  exact (X6_Fetch_local_open_fails unreadable "permission denied" eq_refl eq_refl).
Defined.

Lemma X7_Open_not_due_witness :
  exists s',
    solo thread_step 4 (shared removed_then_aborted) (TOpen O63)
    = Some (s', TOpen (ODone (Some 0%nat, None)))
    /\ mgr s' = mgr (shared removed_then_aborted)
    /\ opened (world (ast s')) = 0%nat.
Proof.
  destruct (X7_Open_not_due (shared removed_then_aborted))
    as (s' & H1 & H2 & _ & _ & H3 & _); [reflexivity | reflexivity |].
  exists s'. split; [exact H1|]. split; [exact H2|exact H3].
Defined.

Lemma X8_Fetch_copies_the_stream_witness :
  exists s1,
    mexec first_fetch (copy_schedule 0 1 4 0 5)
    = Some {| shared := s1;
              pool := [TFetch (FDone (Some 0%nat, None));
                       TRun {| pc := LEnd; tick := copyTick 0 0; ch := 0 |}] |}
    /\ mgr s1 = set_lastFetchedAt 1000 (mgr (shared first_fetch))
    /\ (exists mt, fs (world (ast s1)) "to_fetch.txt" = Regular hello mt)
    /\ opened (world (ast s1)) = 1%nat.
Proof.
  destruct (X8_Fetch_copies_the_stream (shared first_fetch) (pool first_fetch) 0
              hello None [] hello)
    as (s1 & H1 & H2 & _ & H3 & _ & _ & H4 & _);
    [reflexivity | reflexivity | reflexivity | reflexivity | by intros msg H
    | reflexivity | reflexivity | reflexivity | constructor | reflexivity |].
  exists s1. split; [exact H1|]. split; [exact H2|]. split; [exact H3|exact H4].
Defined.

Lemma X9_Fetch_read_error_witness :
  exists s1,
    mexec broken_fetch (copy_schedule 0 1 4 0 4)
    = Some {| shared := s1;
              pool := [TFetch (FDone (None, Some (ErrOther "connection reset")));
                       TRun {| pc := LEnd; tick := copyTick 0 0; ch := 0 |}] |}
    /\ mgr s1 = mgr (shared broken_fetch)
    /\ (exists mt, fs (world (ast s1)) "to_fetch.txt" = Regular hello mt)
    /\ opened (world (ast s1)) = 1%nat.
Proof.
  destruct (X9_Fetch_read_error (shared broken_fetch) (pool broken_fetch) 0
              hello (ErrOther "connection reset") [] hello)
    as (s1 & H1 & H2 & _ & H3 & _ & _ & H4);
    [reflexivity | reflexivity | reflexivity | reflexivity | by intros msg H
    | reflexivity | reflexivity | reflexivity | constructor | reflexivity |].
  exists s1. split; [exact H1|]. split; [exact H2|]. split; [exact H3|exact H4].
Defined.

Lemma X10_Open_fetches_when_due_witness :
  exists s1,
    mexec two_opens (copy_schedule 0 2 5 0 5)
    = Some {| shared := s1;
              pool := [TOpen (ODone (Some 0%nat, None)); TOpen O63;
                       TRun {| pc := LEnd; tick := copyTick 0 0; ch := 0 |}] |}
    /\ mgr s1 = set_lastFetchedAt 1000 (mgr (shared two_opens))
    /\ (exists mt, fs (world (ast s1)) "to_fetch.txt" = Regular hello mt)
    /\ opened (world (ast s1)) = 1%nat.
Proof.
  destruct (X10_Open_fetches_when_due (shared two_opens) (pool two_opens) 0
              hello None [] hello)
    as (s1 & H1 & H2 & _ & H3 & _ & _ & H4 & _);
    [reflexivity | reflexivity | reflexivity | reflexivity | reflexivity
    | by intros msg H | reflexivity | reflexivity | reflexivity | constructor
    | reflexivity |].
  exists s1. split; [exact H1|]. split; [exact H2|]. split; [exact H3|exact H4].
Defined.

Lemma X11_second_Open_reads_the_cache_witness :
  exists s2,
    mexec two_opens
      (copy_schedule 0 2 5 0 5 ++ [Env (Advance 1000)] ++ repeat (Go 1) 4)
    = Some {| shared := s2;
              pool := [TOpen (ODone (Some 0%nat, None));
                       TOpen (ODone (Some 1%nat, None));
                       TRun {| pc := LEnd; tick := copyTick 0 0; ch := 0 |}] |}
    /\ opened (world (ast s2)) = 1%nat
    /\ (exists mt, fs (world (ast s2)) "to_fetch.txt" = Regular hello mt).
Proof.
  destruct (X11_second_Open_reads_the_cache (shared two_opens) (pool two_opens) 0 1
              hello None [] hello 1000)
    as (s2 & H1 & H2 & _ & H3 & _);
    [reflexivity | reflexivity | lia | reflexivity | reflexivity | reflexivity
    | reflexivity | by intros msg H | reflexivity | reflexivity | reflexivity
    | constructor | reflexivity | simpl; lia |].
  exists s2. split; [exact H1|]. split; [exact H2|exact H3].
Defined.

Lemma X12_background_loops_never_stop_witness :
  exists sys',
    mexec two_starts [Go 0; Go 0; Go 1; Go 1] = Some sys'
    /\ quit (mgr (shared sys')) = Some ChanOpen
    /\ count stopping (pool sys') = 0%nat
    /\ (running_loops (pool two_starts) <= running_loops (pool sys'))%nat.
Proof.
  eexists. split; [vm_compute; reflexivity|].
  apply (X12_background_loops_never_stop [Go 0; Go 0; Go 1; Go 1] two_starts);
    [reflexivity | reflexivity | vm_compute; reflexivity].
Defined.

Lemma X13_Fetch_excludes_Fetch_and_Open_witness :
  exists sys',
    mexec two_opens two_opens_enter = Some sys'
    /\ (count in_Fetch (pool sys') <= 1)%nat
    /\ (count in_Fetch (pool sys') = 1%nat -> count in_Open (pool sys') = 0%nat)
    /\ writer (mu (mgr (shared sys'))) = (0 <? count in_Fetch (pool sys'))%nat
    /\ readers (mu (mgr (shared sys'))) = count in_Open (pool sys').
Proof.
  eexists. split; [vm_compute; reflexivity|].
  apply (X13_Fetch_excludes_Fetch_and_Open two_opens_enter two_opens);
    [reflexivity | reflexivity | reflexivity | vm_compute; reflexivity].
Defined.

Lemma X14_lastFetchedAt_is_a_past_clock_reading_witness :
  exists sys',
    mexec first_fetch (copy_schedule 0 1 4 0 5) = Some sys'
    /\ plan (mgr (shared sys')) = plan (mgr (shared first_fetch))
    /\ clock (world (ast (shared first_fetch))) <= clock (world (ast (shared sys')))
    /\ (lastFetchedAt (mgr (shared sys')) = lastFetchedAt (mgr (shared first_fetch))
        \/ clock (world (ast (shared first_fetch))) <= lastFetchedAt (mgr (shared sys'))
                                                    <= clock (world (ast (shared sys'))))
    /\ Forall manager_run (pool sys').
Proof.
  eexists. split; [vm_compute; reflexivity|].
  apply (X14_lastFetchedAt_is_a_past_clock_reading (copy_schedule 0 1 4 0 5) first_fetch);
    [by repeat constructor | vm_compute; reflexivity].
Defined.

Lemma X15_loop_fetches_and_rearms_witness :
  exists s1,
    mexec overdue (loop_schedule 1 2 0)
    = Some {| shared := s1;
              pool := [TStart SDone; TLoop Lp48;
                       TRun {| pc := LEnd; tick := copyTick 0 0; ch := 0 |}] |}
    /\ lastFetchedAt (mgr s1) = 5000000000
    /\ nextFetch (mgr s1) = {| deadline := 8000000000; taken := false |}
    /\ opened (world (ast s1)) = 1%nat
    /\ thread_step s1 (TLoop Lp48) = None.
Proof.
  destruct (X15_loop_fetches_and_rearms (shared overdue) (pool overdue) 1
              hello None [] hello)
    as (s1 & H1 & H2 & _ & H3 & _ & H4);
    [reflexivity | discriminate | reflexivity | reflexivity | reflexivity
    | reflexivity | by intros msg H | reflexivity | reflexivity | reflexivity
    | constructor | reflexivity |].
  exists s1. split; [exact H1|]. rewrite H2. split; [reflexivity|].
  split; [reflexivity|]. split; [exact H3|]. apply H4. reflexivity.
Defined.

Lemma X16_loop_retries_at_once_witness :
  exists s',
    solo thread_step (7 * 2) overdue_down (TLoop Lp48) = Some (s', TLoop Lp48)
    /\ opened (world (ast s')) = 2%nat
    /\ length (files (world (ast s'))) = 2%nat
    /\ lastFetchedAt (mgr s') = 0
    /\ clock (world (ast s')) = 5000000000.
Proof.
  destruct (X16_loop_retries_at_once 2 (ErrOther "no such remote") overdue_down)
    as (s' & H1 & _ & H2 & H3 & _ & _ & H4 & H5).
  { unfold remote_down. simpl. repeat split; done. }
  exists s'. split; [exact H1|]. split; [exact H2|]. split; [exact H3|].
  split; [exact H4|exact H5].
Defined.

Lemma X18_new_manager_trusts_existing_file_witness :
  exists s',
    solo thread_step 4 (shared (boot retry_plan fresh_cache [])) (TOpen O63)
    = Some (s', TOpen (ODone (Some 0%nat, None)))
    /\ lastFetchedAt (mgr s') = 100
    /\ nextFetch (mgr s') = {| deadline := 1100; taken := false |}
    /\ opened (world (ast s')) = 0%nat.
Proof.
  destruct (X18_new_manager_trusts_existing_file retry_plan fresh_cache
              (list_byte_of_string "old") 100)
    as (s' & H1 & _ & H2 & H3 & H4 & _); [reflexivity | unfold Add; simpl; lia |].
  exists s'. split; [exact H1|]. split; [exact H2|]. split; [exact H3|exact H4].
Defined.
